(** * extract_msg.message_base: a shallow embedding of [MessageBase]

    The Python class [MessageBase] (src/extract_msg/message_base.py) is
    embedded as state-passing functions over a record of its instance
    attributes.  Python [str] values are [string]s (code points up to
    U+00FF), [bytes] values are lists of bytes, [None] is [None], an
    attribute that has not been assigned yet is a slot holding [None],
    and a raised exception is the [Raise] outcome. *)

From Stdlib Require Import String Ascii List ZArith Bool Lia Arith.
From Stdlib Require Import Strings.Byte DecimalString.
Import ListNotations.

Local Open Scope string_scope.
Local Open Scope Z_scope.

(** ** Python string primitives *)

Module PyStr.

(** [len(s)] *)
Definition len (s : string) : nat := String.length s.

(** [s.startswith(p)] *)
Definition startswith (s p : string) : bool := String.prefix p s.

(** [s.find(sub)]: lowest index at which [sub] occurs, or [-1]. *)
Fixpoint find (s sub : string) : Z :=
  if String.prefix sub s then 0
  else match s with
       | EmptyString => -1
       | String _ rest =>
           let r := find rest sub in
           if r =? -1 then -1 else r + 1
       end.

(** The scan of [s.replace(old, new)] for a non-empty [old]: left to
    right, non-overlapping.  [skip] counts the characters of a matched
    occurrence that are still to be dropped. *)
Fixpoint replace_scan (skip : nat) (s old new : string) : string :=
  match s with
  | EmptyString => EmptyString
  | String c rest =>
      match skip with
      | S k => replace_scan k rest old new
      | O =>
          if String.prefix old s
          then new ++ replace_scan (String.length old - 1) rest old new
          else String c (replace_scan 0 rest old new)
      end
  end.

(** With an empty [old], Python inserts [new] before every character
    and at the end. *)
Fixpoint intersperse (s new : string) : string :=
  match s with
  | EmptyString => new
  | String c rest => new ++ String c (intersperse rest new)
  end.

(** [s.replace(old, new)] *)
Definition replace (s old new : string) : string :=
  match old with
  | EmptyString => intersperse s new
  | _ => replace_scan 0 s old new
  end.

(** [sep.join(items)] *)
Definition join (sep : string) (items : list string) : string :=
  String.concat sep items.

(** [c in s] for a single character. *)
Fixpoint has_char (c : ascii) (s : string) : bool :=
  match s with
  | EmptyString => false
  | String d rest => Ascii.eqb c d || has_char c rest
  end.

(** Lower-casing of one character and of a string ([s.lower()]): the
    letters A-Z and, from U+00C0 to U+00DE, all but the multiplication
    sign. *)
Definition lower_char (c : ascii) : ascii :=
  let n := nat_of_ascii c in
  if (Nat.leb 65 n && Nat.leb n 90)
     || (Nat.leb 192 n && Nat.leb n 222 && negb (Nat.eqb n 215))
  then ascii_of_nat (n + 32)
  else c.

Fixpoint lower (s : string) : string :=
  match s with
  | EmptyString => EmptyString
  | String c rest => String (lower_char c) (lower rest)
  end.

(** Truthiness of a [str]: non-empty. *)
Definition nonempty (s : string) : bool :=
  match s with EmptyString => false | _ => true end.

End PyStr.

(** Character constants used by the source. *)
Definition CR : string := String (ascii_of_nat 13) EmptyString.
Definition LF : string := String (ascii_of_nat 10) EmptyString.
Definition TAB : string := String (ascii_of_nat 9) EmptyString.
Definition CRLF : string := (CR ++ LF)%string.
Definition SP : string := " ".
Definition SP2 : string := "  ".

(** ** The whitespace normalisation of [_genRecipient] (lines 104-108) *)

(** The [while value.find('  ') != -1] loop.  [fuel] bounds the number
    of passes; [None] means the budget ran out before the loop exited. *)
Fixpoint collapse_spaces (fuel : nat) (value : string) : option string :=
  if PyStr.find value SP2 =? -1 then Some value
  else match fuel with
       | O => None
       | S n => collapse_spaces n (PyStr.replace value SP2 SP)
       end.

(** Lines 105 and 106: the continuation sequences, then CR LF, CR, LF. *)
Definition unfold_lines (value : string) : string :=
  let value :=
    PyStr.replace
      (PyStr.replace
         (PyStr.replace value (SP ++ CRLF ++ TAB) SP)
         (CRLF ++ TAB ++ SP) SP)
      (CRLF ++ TAB) SP in
  PyStr.replace (PyStr.replace (PyStr.replace value CRLF SP) CR SP) LF SP.

(** [str.encode('utf-8')] on code points up to U+00FF: one byte below
    U+0080, two bytes from there on. *)
Definition bytes := list byte.

Definition encode_char (c : ascii) : bytes :=
  let n := N_of_ascii c in
  if (n <? 128)%N then [byte_of_ascii c]
  else
    let hi := N.lor 192 (N.shiftr n 6) in
    let lo := N.lor 128 (N.land n 63) in
    [byte_of_ascii (ascii_of_N hi); byte_of_ascii (ascii_of_N lo)].

Fixpoint encode_utf8 (s : string) : bytes :=
  match s with
  | EmptyString => []
  | String c rest => (encode_char c ++ encode_utf8 rest)%list
  end.

(** ** Exceptions and outcomes *)

(** The subclasses of [Exception] the module names or can meet. *)
Inductive exn : Type :=
| AttributeError
| TypeError
| KeyError
| IndexError
| NotImplementedError
| UnrecognizedMSGTypeError
| NotEncapsulatedRtf
| MalformedEncapsulatedRtf
| OtherError (name : string).

(** What a call does: return a value, raise, or (for the one [while]
    loop of the module) exhaust its iteration budget. *)
Inductive outcome (A : Type) : Type :=
| Return (a : A)
| Raise (e : exn)
| OutOfFuel.

Arguments Return {A} a.
Arguments Raise {A} e.
Arguments OutOfFuel {A}.

(** ** Data model *)

(** [recipient.Recipient]: the two attributes the module reads. *)
Record Recipient : Type := {
  r_type : Z;
  r_formatted : string
}.

(** A named-property registration [(entry, _type, name)]. *)
Definition NamedProp : Type := (string * string * option string)%type.

(** What an attachment object offers to this module: [type] ([None]:
    the object has no such attribute, and reading it raises
    [AttributeError]), [cid] and the outcome of [data.close()] ([None]:
    closes without raising). *)
Record AttachmentData : Type := {
  att_type : option string;
  att_cid : option string;
  att_close : option exn
}.

Inductive AttachmentClass : Type :=
| ClsAttachment
| ClsUnsupportedAttachment
| ClsBrokenAttachment.

(** An element of [self._attachments]: the class that built it, its
    directory, its data and the registrations it has received through
    [attachment._registerNamedProperty]. *)
Record Attachment : Type := {
  a_class : AttachmentClass;
  a_dir : string;
  a_data : AttachmentData;
  a_named : list NamedProp
}.

(** [email.message.Message]: the list [_headers]. *)
Definition Header : Type := list (string * option string).

(** [RTFDE.DeEncapsulator] after [deencapsulate()]. *)
Record DeEncapsulator : Type := {
  content_type : string;
  html : string;
  text : string
}.

(** The 9-tuple of [email.utils.parsedate]. *)
Record time_tuple : Type := {
  tm_year : Z; tm_mon : Z; tm_mday : Z;
  tm_hour : Z; tm_min : Z; tm_sec : Z;
  tm_wday : Z; tm_yday : Z; tm_isdst : Z
}.

(** Modelled from the spec: the constants of [constants.py], which is
    not part of the sources at hand.  Section 4.8 gives a three-level,
    strictly ordered policy: throwOnError, tolerateUnsupportedType,
    tolerateAnyError. *)
Definition ATTACHMENT_ERROR_THROW : Z := 0.
Definition ATTACHMENT_ERROR_NOT_IMPLEMENTED : Z := 1.
Definition ATTACHMENT_ERROR_BROKEN : Z := 2.

(** Everything a message reads but never writes: the container
    ([MSGFile]), the constructor arguments and the library functions the
    module calls. *)
Record Env : Type := {
  (* MSGFile *)
  getStringStream : string -> option string;
  getStream : string -> option bytes;
  mainProperties : string -> option Z;
  prop_date : option string;
  listDir : bool -> bool -> list (list string);
  prefixLen : nat;
  (* constructor arguments *)
  attachmentClass : string -> exn + AttachmentData;
  __attachmentsDelayed : bool;
  attachmentErrorBehavior : Z;
  __recipientSeparator : string;
  (* collaborators *)
  newRecipient : string -> Recipient;
  newUnsupportedAttachment : string -> exn + AttachmentData;
  newBrokenAttachment : string -> exn + AttachmentData;
  parsestr : string -> Header;
  parsedate : option string -> option time_tuple;
  prepareFilename : string -> string;
  inputToString : string -> string -> string;
  decompress : bytes -> exn + bytes;
  RTFDE_DeEncapsulator : bytes -> exn + DeEncapsulator;
  RTFDE_deencapsulate : DeEncapsulator -> exn + DeEncapsulator
}.

(** The instance attributes the module assigns.  A slot is [None] while
    the attribute does not exist (reading it raises [AttributeError]).
    Attributes holding [str]/[None] and [bytes]/[None] are kept by name,
    as [getattr], [setattr] and [_ensureSet] address them. *)
Record MessageBase : Type := {
  str_attrs : string -> option (option string);
  bytes_attrs : string -> option (option bytes);
  _attachments : option (list Attachment);
  _recipients : option (list Recipient);
  _header : option Header;
  _headerDict : option Header;
  _deencapsultor : option (option DeEncapsulator);
  __attachmentsReady : bool;
  __waitingProperties : option (list NamedProp);
  __crlf : option string;
  (* MSGFile's side: the message's own named-property table, the calls
     of [data.close()] that completed (by attachment directory, in call
     order), and whether [super().close()] ran. *)
  named_table : list NamedProp;
  close_log : list string;
  closed : bool
}.

(** The object right after [super().__init__] and the three assignments
    of lines 55-57. *)
Definition fresh : MessageBase := {|
  str_attrs := fun _ => None;
  bytes_attrs := fun _ => None;
  _attachments := None;
  _recipients := None;
  _header := None;
  _headerDict := None;
  _deencapsultor := None;
  __attachmentsReady := false;
  __waitingProperties := None;
  __crlf := None;
  named_table := [];
  close_log := [];
  closed := false
|}.

Definition upd {A : Type} (f : string -> option A) (k : string) (v : A) :
  string -> option A :=
  fun k' => if String.eqb k' k then Some v else f k'.

Definition with_str (name : string) (v : option string) (m : MessageBase) :=
  {| str_attrs := upd (str_attrs m) name v; bytes_attrs := bytes_attrs m;
     _attachments := _attachments m; _recipients := _recipients m;
     _header := _header m; _headerDict := _headerDict m;
     _deencapsultor := _deencapsultor m;
     __attachmentsReady := __attachmentsReady m;
     __waitingProperties := __waitingProperties m; __crlf := __crlf m;
     named_table := named_table m; close_log := close_log m;
     closed := closed m |}.

Definition with_bytes (name : string) (v : option bytes) (m : MessageBase) :=
  {| str_attrs := str_attrs m; bytes_attrs := upd (bytes_attrs m) name v;
     _attachments := _attachments m; _recipients := _recipients m;
     _header := _header m; _headerDict := _headerDict m;
     _deencapsultor := _deencapsultor m;
     __attachmentsReady := __attachmentsReady m;
     __waitingProperties := __waitingProperties m; __crlf := __crlf m;
     named_table := named_table m; close_log := close_log m;
     closed := closed m |}.

Definition with_attachments (v : list Attachment) (m : MessageBase) :=
  {| str_attrs := str_attrs m; bytes_attrs := bytes_attrs m;
     _attachments := Some v; _recipients := _recipients m;
     _header := _header m; _headerDict := _headerDict m;
     _deencapsultor := _deencapsultor m;
     __attachmentsReady := __attachmentsReady m;
     __waitingProperties := __waitingProperties m; __crlf := __crlf m;
     named_table := named_table m; close_log := close_log m;
     closed := closed m |}.

Definition with_recipients (v : list Recipient) (m : MessageBase) :=
  {| str_attrs := str_attrs m; bytes_attrs := bytes_attrs m;
     _attachments := _attachments m; _recipients := Some v;
     _header := _header m; _headerDict := _headerDict m;
     _deencapsultor := _deencapsultor m;
     __attachmentsReady := __attachmentsReady m;
     __waitingProperties := __waitingProperties m; __crlf := __crlf m;
     named_table := named_table m; close_log := close_log m;
     closed := closed m |}.

Definition with_header (v : Header) (m : MessageBase) :=
  {| str_attrs := str_attrs m; bytes_attrs := bytes_attrs m;
     _attachments := _attachments m; _recipients := _recipients m;
     _header := Some v; _headerDict := _headerDict m;
     _deencapsultor := _deencapsultor m;
     __attachmentsReady := __attachmentsReady m;
     __waitingProperties := __waitingProperties m; __crlf := __crlf m;
     named_table := named_table m; close_log := close_log m;
     closed := closed m |}.

Definition with_headerDict (v : Header) (m : MessageBase) :=
  {| str_attrs := str_attrs m; bytes_attrs := bytes_attrs m;
     _attachments := _attachments m; _recipients := _recipients m;
     _header := _header m; _headerDict := Some v;
     _deencapsultor := _deencapsultor m;
     __attachmentsReady := __attachmentsReady m;
     __waitingProperties := __waitingProperties m; __crlf := __crlf m;
     named_table := named_table m; close_log := close_log m;
     closed := closed m |}.

Definition with_deencapsultor (v : option DeEncapsulator) (m : MessageBase) :=
  {| str_attrs := str_attrs m; bytes_attrs := bytes_attrs m;
     _attachments := _attachments m; _recipients := _recipients m;
     _header := _header m; _headerDict := _headerDict m;
     _deencapsultor := Some v;
     __attachmentsReady := __attachmentsReady m;
     __waitingProperties := __waitingProperties m; __crlf := __crlf m;
     named_table := named_table m; close_log := close_log m;
     closed := closed m |}.

Definition with_attachmentsReady (v : bool) (m : MessageBase) :=
  {| str_attrs := str_attrs m; bytes_attrs := bytes_attrs m;
     _attachments := _attachments m; _recipients := _recipients m;
     _header := _header m; _headerDict := _headerDict m;
     _deencapsultor := _deencapsultor m;
     __attachmentsReady := v;
     __waitingProperties := __waitingProperties m; __crlf := __crlf m;
     named_table := named_table m; close_log := close_log m;
     closed := closed m |}.

Definition with_waitingProperties (v : list NamedProp) (m : MessageBase) :=
  {| str_attrs := str_attrs m; bytes_attrs := bytes_attrs m;
     _attachments := _attachments m; _recipients := _recipients m;
     _header := _header m; _headerDict := _headerDict m;
     _deencapsultor := _deencapsultor m;
     __attachmentsReady := __attachmentsReady m;
     __waitingProperties := Some v; __crlf := __crlf m;
     named_table := named_table m; close_log := close_log m;
     closed := closed m |}.

Definition with_crlf (v : string) (m : MessageBase) :=
  {| str_attrs := str_attrs m; bytes_attrs := bytes_attrs m;
     _attachments := _attachments m; _recipients := _recipients m;
     _header := _header m; _headerDict := _headerDict m;
     _deencapsultor := _deencapsultor m;
     __attachmentsReady := __attachmentsReady m;
     __waitingProperties := __waitingProperties m; __crlf := Some v;
     named_table := named_table m; close_log := close_log m;
     closed := closed m |}.

Definition with_named_table (v : list NamedProp) (m : MessageBase) :=
  {| str_attrs := str_attrs m; bytes_attrs := bytes_attrs m;
     _attachments := _attachments m; _recipients := _recipients m;
     _header := _header m; _headerDict := _headerDict m;
     _deencapsultor := _deencapsultor m;
     __attachmentsReady := __attachmentsReady m;
     __waitingProperties := __waitingProperties m; __crlf := __crlf m;
     named_table := v; close_log := close_log m;
     closed := closed m |}.

Definition with_close_log (v : list string) (m : MessageBase) :=
  {| str_attrs := str_attrs m; bytes_attrs := bytes_attrs m;
     _attachments := _attachments m; _recipients := _recipients m;
     _header := _header m; _headerDict := _headerDict m;
     _deencapsultor := _deencapsultor m;
     __attachmentsReady := __attachmentsReady m;
     __waitingProperties := __waitingProperties m; __crlf := __crlf m;
     named_table := named_table m; close_log := v;
     closed := closed m |}.

Definition with_closed (v : bool) (m : MessageBase) :=
  {| str_attrs := str_attrs m; bytes_attrs := bytes_attrs m;
     _attachments := _attachments m; _recipients := _recipients m;
     _header := _header m; _headerDict := _headerDict m;
     _deencapsultor := _deencapsultor m;
     __attachmentsReady := __attachmentsReady m;
     __waitingProperties := __waitingProperties m; __crlf := __crlf m;
     named_table := named_table m; close_log := close_log m;
     closed := v |}.

(** ** The state-and-exception monad *)

(** A method runs on the object, returns an outcome and leaves the
    object as it is at that point: what was assigned before a [raise]
    stays assigned. *)
Definition M (A : Type) : Type := MessageBase -> outcome A * MessageBase.

Definition ret {A : Type} (a : A) : M A := fun self => (Return a, self).

Definition raise {A : Type} (e : exn) : M A := fun self => (Raise e, self).

Definition out_of_fuel {A : Type} : M A := fun self => (OutOfFuel, self).

Definition bind {A B : Type} (m : M A) (k : A -> M B) : M B :=
  fun self =>
    match m self with
    | (Return a, self') => k a self'
    | (Raise e, self') => (Raise e, self')
    | (OutOfFuel, self') => (OutOfFuel, self')
    end.

Declare Scope py_scope.
Delimit Scope py_scope with py.
Notation "x <- m ;; k" := (bind m (fun x => k))
  (at level 61, m at next level, right associativity) : py_scope.
Notation "m ;; k" := (bind m (fun _ => k))
  (at level 61, right associativity) : py_scope.
Local Open Scope py_scope.

Definition modify (f : MessageBase -> MessageBase) : M unit :=
  fun self => (Return tt, f self).

Definition lift {A : Type} (r : exn + A) : M A :=
  match r with inl e => raise e | inr a => ret a end.

Definition lift_outcome {A : Type} (r : outcome A) : M A :=
  fun self => (r, self).

(** [self.attr]: [AttributeError] while the attribute does not exist. *)
Definition getattr {A : Type} (attr : MessageBase -> option A) : M A :=
  fun self =>
    match attr self with
    | Some v => (Return v, self)
    | None => (Raise AttributeError, self)
    end.

(** [try: return self.attr  except AttributeError: handler] *)
Definition try_return {A : Type} (attr : MessageBase -> option A)
    (handler : M A) : M A :=
  fun self =>
    match attr self with
    | Some v => (Return v, self)
    | None => handler self
    end.

(** [try: body  except <catches>: handler] *)
Definition try_except {A : Type} (body : M A) (catches : exn -> bool)
    (handler : exn -> M A) : M A :=
  fun self =>
    match body self with
    | (Raise e, self') =>
        if catches e then handler e self' else (Raise e, self')
    | r => r
    end.

(** [for x in items: body(x)] *)
Fixpoint for_each {A : Type} (items : list A) (body : A -> M unit) : M unit :=
  match items with
  | [] => ret tt
  | x :: rest => body x ;; for_each rest body
  end.

(** Truthiness of [str]/[None] and [bytes]/[None] values. *)
Definition truthy_str (v : option string) : bool :=
  match v with Some s => PyStr.nonempty s | None => false end.

Definition truthy_bytes (v : option bytes) : bool :=
  match v with Some (_ :: _) => true | _ => false end.

Definition is_AttributeError (e : exn) : bool :=
  match e with AttributeError => true | _ => false end.

(** [except (NotImplementedError, UnrecognizedMSGTypeError)] *)
Definition is_unsupported_error (e : exn) : bool :=
  match e with
  | NotImplementedError | UnrecognizedMSGTypeError => true
  | _ => false
  end.

Definition any_exception (e : exn) : bool := true.

(** The module logger.  [logging.Logger] has [debug], [info], [error]
    and [exception]; it has no attribute [into], so the call on line
    385 raises [AttributeError]. *)
Definition logger_debug (msg : string) : M unit := ret tt.
Definition logger_info (msg : string) : M unit := ret tt.
Definition logger_error (msg : string) : M unit := ret tt.
Definition logger_exception (e : exn) : M unit := ret tt.
Definition logger_into (msg : string) : M unit := raise AttributeError.

(** ** [email.message.Message] *)

(** [header[name]]: the value of the first field of that name, compared
    without case; [None] when there is none. *)
Definition header_getitem (h : Header) (name : string) : option string :=
  match List.find
          (fun kv => String.eqb (PyStr.lower (fst kv)) (PyStr.lower name)) h
  with
  | Some (_, v) => v
  | None => None
  end.

(** [header[name] = val] appends a field. *)
Definition header_setitem (h : Header) (name : string) (val : option string)
  : Header :=
  (h ++ [(name, val)])%list.

(** [header.add_header(name, value)]: a [None] value gives an empty
    field. *)
Definition add_header (h : Header) (name : string) (value : option string)
  : Header :=
  (h ++ [(name, Some (match value with Some v => v | None => "" end))])%list.

(** [dict(pairs)] and [d.pop(key)] on insertion-ordered dictionaries. *)
Fixpoint dict_set (d : Header) (k : string) (v : option string) : Header :=
  match d with
  | [] => [(k, v)]
  | (k', v') :: rest =>
      if String.eqb k' k then (k', v) :: rest
      else (k', v') :: dict_set rest k v
  end.

Definition dict (pairs : Header) : Header :=
  fold_left (fun d kv => dict_set d (fst kv) (snd kv)) pairs [].

Definition dict_pop (d : Header) (k : string) : exn + Header :=
  if existsb (fun kv => String.eqb (fst kv) k) d
  then inr (filter (fun kv => negb (String.eqb (fst kv) k)) d)
  else inl KeyError.

(** ** Formatting *)

Definition decimal (n : Z) : string :=
  NilZero.string_of_uint (N.to_uint (Z.to_N n)).

(** The format specification [02d]: sign-aware zero padding to width 2. *)
Definition format_02d (n : Z) : string :=
  if n <? 0 then "-" ++ decimal (- n)
  else
    let d := decimal n in
    if (String.length d <? 2)%nat then "0" ++ d else d.

(** The format string of line 314, [{0:02d}-{1:02d}-{2:02d}_{3:02d}{4:02d}],
    applied to the unpacked tuple [d]. *)
Definition format_dirName (d : time_tuple) : string :=
  format_02d (tm_year d) ++ "-" ++ format_02d (tm_mon d) ++ "-" ++
  format_02d (tm_mday d) ++ "_" ++ format_02d (tm_hour d) ++
  format_02d (tm_min d).

(** [bytes.replace] called with two [str] arguments raises [TypeError]
    (a bytes-like object is required, not 'str'). *)
Definition bytes_replace_with_str (b : bytes) (old new : string) : M bytes :=
  raise TypeError.

(** The f-string of line 383, around [correctedBody]. *)
Definition html_skeleton (correctedBody : bytes) : bytes :=
  (list_byte_of_string "<html><body>" ++ correctedBody ++
   list_byte_of_string "</body></head>")%list.

(** Directory scan shared by [recipients] and [attachments]:
    [dir_[prefixLen]] of every listed path that starts with [marker],
    without repetitions, in listing order.  A path with no component at
    [prefixLen] raises [IndexError]. *)
Fixpoint scan_dirs (marker : string) (n : nat) (listing : list (list string))
    (found : list string) : outcome (list string) :=
  match listing with
  | [] => Return found
  | dir_ :: rest =>
      match nth_error dir_ n with
      | None => Raise IndexError
      | Some name =>
          if PyStr.startswith name marker
             && negb (existsb (String.eqb name) found)
          then scan_dirs marker n rest (found ++ [name])
          else scan_dirs marker n rest found
      end
  end.

(** [attachment._registerNamedProperty(entry, _type, name)] *)
Definition register_on (prop : NamedProp) (a : Attachment) : Attachment :=
  {| a_class := a_class a; a_dir := a_dir a; a_data := a_data a;
     a_named := (a_named a ++ [prop])%list |}.

Definition register_all (props : list NamedProp) (a : Attachment)
  : Attachment :=
  fold_left (fun a' prop => register_on prop a') props a.

Definition new_attachment (cls : AttachmentClass) (dir_ : string)
    (data : AttachmentData) : Attachment :=
  {| a_class := cls; a_dir := dir_; a_data := data; a_named := [] |}.

(** ** The methods and properties of [MessageBase] *)

Section Methods.

Variable E : Env.

(** [attachmentsDelayed], [attachmentsReady], [recipientSeparator] *)
Definition attachmentsDelayed : M bool := ret (__attachmentsDelayed E).

Definition attachmentsReady : M bool :=
  fun self => (Return (__attachmentsReady self), self).

Definition recipientSeparator : M string := ret (__recipientSeparator E).

(** [headerInit] (lines 139-147) *)
Definition headerInit : M bool :=
  fun self =>
    match _header self with
    | Some _ => (Return true, self)
    | None => (Return false, self)
    end.

(** Modelled from the spec: [MSGFile._ensureSet], which is not part of
    the sources at hand.  Section 6 describes a fetch-once accessor and
    section 4.1 the cache it follows: the first call reads the stream,
    stores the result (an absent stream included) under the attribute
    and returns it; later calls return what is stored.  The third
    argument selects [_getStringStream] or [_getStream]. *)
Definition _ensureSet_str (variable streamID : string) : M (option string) :=
  try_return (fun self => str_attrs self variable)
    (let value := getStringStream E streamID in
     modify (with_str variable value) ;;
     ret value).

Definition _ensureSet_bytes (variable streamID : string) : M (option bytes) :=
  try_return (fun self => bytes_attrs self variable)
    (let value := getStream E streamID in
     modify (with_bytes variable value) ;;
     ret value).

(** [date] (lines 270-279) *)
Definition date : M (option string) :=
  try_return (fun self => str_attrs self "_date")
    (modify (with_str "_date" (prop_date E)) ;;
     getattr (fun self => str_attrs self "_date")).

(** [recipients] (lines 455-476).  [self.listDir()] is called with the
    defaults of [MSGFile.listDir]. *)
Definition recipients : M (list Recipient) :=
  try_return _recipients
    (recipientDirs <-
       lift_outcome (scan_dirs "__recip" (prefixLen E) (listDir E true false) []) ;;
     modify (with_recipients []) ;;
     for_each recipientDirs
       (fun recipientDir =>
          l <- getattr _recipients ;;
          modify (with_recipients (l ++ [newRecipient E recipientDir])%list)) ;;
     getattr _recipients).

(** One turn of the loop of lines 174-190.  The placeholder
    constructors of lines 181 and 188 run inside the [except] clauses:
    what they raise is caught by no clause and leaves the loop. *)
Definition append_attachment (a : Attachment) : M unit :=
  l <- getattr _attachments ;;
  modify (with_attachments (l ++ [a])%list).

Definition build_attachment (attachmentDir : string) : M unit :=
  match attachmentClass E attachmentDir with
  | inr data =>
      append_attachment (new_attachment ClsAttachment attachmentDir data)
  | inl e =>
      if is_unsupported_error e then
        if ATTACHMENT_ERROR_THROW <? attachmentErrorBehavior E then
          logger_error "Error processing attachment" ;;
          logger_exception e ;;
          data <- lift (newUnsupportedAttachment E attachmentDir) ;;
          append_attachment
            (new_attachment ClsUnsupportedAttachment attachmentDir data)
        else raise e
      else
        if attachmentErrorBehavior E =? ATTACHMENT_ERROR_BROKEN then
          logger_error "Error processing attachment" ;;
          logger_exception e ;;
          data <- lift (newBrokenAttachment E attachmentDir) ;;
          append_attachment
            (new_attachment ClsBrokenAttachment attachmentDir data)
        else raise e
  end.

(** Lines 193-200: the replay of the queued registrations, inside a
    bare [try/except: pass]. *)
Definition replay_waiting : M unit :=
  try_except
    (props <- getattr __waitingProperties ;;
     if __attachmentsDelayed E then
       l <- getattr _attachments ;;
       modify (with_attachments (map (register_all props) l))
     else ret tt)
    any_exception
    (fun _ => ret tt).

(** [attachments] (lines 156-202) *)
Definition attachments : M (list Attachment) :=
  try_return _attachments
    (attachmentDirs <-
       lift_outcome
         (scan_dirs "__attach" (prefixLen E) (listDir E false true) []) ;;
     modify (with_attachments []) ;;
     for_each attachmentDirs build_attachment ;;
     modify (with_attachmentsReady true) ;;
     replay_waiting ;;
     getattr _attachments).

(** [_genRecipient] (lines 74-113).  Where the source reads
    [self.header] it has just seen [headerInit()] return [True], so the
    property returns [self._header].  The [while] loop gets as many
    passes as the value has characters. *)
Definition _genRecipient (recipientType : string) (recipientInt : Z)
  : M (option string) :=
  let private := "_" ++ recipientType in
  try_return (fun self => str_attrs self private)
    (init <- headerInit ;;
     value <-
       (if init then
          h <- getattr _header ;;
          let value := header_getitem h recipientType in
          if truthy_str value then
            ret (option_map
                   (fun v => PyStr.replace v "," (__recipientSeparator E))
                   value)
          else ret value
        else ret None) ;;
     value <-
       (if negb (truthy_str value) then
          init <- headerInit ;;
          (if init then logger_info "Header found, but field is not included."
           else ret tt) ;;
          rs <- recipients ;;
          let foundRecipients :=
            map r_formatted
              (filter (fun recipient =>
                         Z.land (r_type recipient) 15 =? recipientInt) rs) in
          if (0 <? length foundRecipients)%nat then
            ret (Some (PyStr.join (__recipientSeparator E ++ " ")
                         foundRecipients))
          else ret value
        else ret value) ;;
     value <-
       (match value with
        | Some v =>
            if PyStr.nonempty v then
              let v := unfold_lines v in
              match collapse_spaces (String.length v) v with
              | Some v' => ret (Some v')
              | None => out_of_fuel
              end
            else ret value
        | None => ret value
        end) ;;
     modify (with_str private value) ;;
     ret value).

(** [to], [cc], [bcc] *)
Definition to : M (option string) := _genRecipient "to" 1.
Definition cc : M (option string) := _genRecipient "cc" 2.
Definition bcc : M (option string) := _genRecipient "bcc" 3.

(** [messageId] (lines 431-445) *)
Definition messageId : M (option string) :=
  try_return (fun self => str_attrs self "_messageId")
    (init <- headerInit ;;
     headerResult <-
       (if init then
          h <- getattr _header ;;
          ret (header_getitem h "message-id")
        else ret None) ;;
     match headerResult with
     | Some _ => modify (with_str "_messageId" headerResult)
     | None =>
         init <- headerInit ;;
         (if init then logger_info "Header found, but Message-Id is not included."
          else ret tt) ;;
         modify (with_str "_messageId" (getStringStream E "__substg1.0_1035"))
     end ;;
     getattr (fun self => str_attrs self "_messageId")).

(** [sender] (lines 489-517).  [returned] carries the early [return]
    of line 502. *)
Definition sender : M (option string) :=
  try_return (fun self => str_attrs self "_sender")
    (init <- headerInit ;;
     returned <-
       (if init then
          h <- getattr _header ;;
          let headerResult := header_getitem h "from" in
          match headerResult with
          | Some _ =>
              modify (with_str "_sender" headerResult) ;;
              ret (Some headerResult)
          | None =>
              logger_info "Header found, but sender is not included." ;;
              ret None
          end
        else ret None) ;;
     match returned with
     | Some headerResult => ret headerResult
     | None =>
         let text := getStringStream E "__substg1.0_0C1A" in
         let email := getStringStream E "__substg1.0_5D01" in
         let result :=
           match text with
           | None => email
           | Some t =>
               match email with
               | Some e => Some (t ++ " <" ++ e ++ ">")
               | None => Some t
               end
           end in
         modify (with_str "_sender" result) ;;
         ret result
     end).

(** [header] (lines 320-345) *)
Definition header : M Header :=
  try_return _header
    (let headerText := getStringStream E "__substg1.0_007D" in
     match headerText with
     | Some (String c t) =>
         modify (with_header (parsestr E (String c t))) ;;
         d <- date ;;
         h <- getattr _header ;;
         modify (with_header (header_setitem h "date" d))
     | _ =>
         logger_info "Header is empty or was not found." ;;
         let header := parsestr E "" in
         v <- date ;;
         let header := add_header header "Date" v in
         v <- sender ;;
         let header := add_header header "From" v in
         v <- to ;;
         let header := add_header header "To" v in
         v <- cc ;;
         let header := add_header header "Cc" v in
         v <- bcc ;;
         let header := add_header header "Bcc" v in
         v <- messageId ;;
         let header := add_header header "Message-Id" v in
         let header := add_header header "Authentication-Results" None in
         modify (with_header header)
     end ;;
     getattr _header).

(** [headerDict] (lines 347-360) *)
Definition headerDict : M Header :=
  try_return _headerDict
    (h <- header ;;
     modify (with_headerDict (dict h)) ;;
     d <- getattr _headerDict ;;
     match dict_pop d "Received" with
     | inr d' => modify (with_headerDict d')
     | inl _ => ret tt
     end ;;
     getattr _headerDict).

(** [compressedRtf], [inReplyTo], [subject] *)
Definition compressedRtf : M (option bytes) :=
  _ensureSet_bytes "_compressedRtf" "__substg1.0_10090102".

Definition inReplyTo : M (option string) :=
  _ensureSet_str "_in_reply_to" "__substg1.0_1042".

Definition subject : M (option string) :=
  _ensureSet_str "_subject" "__substg1.0_0037".

(** [rtfBody] (lines 478-487).  The condition reads [compressedRtf],
    then the argument reads it again. *)
Definition rtfBody : M (option bytes) :=
  try_return (fun self => bytes_attrs self "_rtfBody")
    (c <- compressedRtf ;;
     (if truthy_bytes c then
        c' <- compressedRtf ;;
        match c' with
        | Some raw =>
            r <- lift (decompress E raw) ;;
            modify (with_bytes "_rtfBody" (Some r))
        | None => raise TypeError
        end
      else modify (with_bytes "_rtfBody" None)) ;;
     getattr (fun self => bytes_attrs self "_rtfBody")).

(** [deencapsulatedRtf] (lines 281-302) *)
Definition deencapsulatedRtf : M (option DeEncapsulator) :=
  try_return _deencapsultor
    (r <- rtfBody ;;
     (if truthy_bytes r then
        try_except
          (r' <- rtfBody ;;
           match r' with
           | Some rtf =>
               d <- lift (RTFDE_DeEncapsulator E rtf) ;;
               modify (with_deencapsultor (Some d)) ;;
               d' <- lift (RTFDE_deencapsulate E d) ;;
               modify (with_deencapsultor (Some d'))
           | None => raise TypeError
           end)
          (fun e => match e with
                    | NotEncapsulatedRtf | MalformedEncapsulatedRtf => true
                    | _ => false
                    end)
          (fun e =>
             match e with
             | NotEncapsulatedRtf =>
                 logger_debug "RTF body is not encapsulated." ;;
                 modify (with_deencapsultor None)
             | _ =>
                 logger_info "RTF body contains malformed encapsulated content." ;;
                 modify (with_deencapsultor None)
             end)
      else modify (with_deencapsultor None)) ;;
     getattr _deencapsultor).

(** [self.deencapsulatedRtf and self.deencapsulatedRtf.content_type == t]:
    the second read happens only when the first is not [None]. *)
Definition deencapsulated_as (t : string) : M bool :=
  d <- deencapsulatedRtf ;;
  match d with
  | Some _ =>
      d' <- deencapsulatedRtf ;;
      match d' with
      | Some x => ret (String.eqb (content_type x) t)
      | None => raise AttributeError
      end
  | None => ret false
  end.

(** [body] (lines 225-245) *)
Definition body : M (option string) :=
  try_return (fun self => str_attrs self "_body")
    (modify (with_str "_body" (getStringStream E "__substg1.0_1000")) ;;
     b <- getattr (fun self => str_attrs self "_body") ;;
     (if truthy_str b then
        match b with
        | Some raw =>
            modify (with_str "_body" (Some (inputToString E raw "utf-8"))) ;;
            b' <- getattr (fun self => str_attrs self "_body") ;;
            match b' with
            | Some s =>
                if negb (PyStr.find s LF =? -1) then
                  if negb (PyStr.find s CRLF =? -1)
                  then modify (with_crlf CRLF)
                  else ret tt
                else ret tt
            | None => raise TypeError
            end
        | None => ret tt
        end
      else
        is_text <- deencapsulated_as "text" ;;
        if is_text then
          d <- deencapsulatedRtf ;;
          match d with
          | Some x => modify (with_str "_body" (Some (text x)))
          | None => raise AttributeError
          end
        else ret tt) ;;
     getattr (fun self => str_attrs self "_body")).

(** [crlf] (lines 261-268) *)
Definition crlf : M string := body ;; getattr __crlf.

(** [htmlBody] (lines 362-387) *)
Definition htmlBody : M (option bytes) :=
  try_return (fun self => bytes_attrs self "_htmlBody")
    (h <- _ensureSet_bytes "_htmlBody" "__substg1.0_10130102" ;;
     (if truthy_bytes h then ret tt
      else
        r <- rtfBody ;;
        if truthy_bytes r then
          logger_info "HTML body was not found, attempting to generate from RTF." ;;
          is_html <- deencapsulated_as "html" ;;
          if is_html then
            d <- deencapsulatedRtf ;;
            match d with
            | Some x =>
                modify (with_bytes "_htmlBody" (Some (encode_utf8 (html x))))
            | None => raise AttributeError
            end
          else logger_info "Could not deencapsulate HTML from RTF body."
        else
          b <- body ;;
          if truthy_str b then
            logger_info "HTML body was not found, attempting to generate from plain text body." ;;
            b' <- body ;;
            match b' with
            | Some s =>
                correctedBody <- bytes_replace_with_str (encode_utf8 s) CR "" ;;
                correctedBody <- bytes_replace_with_str correctedBody LF "</br>" ;;
                modify (with_bytes "_htmlBody" (Some (html_skeleton correctedBody)))
            | None => raise AttributeError
            end
          else logger_into "HTML body could not be found nor generated.") ;;
     getattr (fun self => bytes_attrs self "_htmlBody")).

(** [isRead] (lines 424-429): [mainProperties] is a mapping, and
    indexing it with a key it does not hold raises [KeyError]. *)
Definition isRead : M bool :=
  match mainProperties E "0E070003" with
  | Some value => ret (negb (Z.land value 1 =? 0))
  | None => raise KeyError
  end.

(** [parsedDate] (lines 447-449) *)
Definition parsedDate : M (option time_tuple) :=
  d <- date ;; ret (parsedate E d).

(** [defaultFolderName] (lines 304-318).  The stored name is always a
    [str]. *)
Definition defaultFolderName : M (option string) :=
  try_return (fun self => str_attrs self "_defaultFolderName")
    (d <- parsedDate ;;
     let dirName :=
       match d with
       | Some t => format_dirName t
       | None => "UnknownDate"
       end in
     s <- subject ;;
     tail <-
       (if truthy_str s then
          s' <- subject ;;
          match s' with
          | Some subj => ret (prepareFilename E subj)
          | None => raise TypeError
          end
        else ret "[No subject]") ;;
     let dirName := dirName ++ " " ++ tail in
     modify (with_str "_defaultFolderName" (Some dirName)) ;;
     ret (Some dirName)).

(** Modelled from the spec: [MSGFile._registerNamedProperty] and
    [MSGFile.close], which are not part of the sources at hand.  Section
    4.9: the call always applies to the message's own named-property
    table; section 5: closing releases the container. *)
Definition super_registerNamedProperty (prop : NamedProp) : M unit :=
  fun self =>
    (Return tt, with_named_table (named_table self ++ [prop])%list self).

Definition super_close : M unit := modify (with_closed true).

(** [_registerNamedProperty] (lines 115-126) *)
Definition _registerNamedProperty (entry _type : string) (name : option string)
  : M unit :=
  delayed <- attachmentsDelayed ;;
  pending <-
    (if delayed then ready <- attachmentsReady ;; ret (negb ready)
     else ret false) ;;
  (if pending then
     try_except
       (getattr __waitingProperties ;; ret tt)
       is_AttributeError
       (fun _ => modify (with_waitingProperties [])) ;;
     q <- getattr __waitingProperties ;;
     modify (with_waitingProperties (q ++ [(entry, _type, name)])%list)
   else
     l <- attachments ;;
     modify (with_attachments (map (register_on (entry, _type, name)) l))) ;;
  super_registerNamedProperty (entry, _type, name).

(** [attachment.data.close()] *)
Definition data_close (attachment : Attachment) : M unit :=
  match att_close (a_data attachment) with
  | None =>
      fun self =>
        (Return tt,
         with_close_log (close_log self ++ [a_dir attachment])%list self)
  | Some e => raise e
  end.

(** The body of the loop of lines 132-134. *)
Definition close_one (attachment : Attachment) : M unit :=
  match att_type (a_data attachment) with
  | Some t => if String.eqb t "msg" then data_close attachment else ret tt
  | None => raise AttributeError
  end.

(** [close] (lines 128-137) *)
Definition close : M unit :=
  try_except
    (getattr _attachments ;;
     l <- attachments ;;
     for_each l close_one)
    is_AttributeError
    (fun _ => ret tt) ;;
  super_close.

(** Outside the model: [__init__], which reads properties of [MSGFile]
    that are not part of the sources at hand; [saveAttachments], which
    only calls [attachment.save]; and [htmlBodyPrepared], which works
    on the tree of the HTML parser. *)

End Methods.

(** ** Reference definitions for the statements *)

(** The value lines 105-108 leave: the result of [unfold_lines] once the
    space-collapsing loop has run to its exit. *)
Definition single_line (value : string) : string :=
  let v := unfold_lines value in
  match collapse_spaces (String.length v) v with
  | Some v' => v'
  | None => v
  end.

(** The white space of an address as the claim words it.  A blank is a
    space, a CR or an LF; a TAB that directly follows CR LF continues
    the line and counts as a blank too.  Every run of blanks comes out
    as one space, and nothing else changes. *)
Definition is_blank (c : ascii) : bool :=
  Ascii.eqb c " " || Ascii.eqb c "013" || Ascii.eqb c "010".

Fixpoint fold_continuations (s : string) : string :=
  match s with
  | EmptyString => EmptyString
  | String a rest =>
      match rest with
      | String b (String c rest') =>
          if Ascii.eqb a "013" && Ascii.eqb b "010" && Ascii.eqb c "009"
          then String " " (fold_continuations rest')
          else String a (fold_continuations rest)
      | _ => String a (fold_continuations rest)
      end
  end.

Fixpoint squeeze_blanks (s : string) : string :=
  match s with
  | EmptyString => EmptyString
  | String c rest =>
      if is_blank c then
        match rest with
        | String d _ =>
            if is_blank d then squeeze_blanks rest
            else String " " (squeeze_blanks rest)
        | EmptyString => " "
        end
      else String c (squeeze_blanks rest)
  end.

Definition one_line_as_claimed (value : string) : string :=
  squeeze_blanks (fold_continuations value).

(** Whether a string starts with a blank, or with a space; whether it
    is made of blanks. *)
Definition head_blank (s : string) : bool :=
  match s with String d _ => is_blank d | EmptyString => false end.

Definition head_space (s : string) : bool :=
  match s with String d _ => Ascii.eqb d " " | EmptyString => false end.

Fixpoint all_blank (s : string) : bool :=
  match s with
  | EmptyString => true
  | String c rest => is_blank c && all_blank rest
  end.

(** The recipients of one role, formatted (line 96). *)
Definition foundRecipients_of (recipientInt : Z) (rs : list Recipient)
  : list string :=
  map r_formatted
    (filter (fun recipient => Z.land (r_type recipient) 15 =? recipientInt) rs).

(** The header field of a role as [_genRecipient] meets it: [None]
    while [_header] does not exist. *)
Definition header_field (self : MessageBase) (recipientType : string)
  : option string :=
  match _header self with
  | Some h => header_getitem h recipientType
  | None => None
  end.

(** The address the header gives for a role: the field with every comma
    replaced by the separator, when the header exists and both the
    field and the replaced value are not empty. *)
Definition header_address (E : Env) (recipientType : string)
    (self : MessageBase) : option string :=
  match header_field self recipientType with
  | Some (String c v) =>
      match PyStr.replace (String c v) "," (__recipientSeparator E) with
      | EmptyString => None
      | replaced => Some replaced
      end
  | _ => None
  end.

(** A computation that never exhausts an iteration budget. *)
Definition never_out_of_fuel {A : Type} (m : M A) : Prop :=
  forall self, fst (m self) <> OutOfFuel.

(** An object without the attribute [type], as the placeholder
    constructors of the worked examples return. *)
Definition placeholder_data : AttachmentData :=
  {| att_type := None; att_cid := None; att_close := None |}.

(** Environments for the worked examples: the container streams, the
    listing, the recipient and attachment constructors, the policy, the
    RTF deencapsulation, the date parser, the send date and the header
    parser vary. *)
Definition example_env
    (strings : string -> option string) (streams : string -> option bytes)
    (listing : list (list string))
    (recipientOf : string -> Recipient)
    (attachmentOf : string -> exn + AttachmentData)
    (delayed : bool) (behavior : Z)
    (deenc : DeEncapsulator -> exn + DeEncapsulator)
    (dates : option string -> option time_tuple)
    (sent : option string) (parse : string -> Header) : Env :=
  {| getStringStream := strings;
     getStream := streams;
     mainProperties := fun _ => None;
     prop_date := sent;
     listDir := fun _ _ => listing;
     prefixLen := 0;
     attachmentClass := attachmentOf;
     __attachmentsDelayed := delayed;
     attachmentErrorBehavior := behavior;
     __recipientSeparator := ";";
     newRecipient := recipientOf;
     newUnsupportedAttachment := fun _ => inr placeholder_data;
     newBrokenAttachment := fun _ => inr placeholder_data;
     parsestr := parse;
     parsedate := dates;
     prepareFilename := fun s => s;
     inputToString := fun s _ => s;
     decompress := fun b => inr b;
     RTFDE_DeEncapsulator :=
       fun _ => inr {| content_type := ""; html := ""; text := "" |};
     RTFDE_deencapsulate := deenc |}.

Definition no_strings : string -> option string := fun _ => None.
Definition no_streams : string -> option bytes := fun _ => None.
Definition no_attachment : string -> exn + AttachmentData :=
  fun _ => inl (OtherError "unused").
Definition no_deenc : DeEncapsulator -> exn + DeEncapsulator :=
  fun _ => inl NotEncapsulatedRtf.
Definition no_dates : option string -> option time_tuple := fun _ => None.
Definition no_header : string -> Header := fun _ => [].

(** The address [_genRecipient] settles on before it normalises the
    white space: the header field with its commas replaced when that
    is not empty, else the joined recipients of the role when there are
    any, else what the header lookup left ([None], or an empty field). *)
Definition address_source (E : Env) (recipientType : string)
    (recipientInt : Z) (self : MessageBase) (rs : list Recipient)
  : option string :=
  let sep := __recipientSeparator E in
  let fromHeader :=
    match header_field self recipientType with
    | Some v => if PyStr.nonempty v then Some (PyStr.replace v "," sep)
                else Some v
    | None => None
    end in
  if truthy_str fromHeader then fromHeader
  else
    match foundRecipients_of recipientInt rs with
    | [] => fromHeader
    | found => Some (PyStr.join (sep ++ " ") found)
    end.

(** The address as the claim words it: white space is normalised on the
    header path only, and nothing found means [None]. *)
Definition address_as_claimed (E : Env) (recipientType : string)
    (recipientInt : Z) (self : MessageBase) (rs : list Recipient)
  : option string :=
  let sep := __recipientSeparator E in
  match header_field self recipientType with
  | Some (String c v) =>
      Some (one_line_as_claimed (PyStr.replace (String c v) "," sep))
  | _ =>
      match foundRecipients_of recipientInt rs with
      | [] => None
      | found => Some (PyStr.join (sep ++ " ") found)
      end
  end.

(** Three messages for the examples: one without a header stream whose
    only recipient has two spaces in its display name; one that holds
    nothing at all; and one without recipients whose raw header holds
    an empty [To] field, taken after [header] has parsed it. *)
Definition env_bob : Env :=
  example_env no_strings no_streams [["__recip_version1.0_#00000000"]]
    (fun _ => {| r_type := 1; r_formatted := "Bob  Smith <bob@example.com>" |})
    no_attachment false ATTACHMENT_ERROR_THROW no_deenc no_dates None no_header.

Definition env_plain : Env :=
  example_env no_strings no_streams []
    (fun _ => {| r_type := 1; r_formatted := "" |})
    no_attachment false ATTACHMENT_ERROR_THROW no_deenc no_dates None no_header.

Definition env_empty_to : Env :=
  example_env
    (fun k => if String.eqb k "__substg1.0_007D" then Some "To: " else None)
    no_streams []
    (fun _ => {| r_type := 1; r_formatted := "" |})
    no_attachment false ATTACHMENT_ERROR_THROW no_deenc no_dates None
    (fun _ => [("To", Some "")]).

Definition self_empty_to : MessageBase := snd (header env_empty_to fresh).

(** The send date and the subject as [defaultFolderName] meets them:
    the cached attribute when there is one, else what the container
    holds. *)
Definition date_of (E : Env) (self : MessageBase) : option string :=
  match str_attrs self "_date" with
  | Some v => v
  | None => prop_date E
  end.

Definition subject_of (E : Env) (self : MessageBase) : option string :=
  match str_attrs self "_subject" with
  | Some v => v
  | None => getStringStream E "__substg1.0_0037"
  end.

(** The date part as the claim words it: month, day, two-digit year,
    hour and minute. *)
Definition date_as_claimed (d : time_tuple) : string :=
  format_02d (tm_mon d) ++ "-" ++ format_02d (tm_mday d) ++ "-" ++
  format_02d (tm_year d mod 100) ++ "_" ++ format_02d (tm_hour d) ++
  format_02d (tm_min d).

(** A message sent on 16 November 2009 at 13:32 with the subject "Hi". *)
Definition nov_16 : time_tuple :=
  {| tm_year := 2009; tm_mon := 11; tm_mday := 16;
     tm_hour := 13; tm_min := 32; tm_sec := 2;
     tm_wday := 0; tm_yday := 1; tm_isdst := -1 |}.

Definition env_dated : Env :=
  example_env
    (fun k => if String.eqb k "__substg1.0_0037" then Some "Hi" else None)
    no_streams [] (fun _ => {| r_type := 1; r_formatted := "" |})
    no_attachment false ATTACHMENT_ERROR_THROW no_deenc
    (fun d => match d with Some _ => Some nov_16 | None => None end)
    (Some "Mon, 16 Nov 2009 13:32:02 +0100") no_header.

(** ** Cached attributes, for the statements about caching *)

(** The attributes that cache a derived field, and the values they and
    the field accessors hold. *)
Inductive slot : Type :=
| SStr (name : string)
| SBytes (name : string)
| SAttachments
| SRecipients
| SHeader
| SHeaderDict
| SDeencapsultor
| SReady.

Inductive pyval : Type :=
| VStr (v : option string)
| VBytes (v : option bytes)
| VAttachments (l : list Attachment)
| VRecipients (l : list Recipient)
| VHeader (h : Header)
| VDeencapsulator (d : option DeEncapsulator)
| VBool (b : bool)
| VLineEnd (s : string)
| VTime (t : option time_tuple).

(** What a slot holds; [None] while the attribute does not exist (for
    [SReady]: while [__attachmentsReady] is [False]). *)
Definition read (k : slot) (self : MessageBase) : option pyval :=
  match k with
  | SStr name => option_map VStr (str_attrs self name)
  | SBytes name => option_map VBytes (bytes_attrs self name)
  | SAttachments => option_map VAttachments (_attachments self)
  | SRecipients => option_map VRecipients (_recipients self)
  | SHeader => option_map VHeader (_header self)
  | SHeaderDict => option_map VHeader (_headerDict self)
  | SDeencapsultor => option_map VDeencapsulator (_deencapsultor self)
  | SReady => if __attachmentsReady self then Some (VBool true) else None
  end.

(** [le P a b]: from [a] to [b] no slot outside [P] that held a value
    lost or changed it, and, when [_body] is not in [P] and was set in
    [a], the line ending recorded in [__crlf] is the same. *)
Definition le (P : slot -> Prop) (a b : MessageBase) : Prop :=
  (forall k, ~ P k -> forall v, read k a = Some v -> read k b = Some v)
  /\ (~ P (SStr "_body") -> str_attrs a "_body" <> None ->
      __crlf b = __crlf a).

Definition nowhere : slot -> Prop := fun _ => False.

(** A computation that only fills slots, apart from those in [P]. *)
Definition frame {A : Type} (P : slot -> Prop) (m : M A) : Prop :=
  forall self o s, m self = (o, s) -> le P self s.

(** A computation that leaves what it returns in the attribute [attr]. *)
Definition caches {A : Type} (attr : MessageBase -> option A) (m : M A)
  : Prop :=
  forall self v s, m self = (Return v, s) -> attr s = Some v.

(** The derived fields of a message. *)
Inductive field : Type :=
| F_attachments | F_bcc | F_body | F_cc | F_compressedRtf | F_crlf
| F_date | F_deencapsulatedRtf | F_defaultFolderName | F_header
| F_headerDict | F_htmlBody | F_inReplyTo | F_isRead | F_messageId
| F_parsedDate | F_recipients | F_rtfBody | F_sender | F_subject | F_to.

(** Reading a field. *)
Definition resolve (E : Env) (f : field) : M pyval :=
  match f with
  | F_attachments => v <- attachments E ;; ret (VAttachments v)
  | F_bcc => v <- bcc E ;; ret (VStr v)
  | F_body => v <- body E ;; ret (VStr v)
  | F_cc => v <- cc E ;; ret (VStr v)
  | F_compressedRtf => v <- compressedRtf E ;; ret (VBytes v)
  | F_crlf => v <- crlf E ;; ret (VLineEnd v)
  | F_date => v <- date E ;; ret (VStr v)
  | F_deencapsulatedRtf => v <- deencapsulatedRtf E ;; ret (VDeencapsulator v)
  | F_defaultFolderName => v <- defaultFolderName E ;; ret (VStr v)
  | F_header => v <- header E ;; ret (VHeader v)
  | F_headerDict => v <- headerDict E ;; ret (VHeader v)
  | F_htmlBody => v <- htmlBody E ;; ret (VBytes v)
  | F_inReplyTo => v <- inReplyTo E ;; ret (VStr v)
  | F_isRead => v <- isRead E ;; ret (VBool v)
  | F_messageId => v <- messageId E ;; ret (VStr v)
  | F_parsedDate => v <- parsedDate E ;; ret (VTime v)
  | F_recipients => v <- recipients E ;; ret (VRecipients v)
  | F_rtfBody => v <- rtfBody E ;; ret (VBytes v)
  | F_sender => v <- sender E ;; ret (VStr v)
  | F_subject => v <- subject E ;; ret (VStr v)
  | F_to => v <- to E ;; ret (VStr v)
  end.

(** The object after a sequence of field reads, whatever each of them
    returned or raised. *)
Fixpoint reads (E : Env) (fs : list field) (self : MessageBase)
  : MessageBase :=
  match fs with
  | [] => self
  | f :: rest => reads E rest (snd (resolve E f self))
  end.

(** A computation whose result, once returned, is returned again from
    every later state of the object, and leaves that state as it is. *)
Definition stable {A : Type} (m : M A) : Prop :=
  forall self v s s2,
    m self = (Return v, s) -> le nowhere s s2 -> m s2 = (Return v, s2).


(** A message with a plain-text body "hi" and an RTF body that
    deencapsulates to text, and no HTML stream. *)
Definition text_rtf : DeEncapsulator :=
  {| content_type := "text"; html := ""; text := "hi" |}.



(** A message with a plain-text body "hi" and nothing else. *)
Definition env_text_only : Env :=
  example_env
    (fun k => if String.eqb k "__substg1.0_1000" then Some "hi" else None)
    no_streams
    [] (fun _ => {| r_type := 1; r_formatted := "" |})
    no_attachment false ATTACHMENT_ERROR_THROW no_deenc no_dates None no_header.



(** What one enumerated directory comes to under the policy of the
    message: the element appended for it, or the exception that leaves
    the loop.  An unsupported type is tolerated by every policy above
    THROW, any other failure by BROKEN only; a tolerated failure gives
    the placeholder when its constructor returns. *)
Definition placeholder (cls : AttachmentClass) (dir_ : string)
    (r : exn + AttachmentData) : exn + Attachment :=
  match r with
  | inr data => inr (new_attachment cls dir_ data)
  | inl e => inl e
  end.

Definition turn (E : Env) (dir_ : string) : exn + Attachment :=
  match attachmentClass E dir_ with
  | inr data => inr (new_attachment ClsAttachment dir_ data)
  | inl e =>
      match e with
      | NotImplementedError | UnrecognizedMSGTypeError =>
          if ATTACHMENT_ERROR_THROW <? attachmentErrorBehavior E
          then placeholder ClsUnsupportedAttachment dir_
                 (newUnsupportedAttachment E dir_)
          else inl e
      | _ =>
          if attachmentErrorBehavior E =? ATTACHMENT_ERROR_BROKEN
          then placeholder ClsBrokenAttachment dir_
                 (newBrokenAttachment E dir_)
          else inl e
      end
  end.

Definition built (E : Env) (dir_ : string) : bool :=
  match turn E dir_ with inr _ => true | inl _ => false end.

Definition appended (E : Env) (dirs : list string) : list Attachment :=
  flat_map (fun dir_ => match turn E dir_ with
                        | inr a => [a]
                        | inl _ => []
                        end) dirs.

(** Attachments that have a [type], and those that own a nested
    message. *)
Definition has_type (a : Attachment) : Prop :=
  att_type (a_data a) <> None.

Definition is_msg (a : Attachment) : bool :=
  match att_type (a_data a) with
  | Some t => String.eqb t "msg"
  | None => false
  end.

Definition closes_cleanly (a : Attachment) : Prop :=
  is_msg a = true -> att_close (a_data a) = None.

(** A message with three attachment entries (one listed twice): the
    first builds, the second is of an unsupported type, the third fails
    unexpectedly. *)
Definition plain_data : AttachmentData :=
  {| att_type := Some "data"; att_cid := None; att_close := None |}.

Definition three_entries : list (list string) :=
  [["__attach_version1.0_#00000000"];
   ["__attach_version1.0_#00000001"];
   ["__attach_version1.0_#00000000"];
   ["__attach_version1.0_#00000002"];
   ["__substg1.0_0037001F"]].

Definition three_outcomes (dir_ : string) : exn + AttachmentData :=
  if String.eqb dir_ "__attach_version1.0_#00000000" then inr plain_data
  else if String.eqb dir_ "__attach_version1.0_#00000001"
       then inl NotImplementedError
       else inl (OtherError "ValueError").

Definition env_three (delayed : bool) (behavior : Z) : Env :=
  example_env no_strings no_streams three_entries
    (fun _ => {| r_type := 1; r_formatted := "" |})
    three_outcomes delayed behavior no_deenc no_dates None no_header.

(** The object of the deferred message after one registration, which
    found the attachments not ready and was queued. *)
Definition queued_prop : NamedProp := ("entry", "type", Some "name").

Definition self_queued : MessageBase :=
  snd (_registerNamedProperty (env_three true ATTACHMENT_ERROR_BROKEN)
         "entry" "type" (Some "name") fresh).

(** A message with two nested messages, taken after its attachments
    have been resolved; closing the first nested message raises. *)
Definition msg_failing : Attachment :=
  new_attachment ClsAttachment "__attach_version1.0_#00000000"
    {| att_type := Some "msg"; att_cid := None;
       att_close := Some (OtherError "OSError") |}.

Definition msg_fine : Attachment :=
  new_attachment ClsAttachment "__attach_version1.0_#00000001"
    {| att_type := Some "msg"; att_cid := None; att_close := None |}.

Definition env_two_msgs : Env :=
  example_env no_strings no_streams
    [["__attach_version1.0_#00000000"]; ["__attach_version1.0_#00000001"]]
    (fun _ => {| r_type := 1; r_formatted := "" |})
    (fun dir_ =>
       if String.eqb dir_ "__attach_version1.0_#00000000"
       then inr (a_data msg_failing)
       else inr (a_data msg_fine))
    false ATTACHMENT_ERROR_THROW no_deenc no_dates None no_header.

Definition self_two_msgs : MessageBase :=
  snd (attachments env_two_msgs fresh).

(** The two scenarios of the specification: recipients Bob and Carol of
    role [to] and no header; a sender name and address and no header. *)
Definition env_bob_carol : Env :=
  example_env no_strings no_streams
    [["__recip_version1.0_#00000000"]; ["__recip_version1.0_#00000001"];
     ["__recip_version1.0_#00000002"]]
    (fun dir_ =>
       if String.eqb dir_ "__recip_version1.0_#00000000"
       then {| r_type := 1; r_formatted := "Bob" |}
       else if String.eqb dir_ "__recip_version1.0_#00000001"
            then {| r_type := 2; r_formatted := "Dave" |}
            else {| r_type := 1; r_formatted := "Carol" |})
    no_attachment false ATTACHMENT_ERROR_THROW no_deenc no_dates None no_header.

Definition env_alice : Env :=
  example_env
    (fun k => if String.eqb k "__substg1.0_0C1A" then Some "Alice"
              else if String.eqb k "__substg1.0_5D01"
                   then Some "alice@example.com"
                   else None)
    no_streams [] (fun _ => {| r_type := 1; r_formatted := "" |})
    no_attachment false ATTACHMENT_ERROR_THROW no_deenc no_dates None no_header.

(** ** Reference definitions for the further properties *)

(** A computation that returns from every state of the object. *)
Definition always_returns {A : Type} (m : M A) : Prop :=
  forall self, exists v s, m self = (Return v, s).

(** The sender put together from the display-name and address streams
    (lines 505-514). *)
Definition sender_from_streams (E : Env) : option string :=
  match getStringStream E "__substg1.0_0C1A" with
  | None => getStringStream E "__substg1.0_5D01"
  | Some name =>
      match getStringStream E "__substg1.0_5D01" with
      | Some address => Some (name ++ " <" ++ address ++ ">")
      | None => Some name
      end
  end.

(** A message whose raw header parses to a sender, a message id and a
    date of its own, taken after [header] has been resolved; the
    container's send date differs from the header's. *)
Definition parsed_fields : Header :=
  [("From", Some "Carol <carol@example.com>");
   ("Message-ID", Some "<1@example.com>");
   ("Date", Some "Sun, 15 Nov 2009 08:00:00 +0000");
   ("Received", Some "from a");
   ("Received", Some "from b");
   ("X-Tag", Some "first");
   ("X-Tag", Some "second")].

Definition env_parsed : Env :=
  example_env
    (fun k => if String.eqb k "__substg1.0_007D" then Some "From: ..."
              else if String.eqb k "__substg1.0_0C1A" then Some "Alice"
              else if String.eqb k "__substg1.0_1035" then Some "<2@example.com>"
              else None)
    no_streams [] (fun _ => {| r_type := 1; r_formatted := "" |})
    no_attachment false ATTACHMENT_ERROR_THROW no_deenc no_dates
    (Some "Mon, 16 Nov 2009 13:32:02 +0100")
    (fun _ => parsed_fields).

Definition self_parsed : MessageBase := snd (header env_parsed fresh).

(** Three messages for the body: a plain-text body with CR LF line
    ends, one with bare LF line ends, and none but an RTF body that
    deencapsulates to text with CR LF line ends. *)
Definition env_body (raw : option string) (deenc : exn + DeEncapsulator)
  : Env :=
  example_env
    (fun k => if String.eqb k "__substg1.0_1000" then raw else None)
    (fun k => if String.eqb k "__substg1.0_10090102"
              then Some [x7b; x5c; x72; x74; x66]%byte else None)
    [] (fun _ => {| r_type := 1; r_formatted := "" |})
    no_attachment false ATTACHMENT_ERROR_THROW
    (fun _ => deenc) no_dates None no_header.

Definition two_lines_crlf : string := "one" ++ CRLF ++ "two".
Definition two_lines_lf : string := "one" ++ LF ++ "two".

Definition rtf_two_lines : DeEncapsulator :=
  {| content_type := "text"; html := ""; text := two_lines_crlf |}.

(** The object as [__init__] has it when it first reads [body]: the
    line ending preset to a bare LF (line 70). *)
Definition self_lf : MessageBase := with_crlf LF fresh.

(** What [deencapsulatedRtf] makes of an exception of the RTF library
    (lines 294-299): the two signals of the library give [None], any
    other exception goes to the caller. *)
Definition absorbed (e : exn) : outcome (option DeEncapsulator) :=
  match e with
  | NotEncapsulatedRtf | MalformedEncapsulatedRtf => Return None
  | _ => Raise e
  end.

(** A container whose RTF collaborators would all raise. *)
Definition env_no_rtf (compressed : option bytes) : Env :=
  {| getStringStream := no_strings;
     getStream := fun k => if String.eqb k "__substg1.0_10090102"
                           then compressed else None;
     mainProperties := fun _ => None;
     prop_date := None;
     listDir := fun _ _ => [];
     prefixLen := 0;
     attachmentClass := no_attachment;
     __attachmentsDelayed := false;
     attachmentErrorBehavior := ATTACHMENT_ERROR_THROW;
     __recipientSeparator := ";";
     newRecipient := fun _ => {| r_type := 1; r_formatted := "" |};
     newUnsupportedAttachment := fun _ => inr placeholder_data;
     newBrokenAttachment := fun _ => inr placeholder_data;
     parsestr := no_header;
     parsedate := no_dates;
     prepareFilename := fun s => s;
     inputToString := fun s _ => s;
     decompress := fun _ => inl (OtherError "decompress called");
     RTFDE_DeEncapsulator := fun _ => inl (OtherError "RTFDE called");
     RTFDE_deencapsulate := fun _ => inl (OtherError "RTFDE called") |}.

(** The names of a list that have not been seen before, each at its
    first occurrence. *)
Fixpoint unseen (seen names : list string) : list string :=
  match names with
  | [] => []
  | x :: rest =>
      if existsb (String.eqb x) seen then unseen seen rest
      else x :: unseen (x :: seen) rest
  end.

(** The value [add_header] stores for a resolved field. *)
Definition or_empty (v : option string) : string :=
  match v with Some s => s | None => "" end.

(** Whether a header holds a field of that name, compared without
    case. *)
Definition has_field (h : Header) (name : string) : bool :=
  existsb (fun kv => String.eqb (PyStr.lower (fst kv)) (PyStr.lower name)) h.

(** The value a dictionary holds for a key, and the value of the last
    field of exactly that name in a header. *)
Definition dict_get (d : Header) (k : string) : option (option string) :=
  option_map snd (List.find (fun kv => String.eqb (fst kv) k) d).

Definition last_field (h : Header) (k : string) : option (option string) :=
  dict_get (rev h) k.

(** A container whose listing holds a path with no component at the
    prefix length. *)
Definition env_short_path : Env :=
  example_env no_strings no_streams [["__recip_version1.0_#0"]; []]
    (fun _ => {| r_type := 1; r_formatted := "" |})
    no_attachment false ATTACHMENT_ERROR_THROW no_deenc no_dates
    None no_header.

(** The queued registrations as the replay of lines 193-200 applies
    them to a list. *)
Definition replayed (E : Env) (self : MessageBase) (l : list Attachment)
  : list Attachment :=
  match __waitingProperties self with
  | Some props =>
      if __attachmentsDelayed E then map (register_all props) l else l
  | None => l
  end.

(** A message with two attachment entries, the second of an unsupported
    type, under the middle policy. *)
Definition env_two_kinds : Env :=
  example_env no_strings no_streams
    [["__attach_version1.0_#00000000"]; ["__attach_version1.0_#00000001"]]
    (fun _ => {| r_type := 1; r_formatted := "" |})
    three_outcomes false ATTACHMENT_ERROR_NOT_IMPLEMENTED no_deenc no_dates
    None no_header.

(** A computation that leaves a component of the object as it was,
    whatever its outcome. *)
Definition keeps {A X : Type} (f : MessageBase -> X) (m : M A) : Prop :=
  forall self, f (snd (m self)) = f self.

(** A container with a compressed RTF stream that does not
    decompress. *)
Definition env_bad_rtf : Env :=
  env_no_rtf (Some [x7b]%byte).

(** The message of [env_three] under the most permissive policy, with
    a [BrokenAttachment] constructor that raises. *)
Definition env_bad_placeholder : Env :=
  let E := env_three false ATTACHMENT_ERROR_BROKEN in
  {| getStringStream := getStringStream E;
     getStream := getStream E;
     mainProperties := mainProperties E;
     prop_date := prop_date E;
     listDir := listDir E;
     prefixLen := prefixLen E;
     attachmentClass := attachmentClass E;
     __attachmentsDelayed := __attachmentsDelayed E;
     attachmentErrorBehavior := attachmentErrorBehavior E;
     __recipientSeparator := __recipientSeparator E;
     newRecipient := newRecipient E;
     newUnsupportedAttachment := newUnsupportedAttachment E;
     newBrokenAttachment := fun _ => inl TypeError;
     parsestr := parsestr E;
     parsedate := parsedate E;
     prepareFilename := prepareFilename E;
     inputToString := inputToString E;
     decompress := decompress E;
     RTFDE_DeEncapsulator := RTFDE_DeEncapsulator E;
     RTFDE_deencapsulate := RTFDE_deencapsulate E |}.

(** What the loop body of lines 132-134 raises on an attachment, if
    anything: [AttributeError] when the object has no [type], and for a
    nested message what its close raises. *)
Definition close_failure (a : Attachment) : option exn :=
  match att_type (a_data a) with
  | None => Some AttributeError
  | Some t => if String.eqb t "msg" then att_close (a_data a) else None
  end.

(** The three levels of the policy, by the names of the specification,
    and what an enumerated directory comes to at each: a level
    tolerates what the level before it tolerates, and more. *)
Inductive policy : Type :=
| throwOnError
| tolerateUnsupportedType
| tolerateAnyError.

Definition policy_value (p : policy) : Z :=
  match p with
  | throwOnError => ATTACHMENT_ERROR_THROW
  | tolerateUnsupportedType => ATTACHMENT_ERROR_NOT_IMPLEMENTED
  | tolerateAnyError => ATTACHMENT_ERROR_BROKEN
  end.

Definition entry_at (p : policy) (E : Env) (dir_ : string)
  : exn + Attachment :=
  match attachmentClass E dir_ with
  | inr data => inr (new_attachment ClsAttachment dir_ data)
  | inl e =>
      match e, p with
      | (NotImplementedError | UnrecognizedMSGTypeError), throwOnError =>
          inl e
      | (NotImplementedError | UnrecognizedMSGTypeError), _ =>
          placeholder ClsUnsupportedAttachment dir_
            (newUnsupportedAttachment E dir_)
      | _, tolerateAnyError =>
          placeholder ClsBrokenAttachment dir_ (newBrokenAttachment E dir_)
      | _, _ => inl e
      end
  end.

Definition entries_at (p : policy) (E : Env) (dirs : list string)
  : list Attachment :=
  flat_map (fun dir_ => match entry_at p E dir_ with
                        | inr a => [a]
                        | inl _ => []
                        end) dirs.

(** A message whose raw header holds a folded [To] field with a comma
    and two spaces in a row, taken after [header] has parsed it. *)
Definition env_folded : Env :=
  example_env
    (fun k => if String.eqb k "__substg1.0_007D" then Some "To: ..." else None)
    no_streams []
    (fun _ => {| r_type := 1; r_formatted := "" |})
    no_attachment false ATTACHMENT_ERROR_THROW no_deenc no_dates None
    (fun _ => [("To", Some ("Ann <a@example.com>," ++ CRLF ++ TAB
                            ++ "Bob  Smith <bob@example.com>"))]).

Definition self_folded : MessageBase := snd (header env_folded fresh).

(** * Properties *)

(** ** Strings *)

Lemma prefix_length (p s : string) :
  String.prefix p s = true -> (String.length p <= String.length s)%nat.
Proof.
  revert s; induction p as [|c p IH]; intros [|d s]; simpl; try lia;
    try discriminate.
  destruct (Ascii.ascii_dec c d); [|discriminate].
  intros H; apply IH in H; lia.
Qed.

Lemma append_length (a b : string) :
  String.length (a ++ b) = (String.length a + String.length b)%nat.
Proof. induction a; simpl; congruence. Qed.

Lemma find_cons (c : ascii) (rest sub : string) :
  PyStr.find (String c rest) sub =
  if String.prefix sub (String c rest) then 0
  else let r := PyStr.find rest sub in if r =? -1 then -1 else r + 1.
Proof. reflexivity. Qed.

Lemma find_lower_bound (s sub : string) : -1 <= PyStr.find s sub.
Proof.
  induction s as [|c s IH].
  - destruct sub; simpl; lia.
  - rewrite find_cons. destruct (String.prefix sub (String c s)); [lia|].
    cbv zeta. destruct (PyStr.find s sub =? -1); lia.
Qed.

Lemma replace_scan_cons0 (c : ascii) (rest old new : string) :
  PyStr.replace_scan 0 (String c rest) old new =
  if String.prefix old (String c rest)
  then new ++ PyStr.replace_scan (String.length old - 1) rest old new
  else String c (PyStr.replace_scan 0 rest old new).
Proof. reflexivity. Qed.

(** A pass never lengthens the string when the replacement is no longer
    than what it replaces. *)
Lemma replace_scan_length_le (old new : string) :
  (String.length new <= String.length old)%nat ->
  forall s k,
    (String.length (PyStr.replace_scan k s old new) <= String.length s - k)%nat.
Proof.
  intros Hlen; induction s as [|c s IH]; intros k.
  - simpl; lia.
  - destruct k as [|k].
    + rewrite replace_scan_cons0.
      destruct (String.prefix old (String c s)) eqn:Hp.
      * apply prefix_length in Hp. rewrite append_length.
        specialize (IH (String.length old - 1)%nat). simpl in *. lia.
      * specialize (IH 0%nat). simpl in *. lia.
    + simpl. apply IH.
Qed.

(** A pass over a string that holds an occurrence strictly shortens it
    when the replacement is shorter than what it replaces. *)
Lemma replace_scan_length_lt (old new : string) :
  (String.length new < String.length old)%nat ->
  forall s,
    PyStr.find s old <> -1 ->
    (String.length (PyStr.replace_scan 0 s old new) < String.length s)%nat.
Proof.
  intros Hlen; induction s as [|c s IH]; intros Hfind.
  - exfalso. apply Hfind. simpl.
    destruct old; [simpl in Hlen; lia | reflexivity].
  - rewrite replace_scan_cons0. rewrite find_cons in Hfind.
    destruct (String.prefix old (String c s)) eqn:Hp.
    + apply prefix_length in Hp. rewrite append_length.
      pose proof (replace_scan_length_le old new ltac:(lia) s
                    (String.length old - 1)%nat).
      simpl in *. lia.
    + cbv zeta in Hfind.
      destruct (PyStr.find s old =? -1) eqn:Hr; [congruence|].
      apply Z.eqb_neq in Hr. apply IH in Hr. simpl. lia.
Qed.

Lemma collapse_pass_shortens (value : string) :
  PyStr.find value SP2 <> -1 ->
  (String.length (PyStr.replace value SP2 SP) < String.length value)%nat.
Proof.
  intros H. change (PyStr.replace value SP2 SP)
    with (PyStr.replace_scan 0 value SP2 SP).
  apply replace_scan_length_lt; [simpl; lia | exact H].
Qed.

(** A budget of as many passes as the string has characters is never
    used up. *)
Lemma collapse_spaces_enough (n : nat) :
  forall value,
    (String.length value <= n)%nat ->
    exists v', collapse_spaces n value = Some v' /\ PyStr.find v' SP2 = -1.
Proof.
  induction n as [|n IH]; intros value Hn.
  - destruct value; [|simpl in Hn; lia].
    exists ""; split; reflexivity.
  - change (collapse_spaces (S n) value)
      with (if PyStr.find value SP2 =? -1 then Some value
            else collapse_spaces n (PyStr.replace value SP2 SP)).
    destruct (PyStr.find value SP2 =? -1) eqn:Hf.
    + exists value. split; [reflexivity | now apply Z.eqb_eq].
    + apply Z.eqb_neq in Hf. apply collapse_pass_shortens in Hf.
      apply IH. lia.
Qed.

Lemma collapse_spaces_length (value : string) :
  exists v',
    collapse_spaces (String.length value) value = Some v'
    /\ PyStr.find v' SP2 = -1.
Proof. apply collapse_spaces_enough; lia. Qed.

Lemma single_line_spec (value : string) :
  collapse_spaces (String.length (unfold_lines value)) (unfold_lines value)
  = Some (single_line value).
Proof.
  unfold single_line.
  destruct (collapse_spaces_length (unfold_lines value)) as [v' [H _]].
  cbv zeta. now rewrite H.
Qed.

Example find_ex1 : PyStr.find "a  b" SP2 = 1.
Proof. reflexivity. Qed.

Example find_ex2 : PyStr.find "a b" SP2 = -1.
Proof. reflexivity. Qed.

Example replace_ex1 : PyStr.replace "a   b" SP2 SP = "a  b".
Proof. reflexivity. Qed.

Example replace_ex2 : PyStr.replace "a,b,,c" "," "; " = "a; b; ; c".
Proof. reflexivity. Qed.

Example replace_ex3 : PyStr.replace "ab" "" "-" = "-a-b-".
Proof. reflexivity. Qed.

Example collapse_ex1 : collapse_spaces 5 "a     b" = Some "a b".
Proof. reflexivity. Qed.

Example format_ex1 : format_02d 7 = "07" /\ format_02d 2009 = "2009"
                     /\ format_02d (-5) = "-5" /\ format_02d 0 = "00".
Proof. repeat split. Qed.

Example encode_ex1 :
  encode_utf8 (String (ascii_of_nat 233) "a") = [xc3; xa9; x61]%byte.
Proof. reflexivity. Qed.

Lemma has_char_append (c : ascii) (a b : string) :
  PyStr.has_char c (a ++ b) = PyStr.has_char c a || PyStr.has_char c b.
Proof.
  induction a as [|d a IH]; simpl; [reflexivity|].
  rewrite IH. now rewrite orb_assoc.
Qed.

(** A pass does not bring in a character that neither the string nor
    the replacement holds. *)
Lemma replace_scan_keeps_out (c : ascii) (old new : string) :
  PyStr.has_char c new = false ->
  forall s k,
    PyStr.has_char c s = false ->
    PyStr.has_char c (PyStr.replace_scan k s old new) = false.
Proof.
  intros Hnew; induction s as [|d s IH]; intros k Hs; [reflexivity|].
  simpl in Hs. apply orb_false_iff in Hs as [Hd Hs].
  destruct k as [|k].
  - rewrite replace_scan_cons0.
    destruct (String.prefix old (String d s)).
    + rewrite has_char_append, Hnew. simpl. now apply IH.
    + simpl. rewrite Hd. simpl. now apply IH.
  - simpl. now apply IH.
Qed.

(** Replacing a one-character string removes that character. *)
Lemma replace_scan_removes (c : ascii) (new : string) :
  PyStr.has_char c new = false ->
  forall s,
    PyStr.has_char c (PyStr.replace_scan 0 s (String c "") new) = false.
Proof.
  intros Hnew; induction s as [|d s IH]; [reflexivity|].
  rewrite replace_scan_cons0. simpl String.prefix.
  destruct (Ascii.ascii_dec c d) as [->|Hne].
  - replace (String.prefix "" s) with true by (destruct s; reflexivity).
    rewrite has_char_append, Hnew. exact IH.
  - simpl. rewrite IH.
    destruct (Ascii.eqb c d) eqn:Heq; [|reflexivity].
    apply Ascii.eqb_eq in Heq. contradiction.
Qed.

Lemma collapse_spaces_keeps_out (c : ascii) :
  PyStr.has_char c SP = false ->
  forall n value v',
    PyStr.has_char c value = false ->
    collapse_spaces n value = Some v' ->
    PyStr.has_char c v' = false.
Proof.
  intros Hsp; induction n as [|n IH]; intros value v' Hv.
  - simpl. destruct (PyStr.find value SP2 =? -1); [|discriminate].
    now intros [= <-].
  - change (collapse_spaces (S n) value)
      with (if PyStr.find value SP2 =? -1 then Some value
            else collapse_spaces n (PyStr.replace value SP2 SP)).
    destruct (PyStr.find value SP2 =? -1); [now intros [= <-]|].
    apply IH. now apply replace_scan_keeps_out.
Qed.

Lemma unfold_lines_no_newline (value : string) :
  PyStr.has_char (ascii_of_nat 13) (unfold_lines value) = false
  /\ PyStr.has_char (ascii_of_nat 10) (unfold_lines value) = false.
Proof.
  unfold unfold_lines. cbv zeta. split.
  - apply (replace_scan_keeps_out _ LF SP); [reflexivity|].
    apply (replace_scan_removes _ SP). reflexivity.
  - apply (replace_scan_removes _ SP). reflexivity.
Qed.

(** What [single_line] guarantees: one line, no run of spaces. *)
Lemma single_line_shape (value : string) :
  PyStr.find (single_line value) SP2 = -1
  /\ PyStr.has_char (ascii_of_nat 13) (single_line value) = false
  /\ PyStr.has_char (ascii_of_nat 10) (single_line value) = false.
Proof.
  pose proof (single_line_spec value) as Hs.
  destruct (collapse_spaces_length (unfold_lines value)) as [v' [H Hf]].
  rewrite Hs in H. injection H as <-.
  destruct (unfold_lines_no_newline value) as [Hcr Hlf].
  split; [exact Hf|]. split.
  - eapply collapse_spaces_keeps_out; [| exact Hcr | exact Hs]. reflexivity.
  - eapply collapse_spaces_keeps_out; [| exact Hlf | exact Hs]. reflexivity.
Qed.

Lemma single_line_empty : single_line "" = "".
Proof. reflexivity. Qed.

(** ** The normalisation against the claim's words *)

Lemma prefix_cons (c d : ascii) (p s : string) :
  String.prefix (String c p) (String d s) = Ascii.eqb c d && String.prefix p s.
Proof.
  simpl. destruct (ascii_dec c d) as [->|Hne].
  - now rewrite Ascii.eqb_refl.
  - destruct (Ascii.eqb c d) eqn:Heq; [|reflexivity].
    apply Ascii.eqb_eq in Heq. contradiction.
Qed.

Lemma prefix_nil (s : string) : String.prefix "" s = true.
Proof. destruct s; reflexivity. Qed.

Lemma prefix_of_nil (c : ascii) (p : string) :
  String.prefix (String c p) "" = false.
Proof. reflexivity. Qed.

Lemma prefix_split (p : string) :
  forall s, String.prefix p s = true -> exists s', s = p ++ s'.
Proof.
  induction p as [|c p IH]; intros s H.
  - exists s. reflexivity.
  - destruct s as [|d s]; [discriminate|].
    rewrite prefix_cons in H. apply andb_prop in H. destruct H as [Hc Hp].
    apply Ascii.eqb_eq in Hc. subst d.
    destruct (IH s Hp) as [s' ->]. exists s'. reflexivity.
Qed.

Lemma prefix_app (p s : string) : String.prefix p (p ++ s) = true.
Proof.
  induction p as [|c p IH]; [apply prefix_nil|].
  change (String c p ++ s) with (String c (p ++ s)).
  now rewrite prefix_cons, Ascii.eqb_refl, IH.
Qed.

Lemma replace_scan_skip (x : string) :
  forall s old new,
    PyStr.replace_scan (String.length x) (x ++ s) old new
    = PyStr.replace_scan 0 s old new.
Proof.
  induction x as [|c x IH]; intros s old new; [reflexivity|].
  simpl. apply IH.
Qed.

(** The scan at a match and away from one. *)
Lemma replace_scan_match (a : ascii) (old' new s : string) :
  PyStr.replace_scan 0 (String a old' ++ s) (String a old') new
  = new ++ PyStr.replace_scan 0 s (String a old') new.
Proof.
  change (String a old' ++ s) with (String a (old' ++ s)).
  rewrite replace_scan_cons0.
  change (String a (old' ++ s)) with (String a old' ++ s).
  rewrite prefix_app. f_equal.
  change (String.length (String a old') - 1)%nat
    with (S (String.length old') - 1)%nat.
  replace (S (String.length old') - 1)%nat with (String.length old') by lia.
  apply replace_scan_skip.
Qed.

Lemma replace_scan_pass (c : ascii) (rest old new : string) :
  String.prefix old (String c rest) = false ->
  PyStr.replace_scan 0 (String c rest) old new
  = String c (PyStr.replace_scan 0 rest old new).
Proof. intros H. now rewrite replace_scan_cons0, H. Qed.

(** *** Runs of blanks *)

Lemma squeeze_cons_blank (c : ascii) (x : string) :
  is_blank c = true ->
  squeeze_blanks (String c x)
  = if head_blank x then squeeze_blanks x else String " " (squeeze_blanks x).
Proof.
  intros Hc. destruct x as [|d x].
  - simpl. now rewrite Hc.
  - change (squeeze_blanks (String c (String d x)))
      with (if is_blank c
            then if is_blank d then squeeze_blanks (String d x)
                 else String " " (squeeze_blanks (String d x))
            else String c (squeeze_blanks (String d x))).
    rewrite Hc. reflexivity.
Qed.

Lemma squeeze_cons_other (c : ascii) (x : string) :
  is_blank c = false ->
  squeeze_blanks (String c x) = String c (squeeze_blanks x).
Proof.
  intros Hc. destruct x as [|d x].
  - simpl. now rewrite Hc.
  - change (squeeze_blanks (String c (String d x)))
      with (if is_blank c
            then if is_blank d then squeeze_blanks (String d x)
                 else String " " (squeeze_blanks (String d x))
            else String c (squeeze_blanks (String d x))).
    rewrite Hc. reflexivity.
Qed.

Lemma space_is_blank (c : ascii) : Ascii.eqb c " " = true -> is_blank c = true.
Proof. intros H. unfold is_blank. now rewrite H. Qed.

Lemma head_squeeze (x : string) :
  head_space (squeeze_blanks x) = head_blank x.
Proof.
  induction x as [|c x IH]; [reflexivity|].
  destruct (is_blank c) eqn:Hc.
  - rewrite (squeeze_cons_blank c x Hc). cbn [head_blank]. rewrite Hc.
    destruct (head_blank x) eqn:Hx; [now rewrite IH | reflexivity].
  - rewrite (squeeze_cons_other c x Hc). cbn [head_blank head_space].
    rewrite Hc. destruct (Ascii.eqb c " ") eqn:Hs; [|reflexivity].
    apply space_is_blank in Hs. congruence.
Qed.

Lemma squeeze_cong (c : ascii) (x y : string) :
  squeeze_blanks x = squeeze_blanks y ->
  squeeze_blanks (String c x) = squeeze_blanks (String c y).
Proof.
  intros H.
  assert (Hh : head_blank x = head_blank y)
    by (rewrite <- !head_squeeze; now rewrite H).
  destruct (is_blank c) eqn:Hc.
  - rewrite !(squeeze_cons_blank c _ Hc), Hh, H. reflexivity.
  - rewrite !(squeeze_cons_other c _ Hc), H. reflexivity.
Qed.

Lemma squeeze_blank_blank (a b : ascii) (x : string) :
  is_blank a = true -> is_blank b = true ->
  squeeze_blanks (String a (String b x)) = squeeze_blanks (String b x).
Proof.
  intros Ha Hb. rewrite (squeeze_cons_blank a _ Ha). cbn [head_blank].
  now rewrite Hb.
Qed.

Lemma squeeze_blank_any (a b : ascii) (x : string) :
  is_blank a = true -> is_blank b = true ->
  squeeze_blanks (String a x) = squeeze_blanks (String b x).
Proof.
  intros Ha Hb.
  now rewrite (squeeze_cons_blank a _ Ha), (squeeze_cons_blank b _ Hb).
Qed.

Lemma squeeze_blanks_app (w : string) :
  forall a x,
    all_blank (String a w) = true ->
    squeeze_blanks (String a w ++ x) = squeeze_blanks (String " " x).
Proof.
  induction w as [|b w IH]; intros a x Hw.
  - simpl in Hw. rewrite andb_true_r in Hw.
    apply (squeeze_blank_any a " " x Hw). reflexivity.
  - cbn [all_blank] in Hw. apply andb_prop in Hw. destruct Hw as [Ha Hw].
    assert (Hb : is_blank b = true)
      by (cbn [all_blank] in Hw; now apply andb_prop in Hw).
    change (String a (String b w) ++ x)
      with (String a (String b (w ++ x))).
    rewrite (squeeze_blank_blank a b _ Ha Hb).
    apply (IH b x Hw).
Qed.

(** A pass that replaces a pattern of blanks by one space keeps the
    runs of blanks where they are. *)
Lemma squeeze_pass (a : ascii) (old' : string) :
  all_blank (String a old') = true ->
  forall n s,
    (String.length s <= n)%nat ->
    squeeze_blanks (PyStr.replace_scan 0 s (String a old') " ")
    = squeeze_blanks s.
Proof.
  intros Hold. induction n as [|n IH]; intros s Hn.
  - destruct s; [reflexivity | simpl in Hn; lia].
  - destruct s as [|c rest]; [reflexivity|].
    destruct (String.prefix (String a old') (String c rest)) eqn:Hp.
    + destruct (prefix_split _ _ Hp) as [s' Hs]. rewrite Hs.
      rewrite replace_scan_match.
      rewrite (squeeze_blanks_app old' a s' Hold).
      apply squeeze_cong. apply IH.
      assert (String.length (String c rest)
              = String.length (String a old' ++ s')) by now rewrite Hs.
      rewrite append_length in H. simpl in *. lia.
    + rewrite (replace_scan_pass _ _ _ _ Hp).
      apply squeeze_cong. apply IH. simpl in Hn. lia.
Qed.

Lemma squeeze_collapse (n : nat) :
  forall value v',
    collapse_spaces n value = Some v' ->
    squeeze_blanks v' = squeeze_blanks value.
Proof.
  induction n as [|n IH]; intros value v'.
  - change (collapse_spaces 0 value)
      with (if PyStr.find value SP2 =? -1 then Some value else None).
    destruct (PyStr.find value SP2 =? -1); [|discriminate].
    now intros [= <-].
  - change (collapse_spaces (S n) value)
      with (if PyStr.find value SP2 =? -1 then Some value
            else collapse_spaces n (PyStr.replace value SP2 SP)).
    destruct (PyStr.find value SP2 =? -1); [now intros [= <-]|].
    intros H. rewrite (IH _ _ H).
    change (PyStr.replace value SP2 SP)
      with (PyStr.replace_scan 0 value (String " " " ") " ").
    apply (squeeze_pass " " " " eq_refl (String.length value)). lia.
Qed.

(** A value without CR, LF or two spaces in a row is its own
    squeeze. *)
Lemma squeeze_settled (r : string) :
  PyStr.find r SP2 = -1 ->
  PyStr.has_char "013" r = false ->
  PyStr.has_char "010" r = false ->
  squeeze_blanks r = r.
Proof.
  induction r as [|c r IH]; intros Hsp Hcr Hlf; [reflexivity|].
  rewrite find_cons in Hsp.
  destruct (String.prefix SP2 (String c r)) eqn:Hp; [discriminate|].
  cbv zeta in Hsp.
  destruct (PyStr.find r SP2 =? -1) eqn:Hr;
    [|pose proof (find_lower_bound r SP2); lia].
  apply Z.eqb_eq in Hr.
  cbn [PyStr.has_char] in Hcr, Hlf. apply orb_false_iff in Hcr, Hlf.
  destruct Hcr as [Hc1 Hcr], Hlf as [Hc2 Hlf].
  specialize (IH Hr Hcr Hlf).
  destruct (Ascii.eqb c " ") eqn:Hs.
  - apply Ascii.eqb_eq in Hs. subst c.
    rewrite (squeeze_cons_blank " " r eq_refl), IH.
    destruct r as [|d r]; [reflexivity|].
    change SP2 with (String " " (String " " "")) in Hp.
    rewrite !prefix_cons, prefix_nil, Ascii.eqb_refl, andb_true_r in Hp.
    cbn [andb] in Hp.
    cbn [PyStr.has_char] in Hcr, Hlf. apply orb_false_iff in Hcr, Hlf.
    cbn [head_blank]. unfold is_blank.
    rewrite (Ascii.eqb_sym d " "), Hp.
    rewrite (Ascii.eqb_sym d "013"), (Ascii.eqb_sym d "010").
    rewrite (proj1 Hcr), (proj1 Hlf). reflexivity.
  - rewrite squeeze_cons_other, IH; [reflexivity|].
    unfold is_blank. rewrite Hs. rewrite (Ascii.eqb_sym c "013"),
      (Ascii.eqb_sym c "010"), Hc1, Hc2. reflexivity.
Qed.

(** *** Continuation lines *)

Lemma fold_match (s : string) :
  fold_continuations (String "013" (String "010" (String "009" s)))
  = String " " (fold_continuations s).
Proof. reflexivity. Qed.

Lemma fold_pass (a : ascii) (rest : string) :
  String.prefix (String "013" (String "010" (String "009" "")))
    (String a rest) = false ->
  fold_continuations (String a rest) = String a (fold_continuations rest).
Proof.
  intros H. destruct rest as [|b [|c rest']]; try reflexivity.
  rewrite !prefix_cons, prefix_nil, andb_true_r in H.
  change (fold_continuations (String a (String b (String c rest'))))
    with (if Ascii.eqb a "013" && Ascii.eqb b "010" && Ascii.eqb c "009"
          then String " " (fold_continuations rest')
          else String a (fold_continuations (String b (String c rest')))).
  rewrite (Ascii.eqb_sym a), (Ascii.eqb_sym b), (Ascii.eqb_sym c),
    <- andb_assoc, H.
  reflexivity.
Qed.

(** Folding the continuations is the third pass of line 105. *)
Lemma fold_is_pass (n : nat) :
  forall s,
    (String.length s <= n)%nat ->
    fold_continuations s
    = PyStr.replace_scan 0 s
        (String "013" (String "010" (String "009" ""))) " ".
Proof.
  induction n as [|n IH]; intros s Hn.
  - destruct s; [reflexivity | simpl in Hn; lia].
  - destruct s as [|a rest]; [reflexivity|].
    destruct (String.prefix (String "013" (String "010" (String "009" "")))
                (String a rest)) eqn:Hp.
    + destruct (prefix_split _ _ Hp) as [s' Hs]. rewrite Hs.
      rewrite replace_scan_match.
      change (String "013" (String "010" (String "009" "")) ++ s')
        with (String "013" (String "010" (String "009" s'))).
      rewrite fold_match. change (" " ++ ?x) with (String " " x).
      f_equal. apply IH.
      assert (String.length (String a rest)
              = String.length
                  (String "013" (String "010" (String "009" s'))))
        by now rewrite Hs.
      simpl in *. lia.
    + rewrite (replace_scan_pass _ _ _ _ Hp), (fold_pass _ _ Hp).
      f_equal. apply IH. simpl in Hn. lia.
Qed.

Section Passes.

(** A pass [old -> " "] that comes before the third one, looked at
    through the third one and the squeeze. *)
Variable o : ascii.
Variable old' : string.

Let old : string := String o old'.
Let C3 : string := String "013" (String "010" (String "009" "")).
Let R (s : string) : string := PyStr.replace_scan 0 s old " ".
Let R3 (s : string) : string := PyStr.replace_scan 0 s C3 " ".

Hypothesis o_not_lf : Ascii.eqb "010" o = false.
Hypothesis o_not_tab : Ascii.eqb "009" o = false.
Hypothesis old_through :
  forall s', R3 (old ++ s') = String " " (String " " (R3 s')).
Hypothesis continuation_kept :
  forall s', String.prefix old (C3 ++ s') = false -> R (C3 ++ s') = C3 ++ R s'.

Lemma tab_through (y : string) :
  String.prefix (String "009" "") (R y) = String.prefix (String "009" "") y.
Proof.
  destruct y as [|e y]; [reflexivity|]. unfold R.
  destruct (String.prefix old (String e y)) eqn:Hp.
  - destruct (prefix_split _ _ Hp) as [s' Hs]. rewrite Hs.
    unfold old. rewrite replace_scan_match.
    change (" " ++ ?x) with (String " " x).
    change (String o old' ++ s') with (String o (old' ++ s')).
    rewrite !prefix_cons, o_not_tab. reflexivity.
  - rewrite (replace_scan_pass _ _ _ _ Hp).
    now rewrite !prefix_cons, !prefix_nil.
Qed.

Lemma lf_tab_through (x : string) :
  String.prefix (String "010" (String "009" "")) (R x)
  = String.prefix (String "010" (String "009" "")) x.
Proof.
  destruct x as [|d x]; [reflexivity|]. unfold R.
  destruct (String.prefix old (String d x)) eqn:Hp.
  - destruct (prefix_split _ _ Hp) as [s' Hs]. rewrite Hs.
    unfold old. rewrite replace_scan_match.
    change (" " ++ ?x) with (String " " x).
    change (String o old' ++ s') with (String o (old' ++ s')).
    rewrite !prefix_cons, o_not_lf. reflexivity.
  - rewrite (replace_scan_pass _ _ _ _ Hp).
    rewrite !prefix_cons. f_equal. apply tab_through.
Qed.

Lemma squeeze_earlier_pass (n : nat) :
  forall s,
    (String.length s <= n)%nat ->
    squeeze_blanks (R3 (R s)) = squeeze_blanks (R3 s).
Proof.
  induction n as [|n IH]; intros s Hn.
  - destruct s; [reflexivity | simpl in Hn; lia].
  - destruct s as [|c rest]; [reflexivity|].
    destruct (String.prefix old (String c rest)) eqn:Hp.
    + destruct (prefix_split _ _ Hp) as [s' Hs]. rewrite Hs.
      rewrite old_through. unfold R at 1, old. rewrite replace_scan_match.
      change (" " ++ ?x) with (String " " x).
      unfold R3 at 1. rewrite replace_scan_pass by reflexivity.
      rewrite (squeeze_blank_blank " " " " _ eq_refl eq_refl).
      apply squeeze_cong. apply IH.
      assert (String.length (String c rest) = String.length (old ++ s'))
        by now rewrite Hs.
      rewrite append_length in H. unfold old in H. simpl in *. lia.
    + destruct (String.prefix C3 (String c rest)) eqn:Hc.
      * destruct (prefix_split _ _ Hc) as [s' Hs]. rewrite Hs in *.
        rewrite (continuation_kept s' Hp).
        unfold R3, C3. rewrite !replace_scan_match.
        change (" " ++ ?x) with (String " " x).
        apply squeeze_cong. apply IH.
        assert (String.length (String c rest) = String.length (C3 ++ s'))
          by now rewrite Hs.
        rewrite append_length in H. unfold C3 in H. simpl in *. lia.
      * unfold R at 1. rewrite (replace_scan_pass _ _ _ _ Hp).
        fold (R rest).
        assert (Hc' : String.prefix C3 (String c (R rest)) = false).
        { unfold C3 in *. rewrite prefix_cons in *.
          now rewrite lf_tab_through. }
        unfold R3. rewrite (replace_scan_pass _ _ _ _ Hc'),
          (replace_scan_pass _ _ _ _ Hc).
        apply squeeze_cong. apply IH. simpl in Hn. lia.
Qed.

End Passes.

Lemma squeeze_first_pass (s : string) :
  squeeze_blanks
    (PyStr.replace_scan 0
       (PyStr.replace_scan 0 s
          (String " " (String "013" (String "010" (String "009" "")))) " ")
       (String "013" (String "010" (String "009" ""))) " ")
  = squeeze_blanks
      (PyStr.replace_scan 0 s
         (String "013" (String "010" (String "009" ""))) " ").
Proof.
  apply (squeeze_earlier_pass " "
           (String "013" (String "010" (String "009" "")))
           eq_refl eq_refl) with (n := String.length s); [| |lia].
  - intros s'.
    change (String " " (String "013" (String "010" (String "009" ""))) ++ s')
      with (String " "
              (String "013" (String "010" (String "009" "")) ++ s')).
    rewrite replace_scan_pass by reflexivity.
    now rewrite replace_scan_match.
  - intros s' _.
    change (String "013" (String "010" (String "009" "")) ++ s')
      with (String "013" (String "010" (String "009" s'))).
    now rewrite !replace_scan_pass by reflexivity.
Qed.

Lemma squeeze_second_pass (s : string) :
  squeeze_blanks
    (PyStr.replace_scan 0
       (PyStr.replace_scan 0 s
          (String "013" (String "010" (String "009" (String " " "")))) " ")
       (String "013" (String "010" (String "009" ""))) " ")
  = squeeze_blanks
      (PyStr.replace_scan 0 s
         (String "013" (String "010" (String "009" ""))) " ").
Proof.
  apply (squeeze_earlier_pass "013"
           (String "010" (String "009" (String " " "")))
           eq_refl eq_refl) with (n := String.length s); [| |lia].
  - intros s'.
    change (String "013" (String "010" (String "009" (String " " ""))) ++ s')
      with (String "013" (String "010" (String "009" "")) ++ String " " s').
    rewrite replace_scan_match.
    now rewrite replace_scan_pass by reflexivity.
  - intros s' Hp.
    change (String "013" (String "010" (String "009" "")) ++ s')
      with (String "013" (String "010" (String "009" s'))) in *.
    rewrite (replace_scan_pass _ _ _ _ Hp).
    now rewrite !replace_scan_pass by reflexivity.
Qed.

(** The code's normalisation is the one of the claim. *)
Lemma single_line_as_claimed (value : string) :
  single_line value = one_line_as_claimed value.
Proof.
  pose proof (single_line_spec value) as Hrun.
  destruct (single_line_shape value) as [Hsp [Hcr Hlf]].
  rewrite <- (squeeze_settled _ Hsp Hcr Hlf).
  rewrite (squeeze_collapse _ _ _ Hrun).
  unfold unfold_lines, one_line_as_claimed. cbv zeta.
  repeat match goal with
         | |- context [PyStr.replace ?t ?old SP] =>
             change (PyStr.replace t old SP)
               with (PyStr.replace_scan 0 t old SP)
         end.
  change LF with (String "010" "").
  change CR with (String "013" "").
  change CRLF with (String "013" (String "010" "")).
  change (String "013" (String "010" "") ++ TAB)
    with (String "013" (String "010" (String "009" ""))).
  change (String "013" (String "010" (String "009" "")) ++ SP)
    with (String "013" (String "010" (String "009" (String " " "")))).
  change (SP ++ String "013" (String "010" (String "009" "")))
    with (String " " (String "013" (String "010" (String "009" "")))).
  change SP with (String " " "").
  rewrite (squeeze_pass "010" "" eq_refl _ _ (Nat.le_refl _)).
  rewrite (squeeze_pass "013" "" eq_refl _ _ (Nat.le_refl _)).
  rewrite (squeeze_pass "013" (String "010" "") eq_refl _ _ (Nat.le_refl _)).
  rewrite squeeze_second_pass, squeeze_first_pass.
  now rewrite <- (fold_is_pass _ _ (Nat.le_refl _)).
Qed.

Example one_line_ex1 :
  one_line_as_claimed ("Bob  Smith" ++ CRLF ++ TAB ++ "<bob@example.com>")
  = "Bob Smith <bob@example.com>".
Proof. reflexivity. Qed.

Example one_line_ex2 :
  one_line_as_claimed ("a" ++ CR ++ "b" ++ LF ++ "c " ++ CRLF ++ " d" ++ TAB)
  = "a b c d" ++ TAB.
Proof. reflexivity. Qed.

(** ** Iteration budgets *)

Lemma nof_ret {A : Type} (a : A) : never_out_of_fuel (ret a).
Proof. intros self; discriminate. Qed.

Lemma nof_raise {A : Type} (e : exn) : never_out_of_fuel (@raise A e).
Proof. intros self; discriminate. Qed.

Lemma nof_modify (f : MessageBase -> MessageBase) :
  never_out_of_fuel (modify f).
Proof. intros self; discriminate. Qed.

Lemma nof_getattr {A : Type} (attr : MessageBase -> option A) :
  never_out_of_fuel (getattr attr).
Proof. intros self; unfold getattr; destruct (attr self); discriminate. Qed.

Lemma nof_bind {A B : Type} (m : M A) (k : A -> M B) :
  never_out_of_fuel m -> (forall a, never_out_of_fuel (k a)) ->
  never_out_of_fuel (bind m k).
Proof.
  intros Hm Hk self. unfold bind. specialize (Hm self).
  destruct (m self) as [[a| e |] self']; simpl in *;
    [apply Hk | discriminate | congruence].
Qed.

Lemma nof_try_return {A : Type} (attr : MessageBase -> option A) (h : M A) :
  never_out_of_fuel h -> never_out_of_fuel (try_return attr h).
Proof.
  intros Hh self. unfold try_return.
  destruct (attr self); [discriminate | apply Hh].
Qed.

Lemma nof_for_each {A : Type} (body : A -> M unit) (items : list A) :
  (forall x, never_out_of_fuel (body x)) ->
  never_out_of_fuel (for_each items body).
Proof.
  intros Hb; induction items as [|x items IH]; simpl.
  - apply nof_ret.
  - apply nof_bind; [apply Hb | intros _; exact IH].
Qed.

Lemma scan_dirs_outcome (marker : string) (n : nat) listing :
  forall found, scan_dirs marker n listing found <> OutOfFuel.
Proof.
  induction listing as [|d listing IH]; intros found; simpl;
    [discriminate|].
  destruct (nth_error d n); [|discriminate].
  destruct (_ && _); apply IH.
Qed.

Lemma nof_recipients (E : Env) : never_out_of_fuel (recipients E).
Proof.
  unfold recipients. apply nof_try_return.
  apply nof_bind; [intros self; apply scan_dirs_outcome | intros dirs].
  apply nof_bind; [apply nof_modify | intros _].
  apply nof_bind; [| intros _; apply nof_getattr].
  apply nof_for_each. intros x.
  apply nof_bind; [apply nof_getattr | intros l; apply nof_modify].
Qed.

Lemma nof_genRecipient (E : Env) (recipientType : string) (recipientInt : Z) :
  never_out_of_fuel (_genRecipient E recipientType recipientInt).
Proof.
  unfold _genRecipient. cbv zeta. apply nof_try_return.
  apply nof_bind; [intros self; unfold headerInit;
                   destruct (_header self); discriminate | intros init].
  apply nof_bind.
  { destruct init; [|apply nof_ret].
    apply nof_bind; [apply nof_getattr | intros h].
    destruct (truthy_str _); apply nof_ret. }
  intros value. apply nof_bind.
  { destruct (negb (truthy_str value)); [|apply nof_ret].
    apply nof_bind; [intros self; unfold headerInit;
                     destruct (_header self); discriminate | intros init'].
    apply nof_bind; [destruct init'; apply nof_ret | intros _].
    apply nof_bind; [apply nof_recipients | intros rs].
    destruct (0 <? _)%nat; apply nof_ret. }
  intros value'. apply nof_bind; [| intros v; apply nof_bind;
                                    [apply nof_modify | intros _; apply nof_ret]].
  destruct value' as [v|]; [|apply nof_ret].
  destruct (PyStr.nonempty v); [|apply nof_ret].
  rewrite single_line_spec. apply nof_ret.
Qed.

(** C10.  The loop of lines 107-108 terminates on every string: a pass
    over a value that still holds two consecutive spaces strictly
    shortens it; as many passes as the value has characters always
    reach the exit, where no two consecutive spaces are left; and
    [_genRecipient] exhausts no budget on any header value, recipient
    list or object state. *)
Theorem genRecipient_loop_terminates :
  (forall value,
      PyStr.find value SP2 <> -1 ->
      (String.length (PyStr.replace value SP2 SP) < String.length value)%nat)
  /\ (forall value,
         exists v',
           collapse_spaces (String.length value) value = Some v'
           /\ PyStr.find v' SP2 = -1)
  /\ (forall E recipientType recipientInt self,
         fst (_genRecipient E recipientType recipientInt self) <> OutOfFuel).
Proof.
  split; [exact collapse_pass_shortens|].
  split; [exact collapse_spaces_length|].
  intros E rt ri self. apply nof_genRecipient.
Qed.

(** ** Running the monad *)

Lemma run_bind_ret {A B : Type} (a : A) (k : A -> M B) self :
  bind (ret a) k self = k a self.
Proof. reflexivity. Qed.

Lemma run_bind_modify {B : Type} (f : MessageBase -> MessageBase)
    (k : unit -> M B) self :
  bind (modify f) k self = k tt (f self).
Proof. reflexivity. Qed.

Lemma run_bind_raise {A B : Type} (e : exn) (k : A -> M B) self :
  bind (raise e) k self = (Raise e, self).
Proof. reflexivity. Qed.

Lemma run_bind_bind {A B C : Type} (m : M A) (f : A -> M B) (g : B -> M C)
    self :
  bind (bind m f) g self = bind m (fun a => bind (f a) g) self.
Proof.
  unfold bind. destruct (m self) as [[a| e |] self']; reflexivity.
Qed.

Lemma run_bind_of {A B : Type} (m : M A) (k : A -> M B) self a self' :
  m self = (Return a, self') -> bind m k self = k a self'.
Proof. intros H; unfold bind; now rewrite H. Qed.

Lemma run_bind_raises {A B : Type} (m : M A) (k : A -> M B) self e self' :
  m self = (Raise e, self') -> bind m k self = (Raise e, self').
Proof. intros H; unfold bind; now rewrite H. Qed.

Lemma run_bind_getattr {A B : Type} (attr : MessageBase -> option A)
    (k : A -> M B) self :
  bind (getattr attr) k self =
  match attr self with
  | Some v => k v self
  | None => (Raise AttributeError, self)
  end.
Proof. unfold bind, getattr. destruct (attr self); reflexivity. Qed.

Lemma run_bind_headerInit {B : Type} (k : bool -> M B) self :
  bind headerInit k self =
  k (match _header self with Some _ => true | None => false end) self.
Proof. unfold bind, headerInit. destruct (_header self); reflexivity. Qed.

Lemma run_bind_if {A B : Type} (b : bool) (m1 m2 : M A) (k : A -> M B) self :
  bind (if b then m1 else m2) k self =
  if b then bind m1 k self else bind m2 k self.
Proof. destruct b; reflexivity. Qed.

Lemma run_try_return {A : Type} (attr : MessageBase -> option A) (h : M A)
    self :
  try_return attr h self =
  match attr self with
  | Some v => (Return v, self)
  | None => h self
  end.
Proof. reflexivity. Qed.

Ltac mstep :=
  match goal with
  | |- context [bind (bind ?m ?f) ?g ?s] => rewrite (run_bind_bind m f g s)
  | |- context [bind (ret ?a) ?k ?s] => rewrite (run_bind_ret a k s)
  | |- context [bind (modify ?f) ?k ?s] => rewrite (run_bind_modify f k s)
  | |- context [bind (raise ?e) ?k ?s] => rewrite (run_bind_raise e k s)
  | |- context [bind headerInit ?k ?s] => rewrite (run_bind_headerInit k s)
  | |- context [bind (getattr ?a) ?k ?s] => rewrite (run_bind_getattr a k s)
  end.

Ltac msteps :=
  repeat first
    [ mstep
    | progress cbn [truthy_str truthy_bytes PyStr.nonempty negb option_map]
    | progress cbv beta iota ].

(** ** Components a computation leaves alone *)

Section Keeps.

Context {X : Type} (f : MessageBase -> X).

Lemma keeps_ret {A : Type} (a : A) : keeps f (ret a).
Proof. intros self. reflexivity. Qed.

Lemma keeps_raise {A : Type} (e : exn) : keeps f (@raise A e).
Proof. intros self. reflexivity. Qed.

Lemma keeps_getattr {A : Type} (attr : MessageBase -> option A) :
  keeps f (getattr attr).
Proof. intros self. unfold getattr. destruct (attr self); reflexivity. Qed.

Lemma keeps_lift {A : Type} (r : exn + A) : keeps f (lift r).
Proof. intros self. destruct r; reflexivity. Qed.

Lemma keeps_lift_outcome {A : Type} (r : outcome A) :
  keeps f (lift_outcome r).
Proof. intros self. destruct r; reflexivity. Qed.

Lemma keeps_modify (g : MessageBase -> MessageBase) :
  (forall self, f (g self) = f self) -> keeps f (modify g).
Proof. intros Hg self. apply Hg. Qed.

Lemma keeps_bind {A B : Type} (m : M A) (k : A -> M B) :
  keeps f m -> (forall a, keeps f (k a)) -> keeps f (bind m k).
Proof.
  intros Hm Hk self. unfold bind. specialize (Hm self).
  destruct (m self) as [[a| e |] s]; simpl in *; try exact Hm.
  rewrite <- Hm. apply Hk.
Qed.

Lemma keeps_try_except {A : Type} (body : M A) (catches : exn -> bool)
    (handler : exn -> M A) :
  keeps f body -> (forall e, keeps f (handler e)) ->
  keeps f (try_except body catches handler).
Proof.
  intros Hb Hh self. unfold try_except. specialize (Hb self).
  destruct (body self) as [[a| e |] s]; simpl in *; try exact Hb.
  destruct (catches e); [|exact Hb].
  rewrite <- Hb. apply Hh.
Qed.

Lemma keeps_for_each {A : Type} (items : list A) (body : A -> M unit) :
  (forall x, keeps f (body x)) -> keeps f (for_each items body).
Proof.
  intros Hb. induction items as [|x items IH]; simpl.
  - apply keeps_ret.
  - apply keeps_bind; [apply Hb | intros _; exact IH].
Qed.

Lemma keeps_try_return {A : Type} (attr : MessageBase -> option A)
    (h : M A) :
  keeps f h -> keeps f (try_return attr h).
Proof.
  intros Hh self. unfold try_return.
  destruct (attr self); [reflexivity | apply Hh].
Qed.

Lemma keeps_out_of_fuel {A : Type} : keeps f (@out_of_fuel A).
Proof. intros self. reflexivity. Qed.

Lemma keeps_headerInit : keeps f headerInit.
Proof. intros self. unfold headerInit. destruct (_header self); reflexivity. Qed.

End Keeps.

Ltac keeps_step :=
  lazymatch goal with
  | |- keeps _ (ret _) => apply keeps_ret
  | |- keeps _ (raise _) => apply keeps_raise
  | |- keeps _ out_of_fuel => apply keeps_out_of_fuel
  | |- keeps _ (lift _) => apply keeps_lift
  | |- keeps _ (lift_outcome _) => apply keeps_lift_outcome
  | |- keeps _ (getattr _) => apply keeps_getattr
  | |- keeps _ headerInit => apply keeps_headerInit
  | |- keeps _ (logger_info _) => apply keeps_ret
  | |- keeps _ (bind _ _) => apply keeps_bind; [| intro]
  | |- keeps _ (try_except _ _ _) => apply keeps_try_except; [| intro]
  | |- keeps _ (for_each _ _) => apply keeps_for_each; intro
  | |- keeps _ (try_return _ _) => apply keeps_try_return
  | |- keeps _ (modify _) => apply keeps_modify; intro; reflexivity
  | |- keeps _ (match ?x with _ => _ end) => destruct x
  end.

Ltac keeping := cbv zeta; repeat keeps_step.

(** The accessors that [header] calls for a synthesized header leave
    [_header] alone. *)
Lemma date_keeps_header (E : Env) : keeps _header (date E).
Proof. unfold date. keeping. Qed.

Lemma sender_keeps_header (E : Env) : keeps _header (sender E).
Proof. unfold sender. keeping. Qed.

Lemma messageId_keeps_header (E : Env) : keeps _header (messageId E).
Proof. unfold messageId. keeping. Qed.

Lemma genRecipient_keeps_header (E : Env) (recipientType : string)
    (recipientInt : Z) :
  keeps _header (_genRecipient E recipientType recipientInt).
Proof. unfold _genRecipient, recipients. keeping. Qed.

(** What a [bind] that returns went through. *)
Lemma bind_returns {A B : Type} (m : M A) (k : A -> M B) self b s :
  bind m k self = (Return b, s) ->
  exists a s1, m self = (Return a, s1) /\ k a s1 = (Return b, s).
Proof.
  unfold bind. destruct (m self) as [[a| e |] s1]; try discriminate.
  intros H. eauto.
Qed.

(** ** Recipient resolution *)

(** Lines 104-108 on a settled value. *)
Lemma run_normalise {B : Type} (v : string) (k : option string -> M B) self :
  bind
    (if PyStr.nonempty v then
       match collapse_spaces (String.length (unfold_lines v))
               (unfold_lines v) with
       | Some v' => ret (Some v')
       | None => out_of_fuel
       end
     else ret (Some v))
    k self
  = k (Some (single_line v)) self.
Proof.
  destruct v as [|c v]; [reflexivity|].
  simpl PyStr.nonempty. cbv iota. rewrite single_line_spec. reflexivity.
Qed.

Theorem genRecipient_resolves (E : Env) (recipientType : string)
    (recipientInt : Z) (self self1 : MessageBase) (rs : list Recipient) :
  str_attrs self ("_" ++ recipientType) = None ->
  recipients E self = (Return rs, self1) ->
  fst (_genRecipient E recipientType recipientInt self)
  = Return (option_map single_line
              (address_source E recipientType recipientInt self rs)).
Proof.
  intros Hunset Hrs.
  unfold _genRecipient, address_source, header_field.
  cbv zeta. rewrite run_try_return, Hunset. unfold logger_info.
  assert (Hfallback :
    forall value : option string,
      truthy_str value = false ->
      fst (bind (recipients E)
             (fun rs0 =>
                bind
                  (if (0 <? length (foundRecipients_of recipientInt rs0))%nat
                   then ret (Some (PyStr.join (__recipientSeparator E ++ " ")
                                     (foundRecipients_of recipientInt rs0)))
                   else ret value)
                  (fun value0 =>
                     bind
                       (match value0 with
                        | Some v =>
                            if PyStr.nonempty v then
                              match collapse_spaces
                                      (String.length (unfold_lines v))
                                      (unfold_lines v) with
                              | Some v' => ret (Some v')
                              | None => out_of_fuel
                              end
                            else ret value0
                        | None => ret value0
                        end)
                       (fun value1 =>
                          bind (modify (with_str ("_" ++ recipientType) value1))
                            (fun _ => ret value1)))) self)
      = Return (option_map single_line
                  match foundRecipients_of recipientInt rs
                  with
                  | [] => value
                  | found => Some (PyStr.join (__recipientSeparator E ++ " ") found)
                  end)).
  { intros value Hfalsy.
    rewrite (run_bind_of _ _ _ _ _ Hrs).
    destruct (foundRecipients_of recipientInt rs) as [|f fs];
      cbn [Nat.ltb Nat.leb Datatypes.length]; msteps.
    - destruct value as [[|c v]|]; try discriminate; reflexivity.
    - rewrite run_normalise. reflexivity. }
  rewrite run_bind_headerInit.
  destruct (_header self) as [h|] eqn:Hh.
  - rewrite run_bind_bind, run_bind_getattr, Hh.
    destruct (header_getitem h recipientType) as [[|c v]|] eqn:Hv; msteps.
    + rewrite Hh. msteps. apply Hfallback. reflexivity.
    + destruct (PyStr.replace (String c v) "," (__recipientSeparator E))
        as [|c' v'] eqn:Hr; msteps.
      * rewrite Hh. msteps. apply Hfallback. reflexivity.
      * rewrite single_line_spec. reflexivity.
    + rewrite Hh. msteps. apply Hfallback. reflexivity.
  - msteps. rewrite Hh. msteps. apply Hfallback. reflexivity.
Qed.

(** The header path needs no recipient list. *)
Lemma genRecipient_from_header (E : Env) (recipientType : string)
    (recipientInt : Z) (self : MessageBase) (v : string) :
  str_attrs self ("_" ++ recipientType) = None ->
  header_address E recipientType self = Some v ->
  fst (_genRecipient E recipientType recipientInt self)
  = Return (Some (single_line v)).
Proof.
  intros Hunset. unfold _genRecipient, header_address, header_field.
  cbv zeta. rewrite run_try_return, Hunset, run_bind_headerInit.
  destruct (_header self) as [h|] eqn:Hh; [|discriminate].
  rewrite run_bind_bind, run_bind_getattr, Hh.
  destruct (header_getitem h recipientType) as [[|c w]|]; try discriminate.
  destruct (PyStr.replace (String c w) "," (__recipientSeparator E))
    as [|c' w'] eqn:Hr; [discriminate|].
  intros [= <-]. msteps. rewrite Hr. msteps.
  rewrite single_line_spec. reflexivity.
Qed.

(** Off the header path, what the recipient list raises is raised. *)
Lemma genRecipient_recipients_raise (E : Env) (recipientType : string)
    (recipientInt : Z) (self self1 : MessageBase) (e : exn) :
  str_attrs self ("_" ++ recipientType) = None ->
  header_address E recipientType self = None ->
  recipients E self = (Raise e, self1) ->
  fst (_genRecipient E recipientType recipientInt self) = Raise e.
Proof.
  intros Hunset Hhead Hrs. revert Hhead.
  unfold _genRecipient, header_address, header_field.
  cbv zeta. rewrite run_try_return, Hunset, run_bind_headerInit.
  unfold logger_info.
  destruct (_header self) as [h|] eqn:Hh.
  - rewrite run_bind_bind, run_bind_getattr, Hh.
    destruct (header_getitem h recipientType) as [[|c w]|]; msteps.
    + intros _. rewrite Hh. msteps.
      now rewrite (run_bind_raises _ _ _ _ _ Hrs).
    + destruct (PyStr.replace (String c w) "," (__recipientSeparator E))
        as [|c' w'] eqn:Hr; [|discriminate].
      intros _. msteps. rewrite Hh. msteps.
      now rewrite (run_bind_raises _ _ _ _ _ Hrs).
    + intros _. rewrite Hh. msteps.
      now rewrite (run_bind_raises _ _ _ _ _ Hrs).
  - intros _. msteps. rewrite Hh. msteps.
    now rewrite (run_bind_raises _ _ _ _ _ Hrs).
Qed.

(** C1 (amended).  For every role, on first resolution: the resolved
    address is [address_source] with its white space normalised.  That
    source is the header field with every comma replaced by the
    separator when the header exists and both the field and the
    replaced value are not empty; otherwise the formatted recipients
    whose low four type bits equal the role code, joined by the
    separator and a space, when there is at least one; otherwise what
    the header lookup left, [None] or an empty string.  The
    normalisation applies to both sources: every run of spaces, CRs and
    LFs, the TAB of a continuation line included, becomes one space, so
    that a resolved string holds no CR, no LF and no two consecutive
    spaces.  The call returns whenever the header gives the address or
    the recipient list can be read; what the read of the recipient list
    raises is raised by the call. *)
Theorem genRecipient_address (E : Env) (recipientType : string)
    (recipientInt : Z) (self : MessageBase) :
  str_attrs self ("_" ++ recipientType) = None ->
  (forall rs self1,
      recipients E self = (Return rs, self1) ->
      exists value,
        fst (_genRecipient E recipientType recipientInt self) = Return value
        /\ value = option_map one_line_as_claimed
                     (address_source E recipientType recipientInt self rs)
        /\ (forall v, value = Some v ->
              PyStr.find v SP2 = -1
              /\ PyStr.has_char (ascii_of_nat 13) v = false
              /\ PyStr.has_char (ascii_of_nat 10) v = false))
  /\ (forall v,
         header_address E recipientType self = Some v ->
         fst (_genRecipient E recipientType recipientInt self)
         = Return (Some (one_line_as_claimed v)))
  /\ (header_address E recipientType self = None ->
      forall e self1,
        recipients E self = (Raise e, self1) ->
        fst (_genRecipient E recipientType recipientInt self) = Raise e).
Proof.
  intros Hunset. split; [|split].
  - intros rs self1 Hrs. eexists. split; [|split; [reflexivity|]].
    + rewrite (genRecipient_resolves E _ _ _ self1 rs Hunset Hrs).
      destruct (address_source E recipientType recipientInt self rs);
        [|reflexivity].
      cbn [option_map]. now rewrite single_line_as_claimed.
    + intros v Hv.
      destruct (address_source E recipientType recipientInt self rs) as [a|];
        [|discriminate].
      injection Hv as <-. rewrite <- single_line_as_claimed.
      apply single_line_shape.
  - intros v Hv. rewrite <- single_line_as_claimed.
    now apply genRecipient_from_header.
  - intros Hhead e self1 Hrs.
    now apply genRecipient_recipients_raise with (self1 := self1).
Qed.

Lemma genRecipient_address_witness :
  fst (_genRecipient env_bob "to" 1 fresh)
  = Return (Some "Bob Smith <bob@example.com>")
  /\ fst (_genRecipient env_folded "to" 1 self_folded)
     = Return (Some "Ann <a@example.com>; Bob Smith <bob@example.com>")
  /\ fst (_genRecipient env_short_path "to" 1 fresh) = Raise IndexError.
Proof.
  split; [|split].
  - destruct (proj1 (genRecipient_address env_bob "to" 1 fresh eq_refl)
                [{| r_type := 1;
                    r_formatted := "Bob  Smith <bob@example.com>" |}]
                _ eq_refl) as [value [Hrun [Hvalue _]]].
    rewrite Hrun, Hvalue. reflexivity.
  - exact (proj1 (proj2 (genRecipient_address env_folded "to" 1 self_folded
                           eq_refl))
             ("Ann <a@example.com>;" ++ CRLF ++ TAB
              ++ "Bob  Smith <bob@example.com>") eq_refl).
  - exact (proj2 (proj2 (genRecipient_address env_short_path "to" 1 fresh
                           eq_refl))
             eq_refl IndexError _ eq_refl).
Defined.

Example to_bob_carol :
  fst (to env_bob_carol fresh) = Return (Some "Bob; Carol")
  /\ fst (cc env_bob_carol fresh) = Return (Some "Dave")
  /\ fst (bcc env_bob_carol fresh) = Return None.
Proof. repeat split. Qed.

Example sender_alice :
  fst (sender env_alice fresh) = Return (Some "Alice <alice@example.com>").
Proof. reflexivity. Qed.

(** C1 as stated fails twice.  A recipient whose display name holds two
    spaces is resolved with one, where the claim gives the joined
    entries as they are; and an empty [To] field with no recipient is
    resolved to the empty string, where the claim gives [None]. *)
Lemma genRecipient_claim_fails :
  (fst (to env_bob fresh) = Return (Some "Bob Smith <bob@example.com>")
   /\ address_as_claimed env_bob "to" 1 fresh
        [{| r_type := 1; r_formatted := "Bob  Smith <bob@example.com>" |}]
      = Some "Bob  Smith <bob@example.com>"
   /\ fst (to env_bob fresh)
      <> Return (address_as_claimed env_bob "to" 1 fresh
                   [{| r_type := 1;
                       r_formatted := "Bob  Smith <bob@example.com>" |}]))
  /\ (header_field self_empty_to "to" = Some ""
      /\ fst (to env_empty_to self_empty_to) = Return (Some "")
      /\ address_as_claimed env_empty_to "to" 1 self_empty_to [] = None
      /\ fst (to env_empty_to self_empty_to)
         <> Return (address_as_claimed env_empty_to "to" 1 self_empty_to [])).
Proof.
  repeat split; try (vm_compute; reflexivity);
    vm_compute; intros H; discriminate H.
Qed.

(** ** Slots only fill up *)

Lemma le_refl (P : slot -> Prop) (a : MessageBase) : le P a a.
Proof. split; auto. Qed.

Lemma le_trans (P : slot -> Prop) (a b c : MessageBase) :
  le P a b -> le P b c -> le P a c.
Proof.
  intros [Hab Cab] [Hbc Cbc]. split.
  - intros k Hk v Hv. apply Hbc, Hab; assumption.
  - intros Hp Hbody. rewrite Cbc, Cab; auto.
    destruct (str_attrs a "_body") as [v|] eqn:Hv; [|congruence].
    specialize (Hab (SStr "_body") Hp (VStr v)). simpl in Hab.
    rewrite Hv in Hab. specialize (Hab eq_refl).
    destruct (str_attrs b "_body"); [discriminate | discriminate].
Qed.

Lemma le_weaken (P Q : slot -> Prop) (a b : MessageBase) :
  (forall k, P k -> Q k) -> le P a b -> le Q a b.
Proof.
  intros HPQ [Hs Hc]. split.
  - intros k Hk. apply Hs. intros Hp. apply Hk, HPQ, Hp.
  - intros Hq. apply Hc. intros Hp. apply Hq, HPQ, Hp.
Qed.

Lemma slot_eq_dec (j k : slot) : {j = k} + {j <> k}.
Proof. decide equality; apply string_dec. Qed.

(** A slot that was empty may be written freely. *)
Lemma le_fill (X : slot) (a b : MessageBase) :
  read X a = None -> le (eq X) a b -> le nowhere a b.
Proof.
  intros Hempty [Hs Hc]. split.
  - intros k _ v Hv. destruct (slot_eq_dec X k) as [<-|Hne].
    + rewrite Hempty in Hv. discriminate.
    + now apply Hs.
  - intros _ Hbody. destruct (slot_eq_dec X (SStr "_body")) as [->|Hne].
    + simpl in Hempty.
      destruct (str_attrs a "_body"); [discriminate | congruence].
    + now apply Hc.
Qed.

Lemma frame_ret {A : Type} (P : slot -> Prop) (a : A) : frame P (ret a).
Proof. intros self o s [= <- <-]. apply le_refl. Qed.

Lemma frame_raise {A : Type} (P : slot -> Prop) (e : exn) :
  frame P (@raise A e).
Proof. intros self o s [= <- <-]. apply le_refl. Qed.

Lemma frame_out_of_fuel {A : Type} (P : slot -> Prop) :
  frame P (@out_of_fuel A).
Proof. intros self o s [= <- <-]. apply le_refl. Qed.

Lemma frame_lift {A : Type} (P : slot -> Prop) (r : exn + A) :
  frame P (lift r).
Proof. destruct r; [apply frame_raise | apply frame_ret]. Qed.

Lemma frame_lift_outcome {A : Type} (P : slot -> Prop) (r : outcome A) :
  frame P (lift_outcome r).
Proof. intros self o s [= <- <-]. apply le_refl. Qed.

Lemma frame_getattr {A : Type} (P : slot -> Prop)
    (attr : MessageBase -> option A) :
  frame P (getattr attr).
Proof.
  intros self o s. unfold getattr.
  destruct (attr self); intros [= <- <-]; apply le_refl.
Qed.

Lemma frame_bind {A B : Type} (P : slot -> Prop) (m : M A) (k : A -> M B) :
  frame P m -> (forall a, frame P (k a)) -> frame P (bind m k).
Proof.
  intros Hm Hk self o s. unfold bind.
  destruct (m self) as [[a| e |] s1] eqn:Hrun; intros H.
  - eapply le_trans; [eapply Hm; eassumption | eapply Hk; eassumption].
  - injection H as <- <-. eapply Hm; eassumption.
  - injection H as <- <-. eapply Hm; eassumption.
Qed.

Lemma frame_weaken {A : Type} (P Q : slot -> Prop) (m : M A) :
  (forall k, P k -> Q k) -> frame P m -> frame Q m.
Proof.
  intros HPQ Hm self o s H. eapply le_weaken; [exact HPQ|]. eapply Hm, H.
Qed.

Lemma frame_nowhere {A : Type} (P : slot -> Prop) (m : M A) :
  frame nowhere m -> frame P m.
Proof. apply frame_weaken. intros k []. Qed.

Lemma frame_try_except {A : Type} (P : slot -> Prop) (body : M A)
    (catches : exn -> bool) (handler : exn -> M A) :
  frame P body -> (forall e, frame P (handler e)) ->
  frame P (try_except body catches handler).
Proof.
  intros Hb Hh self o s. unfold try_except.
  destruct (body self) as [[a| e |] s1] eqn:Hrun.
  - intros [= <- <-]. eapply Hb; eassumption.
  - destruct (catches e).
    + intros H. eapply le_trans; [eapply Hb; eassumption|].
      eapply Hh; eassumption.
    + intros [= <- <-]. eapply Hb; eassumption.
  - intros [= <- <-]. eapply Hb; eassumption.
Qed.

Lemma frame_for_each {A : Type} (P : slot -> Prop) (items : list A)
    (body : A -> M unit) :
  (forall x, frame P (body x)) -> frame P (for_each items body).
Proof.
  intros Hb. induction items as [|x items IH]; simpl.
  - apply frame_ret.
  - apply frame_bind; [apply Hb | intros _; exact IH].
Qed.

(** [try: return self.attr  except AttributeError: ...] fills the slot
    behind [attr], whatever the handler writes to it on the way. *)
Lemma frame_try_return {A : Type} (X : slot) (attr : MessageBase -> option A)
    (handler : M A) :
  (forall self, attr self = None -> read X self = None) ->
  frame (eq X) handler ->
  frame nowhere (try_return attr handler).
Proof.
  intros Hattr Hh self o s. unfold try_return.
  destruct (attr self) eqn:Ha.
  - intros [= <- <-]. apply le_refl.
  - intros H. apply (le_fill X); [now apply Hattr | eapply Hh, H].
Qed.

(** The assignments. *)
Lemma read_with_str (name : string) (v : option string) self k :
  k <> SStr name -> read k (with_str name v self) = read k self.
Proof.
  intros Hk. destruct k; try reflexivity. simpl. unfold upd.
  destruct (String.eqb name0 name) eqn:Heq; [|reflexivity].
  apply String.eqb_eq in Heq. congruence.
Qed.

Lemma read_with_bytes (name : string) (v : option bytes) self k :
  k <> SBytes name -> read k (with_bytes name v self) = read k self.
Proof.
  intros Hk. destruct k; try reflexivity. simpl. unfold upd.
  destruct (String.eqb name0 name) eqn:Heq; [|reflexivity].
  apply String.eqb_eq in Heq. congruence.
Qed.

Lemma frame_modify (P : slot -> Prop) (f : MessageBase -> MessageBase) :
  (forall self k, ~ P k -> read k (f self) = read k self) ->
  (forall self, __crlf (f self) = __crlf self) ->
  frame P (modify f).
Proof.
  intros Hread Hcrlf self o s [= <- <-]. split.
  - intros k Hk v Hv. now rewrite Hread.
  - intros _ _. apply Hcrlf.
Qed.

Lemma frame_with_str (P : slot -> Prop) (name : string) (v : option string) :
  P (SStr name) -> frame P (modify (with_str name v)).
Proof.
  intros Hp. apply frame_modify; [|reflexivity].
  intros self k Hk. apply read_with_str. congruence.
Qed.

Lemma frame_with_bytes (P : slot -> Prop) (name : string) (v : option bytes) :
  P (SBytes name) -> frame P (modify (with_bytes name v)).
Proof.
  intros Hp. apply frame_modify; [|reflexivity].
  intros self k Hk. apply read_with_bytes. congruence.
Qed.

Lemma frame_with_attachments (P : slot -> Prop) (v : list Attachment) :
  P SAttachments -> frame P (modify (with_attachments v)).
Proof.
  intros Hp. apply frame_modify; [|reflexivity].
  intros self k Hk. destruct k; try reflexivity. contradiction.
Qed.

Lemma frame_with_recipients (P : slot -> Prop) (v : list Recipient) :
  P SRecipients -> frame P (modify (with_recipients v)).
Proof.
  intros Hp. apply frame_modify; [|reflexivity].
  intros self k Hk. destruct k; try reflexivity. contradiction.
Qed.

Lemma frame_with_header (P : slot -> Prop) (v : Header) :
  P SHeader -> frame P (modify (with_header v)).
Proof.
  intros Hp. apply frame_modify; [|reflexivity].
  intros self k Hk. destruct k; try reflexivity. contradiction.
Qed.

Lemma frame_with_headerDict (P : slot -> Prop) (v : Header) :
  P SHeaderDict -> frame P (modify (with_headerDict v)).
Proof.
  intros Hp. apply frame_modify; [|reflexivity].
  intros self k Hk. destruct k; try reflexivity. contradiction.
Qed.

Lemma frame_with_deencapsultor (P : slot -> Prop)
    (v : option DeEncapsulator) :
  P SDeencapsultor -> frame P (modify (with_deencapsultor v)).
Proof.
  intros Hp. apply frame_modify; [|reflexivity].
  intros self k Hk. destruct k; try reflexivity. contradiction.
Qed.

Lemma frame_attachmentsReady (P : slot -> Prop) :
  frame P (modify (with_attachmentsReady true)).
Proof.
  intros self o s [= <- <-]. split.
  - intros k Hk v Hv. destruct k; try exact Hv. simpl in *.
    now destruct (__attachmentsReady self).
  - reflexivity.
Qed.

(** [__crlf] is written while [body] fills [_body]. *)
Lemma frame_with_crlf (P : slot -> Prop) (v : string) :
  P (SStr "_body") -> frame P (modify (with_crlf v)).
Proof.
  intros Hp self o s [= <- <-]. split.
  - intros k Hk w Hw. destruct k; exact Hw.
  - intros Hn. contradiction.
Qed.

Lemma frame_headerInit (P : slot -> Prop) : frame P headerInit.
Proof.
  intros self o s. unfold headerInit.
  destruct (_header self); intros [= <- <-]; apply le_refl.
Qed.

Create HintDb frames.

Ltac frame_step :=
  lazymatch goal with
  | |- frame _ (ret _) => apply frame_ret
  | |- frame _ (raise _) => apply frame_raise
  | |- frame _ out_of_fuel => apply frame_out_of_fuel
  | |- frame _ (lift _) => apply frame_lift
  | |- frame _ (lift_outcome _) => apply frame_lift_outcome
  | |- frame _ (getattr _) => apply frame_getattr
  | |- frame _ headerInit => apply frame_headerInit
  | |- frame _ (logger_info _) => apply frame_ret
  | |- frame _ (logger_debug _) => apply frame_ret
  | |- frame _ (logger_error _) => apply frame_ret
  | |- frame _ (logger_exception _) => apply frame_ret
  | |- frame _ (logger_into _) => apply frame_raise
  | |- frame _ (bytes_replace_with_str _ _ _) => apply frame_raise
  | |- frame _ (bind _ _) => apply frame_bind; [| intro]
  | |- frame _ (try_except _ _ _) => apply frame_try_except; [| intro]
  | |- frame _ (for_each _ _) => apply frame_for_each; intro
  | |- frame _ (modify (with_str _ _)) => apply frame_with_str; reflexivity
  | |- frame _ (modify (with_bytes _ _)) =>
      apply frame_with_bytes; reflexivity
  | |- frame _ (modify (with_attachments _)) =>
      apply frame_with_attachments; reflexivity
  | |- frame _ (modify (with_recipients _)) =>
      apply frame_with_recipients; reflexivity
  | |- frame _ (modify (with_header _)) => apply frame_with_header; reflexivity
  | |- frame _ (modify (with_headerDict _)) =>
      apply frame_with_headerDict; reflexivity
  | |- frame _ (modify (with_deencapsultor _)) =>
      apply frame_with_deencapsultor; reflexivity
  | |- frame _ (modify (with_attachmentsReady true)) =>
      apply frame_attachmentsReady
  | |- frame _ (modify (with_crlf _)) => apply frame_with_crlf; reflexivity
  | |- frame _ (match ?x with _ => _ end) => destruct x
  | |- frame _ _ => apply frame_nowhere; solve [auto with frames]
  end.

Ltac frames := cbv zeta; repeat frame_step.

Ltac cached_frame X :=
  apply (frame_try_return X);
  [ let self := fresh "self" in
    let H := fresh "H" in
    intros self H; unfold read; rewrite H; reflexivity
  | frames ].

Section Frames.

Variable E : Env.

Lemma frame_ensureSet_str (variable streamID : string) :
  frame nowhere (_ensureSet_str E variable streamID).
Proof. unfold _ensureSet_str. cached_frame (SStr variable). Qed.

Lemma frame_ensureSet_bytes (variable streamID : string) :
  frame nowhere (_ensureSet_bytes E variable streamID).
Proof. unfold _ensureSet_bytes. cached_frame (SBytes variable). Qed.

Lemma frame_date : frame nowhere (date E).
Proof. unfold date. cached_frame (SStr "_date"). Qed.

Lemma frame_recipients : frame nowhere (recipients E).
Proof. unfold recipients. cached_frame SRecipients. Qed.

Lemma frame_build_attachment (attachmentDir : string) :
  frame (eq SAttachments) (build_attachment E attachmentDir).
Proof. unfold build_attachment, append_attachment. frames. Qed.

Lemma frame_replay_waiting : frame (eq SAttachments) (replay_waiting E).
Proof. unfold replay_waiting. frames. Qed.

Lemma frame_attachments : frame nowhere (attachments E).
Proof.
  unfold attachments. apply (frame_try_return SAttachments).
  - intros self H; unfold read; rewrite H; reflexivity.
  - apply frame_bind; [apply frame_lift_outcome | intros dirs].
    apply frame_bind; [frame_step | intros _].
    apply frame_bind;
      [apply frame_for_each; intro; apply frame_build_attachment | intros _].
    apply frame_bind; [frame_step | intros _].
    apply frame_bind; [apply frame_replay_waiting | intros _].
    frame_step.
Qed.

#[local] Hint Resolve frame_ensureSet_str frame_ensureSet_bytes frame_date
  frame_recipients frame_attachments : frames.

Lemma frame_genRecipient (recipientType : string) (recipientInt : Z) :
  frame nowhere (_genRecipient E recipientType recipientInt).
Proof.
  unfold _genRecipient. cbv zeta.
  cached_frame (SStr ("_" ++ recipientType)).
Qed.

Lemma frame_to : frame nowhere (to E).
Proof. apply frame_genRecipient. Qed.

Lemma frame_cc : frame nowhere (cc E).
Proof. apply frame_genRecipient. Qed.

Lemma frame_bcc : frame nowhere (bcc E).
Proof. apply frame_genRecipient. Qed.

Lemma frame_messageId : frame nowhere (messageId E).
Proof. unfold messageId. cached_frame (SStr "_messageId"). Qed.

Lemma frame_sender : frame nowhere (sender E).
Proof. unfold sender. cached_frame (SStr "_sender"). Qed.

#[local] Hint Resolve frame_to frame_cc frame_bcc frame_messageId
  frame_sender : frames.

Lemma frame_header : frame nowhere (header E).
Proof. unfold header. cached_frame SHeader. Qed.

#[local] Hint Resolve frame_header : frames.

Lemma frame_headerDict : frame nowhere (headerDict E).
Proof. unfold headerDict. cached_frame SHeaderDict. Qed.

Lemma frame_compressedRtf : frame nowhere (compressedRtf E).
Proof. apply frame_ensureSet_bytes. Qed.

Lemma frame_inReplyTo : frame nowhere (inReplyTo E).
Proof. apply frame_ensureSet_str. Qed.

Lemma frame_subject : frame nowhere (subject E).
Proof. apply frame_ensureSet_str. Qed.

#[local] Hint Resolve frame_headerDict frame_compressedRtf frame_inReplyTo
  frame_subject : frames.

Lemma frame_rtfBody : frame nowhere (rtfBody E).
Proof. unfold rtfBody. cached_frame (SBytes "_rtfBody"). Qed.

#[local] Hint Resolve frame_rtfBody : frames.

Lemma frame_deencapsulatedRtf : frame nowhere (deencapsulatedRtf E).
Proof. unfold deencapsulatedRtf. cached_frame SDeencapsultor. Qed.

#[local] Hint Resolve frame_deencapsulatedRtf : frames.

Lemma frame_deencapsulated_as (t : string) :
  frame nowhere (deencapsulated_as E t).
Proof. unfold deencapsulated_as. frames. Qed.

#[local] Hint Resolve frame_deencapsulated_as : frames.

Lemma frame_body : frame nowhere (body E).
Proof. unfold body. cached_frame (SStr "_body"). Qed.

#[local] Hint Resolve frame_body : frames.

Lemma frame_crlf : frame nowhere (crlf E).
Proof. unfold crlf. frames. Qed.

Lemma frame_htmlBody : frame nowhere (htmlBody E).
Proof. unfold htmlBody. cached_frame (SBytes "_htmlBody"). Qed.

Lemma frame_isRead : frame nowhere (isRead E).
Proof. unfold isRead. frames. Qed.

Lemma frame_parsedDate : frame nowhere (parsedDate E).
Proof. unfold parsedDate. frames. Qed.

#[local] Hint Resolve frame_crlf frame_htmlBody frame_isRead
  frame_parsedDate : frames.

Lemma frame_defaultFolderName : frame nowhere (defaultFolderName E).
Proof.
  unfold defaultFolderName. cached_frame (SStr "_defaultFolderName").
Qed.

#[local] Hint Resolve frame_defaultFolderName : frames.

(** Reading a field only fills slots. *)
Lemma frame_resolve (f : field) : frame nowhere (resolve E f).
Proof. destruct f; unfold resolve; frames. Qed.

Lemma le_reads (fs : list field) :
  forall self, le nowhere self (reads E fs self).
Proof.
  induction fs as [|f fs IH]; intros self; simpl.
  - apply le_refl.
  - eapply le_trans; [|apply IH].
    destruct (resolve E f self) as [o s] eqn:H. simpl.
    eapply frame_resolve, H.
Qed.

End Frames.

(** ** What is returned is what is stored *)

Lemma caches_try_return {A : Type} (attr : MessageBase -> option A)
    (h : M A) :
  caches attr h -> caches attr (try_return attr h).
Proof.
  intros Hh self v s. unfold try_return.
  destruct (attr self) eqn:Ha; [now intros [= <- <-] | apply Hh].
Qed.

Lemma caches_bind {A B : Type} (attr : MessageBase -> option B) (m : M A)
    (k : A -> M B) :
  (forall a, caches attr (k a)) -> caches attr (bind m k).
Proof.
  intros Hk self v s. unfold bind.
  destruct (m self) as [[a| e |] s1]; [apply Hk | discriminate | discriminate].
Qed.

Lemma caches_getattr {A : Type} (attr : MessageBase -> option A) :
  caches attr (getattr attr).
Proof.
  intros self v s. unfold getattr.
  destruct (attr self) eqn:Ha; [now intros [= <- <-] | discriminate].
Qed.

Lemma caches_raise {A : Type} (attr : MessageBase -> option A) (e : exn) :
  caches attr (raise e).
Proof. intros self v s; discriminate. Qed.

Lemma caches_out_of_fuel {A : Type} (attr : MessageBase -> option A) :
  caches attr out_of_fuel.
Proof. intros self v s; discriminate. Qed.

Lemma caches_set_ret {A : Type} (attr : MessageBase -> option A)
    (f : MessageBase -> MessageBase) (v : A) :
  (forall self, attr (f self) = Some v) ->
  caches attr (bind (modify f) (fun _ => ret v)).
Proof. intros Hf self w s [= <- <-]. apply Hf. Qed.

Lemma str_attrs_with_str (name : string) (v : option string) self :
  str_attrs (with_str name v self) name = Some v.
Proof. simpl. unfold upd. now rewrite String.eqb_refl. Qed.

Lemma bytes_attrs_with_bytes (name : string) (v : option bytes) self :
  bytes_attrs (with_bytes name v self) name = Some v.
Proof. simpl. unfold upd. now rewrite String.eqb_refl. Qed.

Ltac caches_step :=
  lazymatch goal with
  | |- caches _ (try_return _ _) => apply caches_try_return
  | |- caches _ (bind (modify (with_str _ _)) (fun _ => ret _)) =>
      apply caches_set_ret; intro; apply str_attrs_with_str
  | |- caches _ (bind (modify (with_bytes _ _)) (fun _ => ret _)) =>
      apply caches_set_ret; intro; apply bytes_attrs_with_bytes
  | |- caches _ (bind _ _) => apply caches_bind; intro
  | |- caches _ (getattr _) => apply caches_getattr
  | |- caches _ (raise _) => apply caches_raise
  | |- caches _ out_of_fuel => apply caches_out_of_fuel
  | |- caches _ (match ?x with _ => _ end) => destruct x
  end.

Ltac caching := cbv zeta; repeat caches_step.

Section Caches.

Variable E : Env.

Lemma caches_ensureSet_str (variable streamID : string) :
  caches (fun self => str_attrs self variable)
    (_ensureSet_str E variable streamID).
Proof. unfold _ensureSet_str. caching. Qed.

Lemma caches_ensureSet_bytes (variable streamID : string) :
  caches (fun self => bytes_attrs self variable)
    (_ensureSet_bytes E variable streamID).
Proof. unfold _ensureSet_bytes. caching. Qed.

Lemma caches_date : caches (fun self => str_attrs self "_date") (date E).
Proof. unfold date. caching. Qed.

Lemma caches_recipients : caches _recipients (recipients E).
Proof. unfold recipients. caching. Qed.

Lemma caches_attachments : caches _attachments (attachments E).
Proof. unfold attachments. caching. Qed.

Lemma caches_genRecipient (recipientType : string) (recipientInt : Z) :
  caches (fun self => str_attrs self ("_" ++ recipientType))
    (_genRecipient E recipientType recipientInt).
Proof. unfold _genRecipient. caching. Qed.

Lemma caches_messageId :
  caches (fun self => str_attrs self "_messageId") (messageId E).
Proof. unfold messageId. caching. Qed.

Lemma caches_sender :
  caches (fun self => str_attrs self "_sender") (sender E).
Proof.
  unfold sender. apply caches_try_return. intros self v s.
  rewrite run_bind_headerInit. unfold logger_info.
  destruct (_header self) as [h|] eqn:Hh.
  - rewrite run_bind_bind, run_bind_getattr, Hh.
    destruct (header_getitem h "from") as [from|]; msteps.
    + intros [= <- <-]. apply str_attrs_with_str.
    + destruct (getStringStream E "__substg1.0_0C1A");
        [destruct (getStringStream E "__substg1.0_5D01")|];
        intros [= <- <-]; apply str_attrs_with_str.
  - msteps.
    destruct (getStringStream E "__substg1.0_0C1A");
      [destruct (getStringStream E "__substg1.0_5D01")|];
      intros [= <- <-]; apply str_attrs_with_str.
Qed.

Lemma caches_header : caches _header (header E).
Proof. unfold header. caching. Qed.

Lemma caches_headerDict : caches _headerDict (headerDict E).
Proof. unfold headerDict. caching. Qed.

Lemma caches_rtfBody :
  caches (fun self => bytes_attrs self "_rtfBody") (rtfBody E).
Proof. unfold rtfBody. caching. Qed.

Lemma caches_deencapsulatedRtf :
  caches _deencapsultor (deencapsulatedRtf E).
Proof. unfold deencapsulatedRtf. caching. Qed.

Lemma caches_body : caches (fun self => str_attrs self "_body") (body E).
Proof. unfold body. caching. Qed.

Lemma caches_htmlBody :
  caches (fun self => bytes_attrs self "_htmlBody") (htmlBody E).
Proof. unfold htmlBody. caching. Qed.

Lemma caches_defaultFolderName :
  caches (fun self => str_attrs self "_defaultFolderName")
    (defaultFolderName E).
Proof. unfold defaultFolderName. caching. Qed.

End Caches.

(** ** A cached field is read back unchanged *)

Lemma stable_try_return {A : Type} (X : slot) (inj : A -> pyval)
    (attr : MessageBase -> option A) (h : M A) :
  (forall self, read X self = option_map inj (attr self)) ->
  (forall a b, inj a = inj b -> a = b) ->
  caches attr (try_return attr h) ->
  stable (try_return attr h).
Proof.
  intros Hread Hinj Hc self v s s2 Hrun [Hle _].
  apply Hc in Hrun.
  specialize (Hle X (fun F => F) (inj v)).
  rewrite !Hread, Hrun in Hle. specialize (Hle eq_refl).
  unfold try_return. destruct (attr s2) as [w|]; [|discriminate].
  injection Hle as Hw. apply Hinj in Hw. now subst.
Qed.

Lemma stable_map {A B : Type} (m : M A) (g : A -> B) :
  stable m -> stable (bind m (fun v => ret (g v))).
Proof.
  intros Hm self w s s2. unfold bind.
  destruct (m self) as [[v| e |] s1] eqn:Hrun; try discriminate.
  intros [= <- <-] Hle. now rewrite (Hm _ _ _ _ Hrun Hle).
Qed.

Ltac stable_cached X inj lemma :=
  apply (stable_try_return X inj);
  [ reflexivity
  | let a := fresh in let b := fresh in let H := fresh in
    intros a b H; now injection H
  | apply lemma ].

Section Stability.

Variable E : Env.

Lemma stable_ensureSet_str (variable streamID : string) :
  stable (_ensureSet_str E variable streamID).
Proof.
  stable_cached (SStr variable) VStr
    (caches_ensureSet_str E variable streamID).
Qed.

Lemma stable_ensureSet_bytes (variable streamID : string) :
  stable (_ensureSet_bytes E variable streamID).
Proof.
  stable_cached (SBytes variable) VBytes
    (caches_ensureSet_bytes E variable streamID).
Qed.

Lemma stable_date : stable (date E).
Proof. stable_cached (SStr "_date") VStr (caches_date E). Qed.

Lemma stable_recipients : stable (recipients E).
Proof. stable_cached SRecipients VRecipients (caches_recipients E). Qed.

Lemma stable_attachments : stable (attachments E).
Proof. stable_cached SAttachments VAttachments (caches_attachments E). Qed.

Lemma stable_genRecipient (recipientType : string) (recipientInt : Z) :
  stable (_genRecipient E recipientType recipientInt).
Proof.
  stable_cached (SStr ("_" ++ recipientType)) VStr
    (caches_genRecipient E recipientType recipientInt).
Qed.

Lemma stable_messageId : stable (messageId E).
Proof. stable_cached (SStr "_messageId") VStr (caches_messageId E). Qed.

Lemma stable_sender : stable (sender E).
Proof. stable_cached (SStr "_sender") VStr (caches_sender E). Qed.

Lemma stable_header : stable (header E).
Proof. stable_cached SHeader VHeader (caches_header E). Qed.

Lemma stable_headerDict : stable (headerDict E).
Proof. stable_cached SHeaderDict VHeader (caches_headerDict E). Qed.

Lemma stable_rtfBody : stable (rtfBody E).
Proof. stable_cached (SBytes "_rtfBody") VBytes (caches_rtfBody E). Qed.

Lemma stable_deencapsulatedRtf : stable (deencapsulatedRtf E).
Proof.
  stable_cached SDeencapsultor VDeencapsulator (caches_deencapsulatedRtf E).
Qed.

Lemma stable_body : stable (body E).
Proof. stable_cached (SStr "_body") VStr (caches_body E). Qed.

Lemma stable_htmlBody : stable (htmlBody E).
Proof. stable_cached (SBytes "_htmlBody") VBytes (caches_htmlBody E). Qed.

Lemma stable_defaultFolderName : stable (defaultFolderName E).
Proof.
  stable_cached (SStr "_defaultFolderName") VStr
    (caches_defaultFolderName E).
Qed.

(** The three fields without a cache of their own. *)
Lemma stable_isRead : stable (isRead E).
Proof.
  intros self v s s2. unfold isRead.
  destruct (mainProperties E "0E070003"); [|discriminate].
  now intros [= <- <-] _.
Qed.

Lemma stable_parsedDate : stable (parsedDate E).
Proof. unfold parsedDate. apply stable_map, stable_date. Qed.

Lemma stable_crlf : stable (crlf E).
Proof.
  intros self v s s2. unfold crlf, bind.
  destruct (body E self) as [[b| e |] s1] eqn:Hrun; try discriminate.
  unfold getattr. destruct (__crlf s1) as [c|] eqn:Hc; [|discriminate].
  intros [= <- <-] Hle.
  rewrite (stable_body _ _ _ _ Hrun Hle).
  apply caches_body in Hrun. destruct Hle as [_ Hcrlf].
  rewrite Hcrlf, Hc; [reflexivity | intros [] | congruence].
Qed.

Lemma stable_resolve (f : field) : stable (resolve E f).
Proof.
  destruct f; unfold resolve; apply stable_map;
    first [ apply stable_attachments | apply stable_genRecipient
          | apply stable_body | apply stable_ensureSet_bytes
          | apply stable_ensureSet_str | apply stable_crlf
          | apply stable_date | apply stable_deencapsulatedRtf
          | apply stable_defaultFolderName | apply stable_header
          | apply stable_headerDict | apply stable_htmlBody
          | apply stable_isRead | apply stable_messageId
          | apply stable_parsedDate | apply stable_recipients
          | apply stable_rtfBody | apply stable_sender ].
Qed.

End Stability.

(** C5.  Once a derived field has been resolved, every later read of
    it, after any sequence of reads of this or other fields (whether
    they return or raise), returns the same value and leaves the object
    as it found it: the stored value is returned, nothing is computed
    or assigned again. *)
Theorem resolved_field_never_changes (E : Env) (f : field)
    (self s : MessageBase) (v : pyval) :
  resolve E f self = (Return v, s) ->
  forall fs : list field,
    resolve E f (reads E fs s) = (Return v, reads E fs s).
Proof.
  intros Hrun fs.
  exact (stable_resolve E f self v s (reads E fs s) Hrun (le_reads E fs s)).
Qed.

Lemma resolved_field_never_changes_witness :
  resolve env_bob F_to fresh
  = (Return (VStr (Some "Bob Smith <bob@example.com>")),
     snd (resolve env_bob F_to fresh))
  /\ resolve env_bob F_to
       (reads env_bob [F_sender; F_header; F_to]
          (snd (resolve env_bob F_to fresh)))
     = (Return (VStr (Some "Bob Smith <bob@example.com>")),
        reads env_bob [F_sender; F_header; F_to]
          (snd (resolve env_bob F_to fresh))).
Proof.
  assert (H : resolve env_bob F_to fresh
              = (Return (VStr (Some "Bob Smith <bob@example.com>")),
                 snd (resolve env_bob F_to fresh)))
    by (vm_compute; reflexivity).
  split; [exact H|].
  exact (resolved_field_never_changes env_bob F_to fresh _ _ H
           [F_sender; F_header; F_to]).
Defined.

(** ** Folder name *)

Lemma run_date (E : Env) self :
  date E self
  = (Return (date_of E self),
     match str_attrs self "_date" with
     | Some _ => self
     | None => with_str "_date" (prop_date E) self
     end).
Proof.
  unfold date, date_of. rewrite run_try_return.
  destruct (str_attrs self "_date"); reflexivity.
Qed.

Lemma run_ensureSet_str (E : Env) (variable streamID : string) self :
  _ensureSet_str E variable streamID self
  = (Return (match str_attrs self variable with
             | Some v => v
             | None => getStringStream E streamID
             end),
     match str_attrs self variable with
     | Some _ => self
     | None => with_str variable (getStringStream E streamID) self
     end).
Proof.
  unfold _ensureSet_str. rewrite run_try_return.
  destruct (str_attrs self variable); reflexivity.
Qed.

Lemma run_ensureSet_bytes (E : Env) (variable streamID : string) self :
  _ensureSet_bytes E variable streamID self
  = (Return (match bytes_attrs self variable with
             | Some v => v
             | None => getStream E streamID
             end),
     match bytes_attrs self variable with
     | Some _ => self
     | None => with_bytes variable (getStream E streamID) self
     end).
Proof.
  unfold _ensureSet_bytes. rewrite run_try_return.
  destruct (bytes_attrs self variable); reflexivity.
Qed.

(** C9 (amended).  The default folder name is the parsed send date
    written as year, month, day, an underscore, hour and minute (each
    zero-padded to two digits at least, the year in full), or
    "UnknownDate" when the date does not parse; then one space; then
    the sanitized subject, or "[No subject]" when the subject is absent
    or empty. *)
Theorem defaultFolderName_format (E : Env) (self : MessageBase) :
  str_attrs self "_defaultFolderName" = None ->
  fst (defaultFolderName E self)
  = Return
      (Some
         (match parsedate E (date_of E self) with
          | Some d =>
              format_02d (tm_year d) ++ "-" ++ format_02d (tm_mon d) ++ "-"
              ++ format_02d (tm_mday d) ++ "_" ++ format_02d (tm_hour d)
              ++ format_02d (tm_min d)
          | None => "UnknownDate"
          end
          ++ " "
          ++ match subject_of E self with
             | Some (String c s) => prepareFilename E (String c s)
             | _ => "[No subject]"
             end)).
Proof.
  intros Hunset. unfold defaultFolderName, parsedDate, subject.
  rewrite run_try_return, Hunset. cbv zeta.
  rewrite run_bind_bind, (run_bind_of _ _ _ _ _ (run_date E self)).
  msteps. set (s1 := match str_attrs self "_date" with
                     | Some _ => self
                     | None => with_str "_date" (prop_date E) self
                     end).
  assert (Hsub : str_attrs s1 "_subject" = str_attrs self "_subject")
    by (unfold s1; destruct (str_attrs self "_date"); reflexivity).
  rewrite (run_bind_of _ _ _ _ _ (run_ensureSet_str E _ _ s1)).
  rewrite Hsub. unfold subject_of.
  destruct (str_attrs self "_subject") as [v|] eqn:Hv.
  - destruct v as [[|c subj]|]; msteps; try reflexivity.
    rewrite (run_bind_of _ _ _ _ _ (run_ensureSet_str E _ _ s1)).
    rewrite Hsub. msteps. reflexivity.
  - destruct (getStringStream E "__substg1.0_0037") as [[|c subj]|] eqn:Hg;
      msteps; try reflexivity.
Qed.

Lemma defaultFolderName_format_witness :
  str_attrs fresh "_defaultFolderName" = None
  /\ fst (defaultFolderName env_dated fresh)
     = Return (Some "2009-11-16_1332 Hi").
Proof.
  split; [reflexivity|].
  exact (defaultFolderName_format env_dated fresh eq_refl).
Defined.

(** C9 as stated fails: for a message sent on 16 November 2009 at 13:32
    the name starts with "2009-11-16_1332", not with the claimed
    "11-16-09_1332". *)
Lemma defaultFolderName_claim_fails :
  fst (defaultFolderName env_dated fresh) = Return (Some "2009-11-16_1332 Hi")
  /\ parsedate env_dated (date_of env_dated fresh) = Some nov_16
  /\ date_as_claimed nov_16 = "11-16-09_1332"
  /\ String.prefix (date_as_claimed nov_16) "2009-11-16_1332 Hi" = false
  /\ fst (defaultFolderName env_dated fresh)
     <> Return (Some (date_as_claimed nov_16 ++ "Hi"))
  /\ fst (defaultFolderName env_dated fresh)
     <> Return (Some (date_as_claimed nov_16 ++ " Hi")).
Proof.
  repeat split; try (vm_compute; reflexivity);
    vm_compute; intros H; discriminate H.
Qed.

(** ** Header *)

(** C7 (amended).  [headerInit()] tells whether [_header] has been
    assigned, not where the header came from.  Once [header] has been
    resolved it returns [True], whether the header was parsed from the
    raw stream or synthesized because there was none; it returns
    [False] only before that.  In particular, when a header is
    synthesized, [date], [sender], [to], [cc], [bcc] and [messageId]
    are resolved one after the other, each from an object on which
    [headerInit()] still returns [False], and [_header] is assigned
    only after the last of them. *)
Theorem headerInit_after_header (E : Env) (self s : MessageBase) (h : Header) :
  header E self = (Return h, s) ->
  _header s = Some h
  /\ headerInit s = (Return true, s)
  /\ (_header self = None -> headerInit self = (Return false, self))
  /\ (_header self = None ->
      truthy_str (getStringStream E "__substg1.0_007D") = false ->
      exists vd s1 vf s2 vt s3 vc s4 vb s5 vm s6,
        date E self = (Return vd, s1)
        /\ sender E s1 = (Return vf, s2)
        /\ to E s2 = (Return vt, s3)
        /\ cc E s3 = (Return vc, s4)
        /\ bcc E s4 = (Return vb, s5)
        /\ messageId E s5 = (Return vm, s6)
        /\ Forall (fun st => headerInit st = (Return false, st))
             [self; s1; s2; s3; s4; s5; s6]
        /\ s = with_header h s6).
Proof.
  intros Hrun. pose proof (caches_header E _ _ _ Hrun) as Hset.
  split; [exact Hset|]. split; [|split].
  - unfold headerInit. now rewrite Hset.
  - intros Hnone. unfold headerInit. now rewrite Hnone.
  - intros Hnone Htext. unfold header in Hrun.
    rewrite run_try_return, Hnone in Hrun. cbv zeta in Hrun.
    assert (Hsynth :
      ((logger_info "Header is empty or was not found." ;;
        v <- date E ;;
       v0 <- sender E ;;
       v1 <- to E ;;
       v2 <- cc E ;;
       v3 <- bcc E ;;
       v4 <- messageId E ;;
       modify
         (with_header
            (add_header
               (add_header
                  (add_header
                     (add_header
                        (add_header
                           (add_header
                              (add_header (parsestr E "") "Date" v)
                              "From" v0) "To" v1) "Cc" v2) "Bcc" v3)
                  "Message-Id" v4) "Authentication-Results" None))) ;;
       getattr _header) self = (Return h, s)).
    { destruct (getStringStream E "__substg1.0_007D") as [[|c t]|];
        [exact Hrun | discriminate Htext | exact Hrun]. }
    clear Hrun.
    apply bind_returns in Hsynth as [u1 [s7 [Hsynth Hget]]].
    apply bind_returns in Hsynth as [u0 [s0 [Hlog Hsynth]]].
    unfold logger_info in Hlog. injection Hlog as _ <-.
    apply bind_returns in Hsynth as [vd [s1 [H1 Hsynth]]].
    apply bind_returns in Hsynth as [vf [s2 [H2 Hsynth]]].
    apply bind_returns in Hsynth as [vt [s3 [H3 Hsynth]]].
    apply bind_returns in Hsynth as [vc [s4 [H4 Hsynth]]].
    apply bind_returns in Hsynth as [vb [s5 [H5 Hsynth]]].
    apply bind_returns in Hsynth as [vm [s6 [H6 Hsynth]]].
    injection Hsynth as _ <-.
    unfold getattr in Hget. cbn [_header with_header] in Hget.
    injection Hget as <- <-.
    pose proof (date_keeps_header E self) as K1. rewrite H1 in K1.
    pose proof (sender_keeps_header E s1) as K2. rewrite H2 in K2.
    pose proof (genRecipient_keeps_header E "to" 1 s2) as K3.
    unfold to in H3. rewrite H3 in K3.
    pose proof (genRecipient_keeps_header E "cc" 2 s3) as K4.
    unfold cc in H4. rewrite H4 in K4.
    pose proof (genRecipient_keeps_header E "bcc" 3 s4) as K5.
    unfold bcc in H5. rewrite H5 in K5.
    pose proof (messageId_keeps_header E s5) as K6. rewrite H6 in K6.
    cbn [snd] in K1, K2, K3, K4, K5, K6.
    assert (N1 : _header s1 = None) by congruence.
    assert (N2 : _header s2 = None) by congruence.
    assert (N3 : _header s3 = None) by congruence.
    assert (N4 : _header s4 = None) by congruence.
    assert (N5 : _header s5 = None) by congruence.
    assert (N6 : _header s6 = None) by congruence.
    exists vd, s1, vf, s2, vt, s3, vc, s4, vb, s5, vm, s6.
    repeat (split; [assumption|]).
    split; [|reflexivity].
    repeat constructor; unfold headerInit;
      rewrite ?Hnone, ?N1, ?N2, ?N3, ?N4, ?N5, ?N6; reflexivity.
Qed.

Lemma headerInit_after_header_witness :
  header env_plain fresh
  = (Return [("Date", Some ""); ("From", Some ""); ("To", Some "");
             ("Cc", Some ""); ("Bcc", Some ""); ("Message-Id", Some "");
             ("Authentication-Results", Some "")],
     snd (header env_plain fresh))
  /\ _header (snd (header env_plain fresh))
     = Some [("Date", Some ""); ("From", Some ""); ("To", Some "");
             ("Cc", Some ""); ("Bcc", Some ""); ("Message-Id", Some "");
             ("Authentication-Results", Some "")]
  /\ headerInit (snd (header env_plain fresh))
     = (Return true, snd (header env_plain fresh))
  /\ headerInit fresh = (Return false, fresh)
  /\ exists vd s1 vf s2 vt s3 vc s4 vb s5 vm s6,
       date env_plain fresh = (Return vd, s1)
       /\ sender env_plain s1 = (Return vf, s2)
       /\ to env_plain s2 = (Return vt, s3)
       /\ cc env_plain s3 = (Return vc, s4)
       /\ bcc env_plain s4 = (Return vb, s5)
       /\ messageId env_plain s5 = (Return vm, s6)
       /\ Forall (fun st => headerInit st = (Return false, st))
            [fresh; s1; s2; s3; s4; s5; s6]
       /\ snd (header env_plain fresh)
          = with_header
              [("Date", Some ""); ("From", Some ""); ("To", Some "");
               ("Cc", Some ""); ("Bcc", Some ""); ("Message-Id", Some "");
               ("Authentication-Results", Some "")] s6.
Proof.
  assert (H : header env_plain fresh
              = (Return [("Date", Some ""); ("From", Some ""); ("To", Some "");
                         ("Cc", Some ""); ("Bcc", Some "");
                         ("Message-Id", Some "");
                         ("Authentication-Results", Some "")],
                 snd (header env_plain fresh)))
    by (vm_compute; reflexivity).
  split; [exact H|].
  destruct (headerInit_after_header env_plain fresh _ _ H)
    as [Hset [Htrue [Hfalse Hchain]]].
  split; [exact Hset|]. split; [exact Htrue|].
  split; [exact (Hfalse eq_refl)|].
  exact (Hchain eq_refl eq_refl).
Defined.

(** C7 as stated fails: the message has no raw header stream, its
    header is synthesized, and [headerInit()] then returns [True]. *)
Lemma headerInit_claim_fails :
  getStringStream env_plain "__substg1.0_007D" = None
  /\ fst (header env_plain fresh)
     = Return [("Date", Some ""); ("From", Some ""); ("To", Some "");
               ("Cc", Some ""); ("Bcc", Some ""); ("Message-Id", Some "");
               ("Authentication-Results", Some "")]
  /\ fst (headerInit (snd (header env_plain fresh))) = Return true
  /\ fst (headerInit (snd (header env_plain fresh))) <> Return false.
Proof. repeat split. vm_compute; intros H; discriminate H. Qed.

(** ** HTML body *)

Lemma le_bytes_attr (a b : MessageBase) (name : string) (v : option bytes) :
  le nowhere a b -> bytes_attrs a name = Some v -> bytes_attrs b name = Some v.
Proof.
  intros [Hle _] Ha. specialize (Hle (SBytes name) (fun F => F) (VBytes v)).
  simpl in Hle. rewrite Ha in Hle. specialize (Hle eq_refl).
  destruct (bytes_attrs b name); [now injection Hle as -> | discriminate].
Qed.




(** ** Missing input *)

(** C4, at the failing input.  A message with no HTML stream, no
    compressed RTF stream and no plain-text body: [body], [sender],
    [messageId], [subject] and [date] return [None]; [htmlBody] raises
    [AttributeError] from the [logger.into] call of line 385.  A
    message whose property table lacks the flags entry makes [isRead]
    raise [KeyError]. *)
Theorem htmlBody_raises_on_missing_input :
  getStream env_plain "__substg1.0_10130102" = None
  /\ getStream env_plain "__substg1.0_10090102" = None
  /\ getStringStream env_plain "__substg1.0_1000" = None
  /\ fst (body env_plain fresh) = Return None
  /\ fst (sender env_plain fresh) = Return None
  /\ fst (messageId env_plain fresh) = Return None
  /\ fst (subject env_plain fresh) = Return None
  /\ fst (date env_plain fresh) = Return None
  /\ fst (htmlBody env_plain fresh) = Raise AttributeError
  /\ mainProperties env_plain "0E070003" = None
  /\ fst (isRead env_plain fresh) = Raise KeyError.
Proof. repeat split. Qed.

(** The plain-text branch of [htmlBody] (lines 379-383) raises as well:
    [bytes.replace] is given [str] arguments. *)
Lemma htmlBody_plain_text_raises :
  fst (body env_text_only fresh) = Return (Some "hi")
  /\ fst (htmlBody env_text_only fresh) = Raise TypeError.
Proof. repeat split. Qed.

(** A read that raised leaves what it had assigned: the second read of
    [htmlBody] returns the [None] that [_ensureSet] stored, and the
    second read of an attachment list whose resolution was aborted
    returns the elements built before the failure. *)
Lemma second_read_after_a_raise :
  fst (htmlBody env_plain (snd (htmlBody env_plain fresh))) = Return None
  /\ fst (attachments (env_three false ATTACHMENT_ERROR_THROW) fresh)
     = Raise NotImplementedError
  /\ fst (attachments (env_three false ATTACHMENT_ERROR_THROW)
            (snd (attachments (env_three false ATTACHMENT_ERROR_THROW) fresh)))
     = Return
         [new_attachment ClsAttachment "__attach_version1.0_#00000000"
            plain_data].
Proof. repeat split. Qed.

(** On any container, the three absent streams make the first
    [htmlBody] read raise. *)
Lemma htmlBody_nothing_found (E : Env) :
  getStream E "__substg1.0_10130102" = None ->
  getStream E "__substg1.0_10090102" = None ->
  getStringStream E "__substg1.0_1000" = None ->
  fst (htmlBody E fresh) = Raise AttributeError.
Proof.
  intros Hhtml Hrtf Hbody.
  unfold htmlBody, rtfBody, compressedRtf, body, deencapsulated_as,
    deencapsulatedRtf, rtfBody, compressedRtf, _ensureSet_bytes,
    logger_info, logger_into.
  cbv [try_return bind ret modify getattr raise fresh with_bytes with_str
       with_deencapsultor bytes_attrs str_attrs _deencapsultor upd fst].
  cbn [String.eqb Ascii.eqb Bool.eqb andb].
  rewrite ?Hhtml, ?Hrtf, ?Hbody. cbn.
  rewrite ?Hhtml, ?Hrtf, ?Hbody. cbn.
  reflexivity.
Qed.

(** ** Attachments *)

Lemma register_all_keeps (props : list NamedProp) :
  forall a,
    a_class (register_all props a) = a_class a
    /\ a_dir (register_all props a) = a_dir a
    /\ a_data (register_all props a) = a_data a
    /\ a_named (register_all props a) = (a_named a ++ props)%list.
Proof.
  unfold register_all.
  induction props as [|p props IH]; intros a; simpl.
  - now rewrite app_nil_r.
  - destruct (IH (register_on p a)) as [Hc [Hd [Hdata Hn]]].
    rewrite Hc, Hd, Hdata, Hn. simpl. now rewrite <- app_assoc.
Qed.

Lemma scan_dirs_NoDup (marker : string) (n : nat) listing :
  forall found dirs,
    NoDup found ->
    scan_dirs marker n listing found = Return dirs ->
    NoDup dirs.
Proof.
  induction listing as [|d listing IH]; intros found dirs Hnd; simpl.
  - now intros [= <-].
  - destruct (nth_error d n) as [name|]; [|discriminate].
    destruct (PyStr.startswith name marker); simpl.
    + destruct (existsb (String.eqb name) found) eqn:Hex; simpl.
      * now apply IH.
      * apply IH. apply NoDup_app; [exact Hnd | repeat constructor; auto |].
        intros x Hin [Hx|[]]. subst x.
        assert (existsb (String.eqb name) found = true); [|congruence].
        apply existsb_exists. exists name. split; [exact Hin|].
        apply String.eqb_refl.
    + now apply IH.
Qed.

Section Attachments.

Variable E : Env.

Lemma run_lift_outcome {A B : Type} (r : outcome A) (k : A -> M B) self v :
  r = Return v -> bind (lift_outcome r) k self = k v self.
Proof. intros ->. reflexivity. Qed.

(** One turn of the loop, against [turn]. *)
Lemma run_build (attachmentDir : string) self l :
  _attachments self = Some l ->
  build_attachment E attachmentDir self
  = match turn E attachmentDir with
    | inr a => (Return tt, with_attachments (l ++ [a]) self)
    | inl e => (Raise e, self)
    end.
Proof.
  intros Hl. unfold build_attachment, turn, placeholder, append_attachment,
    logger_error, logger_exception.
  destruct (attachmentClass E attachmentDir) as [e|data].
  - destruct e; cbn [is_unsupported_error];
      destruct (ATTACHMENT_ERROR_THROW <? attachmentErrorBehavior E);
      destruct (attachmentErrorBehavior E =? ATTACHMENT_ERROR_BROKEN);
      destruct (newUnsupportedAttachment E attachmentDir);
      destruct (newBrokenAttachment E attachmentDir);
      unfold lift; msteps; rewrite ?Hl; reflexivity.
  - msteps. rewrite Hl. reflexivity.
Qed.

Lemma run_loop_built (dirs : list string) :
  forallb (built E) dirs = true ->
  forall self l,
    _attachments self = Some l ->
    exists s,
      for_each dirs (build_attachment E) self = (Return tt, s)
      /\ _attachments s = Some (l ++ appended E dirs)%list
      /\ __waitingProperties s = __waitingProperties self
      /\ __attachmentsReady s = __attachmentsReady self.
Proof.
  unfold appended, built.
  induction dirs as [|d dirs IH]; intros Hok self l Hl.
  - exists self. simpl. rewrite app_nil_r. auto.
  - simpl in Hok. apply andb_prop in Hok. destruct Hok as [Hd Hok].
    pose proof (run_build d self l Hl) as Hrun.
    simpl flat_map. destruct (turn E d) as [e|a]; [discriminate|].
    destruct (IH Hok (with_attachments (l ++ [a]) self) (l ++ [a])%list
                eq_refl) as [s [Hrest [Hs [Hw Hr]]]].
    exists s. split; [|split; [|split]].
    + simpl. rewrite (run_bind_of _ _ _ _ _ Hrun). exact Hrest.
    + rewrite Hs. simpl. now rewrite <- app_assoc.
    + exact Hw.
    + exact Hr.
Qed.

Lemma run_loop_refused (pre : list string) (d : string)
    (post : list string) (e : exn) :
  forallb (built E) pre = true ->
  turn E d = inl e ->
  forall self l,
    _attachments self = Some l ->
    exists s,
      for_each (pre ++ d :: post) (build_attachment E) self = (Raise e, s)
      /\ _attachments s = Some (l ++ appended E pre)%list
      /\ __attachmentsReady s = __attachmentsReady self.
Proof.
  unfold appended, built.
  intros Hok Hd. induction pre as [|p pre IH]; intros self l Hl.
  - exists self. simpl. pose proof (run_build d self l Hl) as Hrun.
    rewrite Hd in Hrun. rewrite (run_bind_raises _ _ _ _ _ Hrun).
    rewrite app_nil_r. auto.
  - simpl in Hok. apply andb_prop in Hok. destruct Hok as [Hp Hok].
    pose proof (run_build p self l Hl) as Hrun.
    simpl flat_map. destruct (turn E p) as [e'|a]; [discriminate|].
    destruct (IH Hok (with_attachments (l ++ [a]) self) (l ++ [a])%list
                eq_refl) as [s [Hrest [Hs Hr]]].
    exists s. split; [|split].
    + simpl. rewrite (run_bind_of _ _ _ _ _ Hrun). exact Hrest.
    + rewrite Hs. simpl. now rewrite <- app_assoc.
    + exact Hr.
Qed.


(** The replay of lines 193-200 never raises and keeps every element in
    place. *)
Lemma run_replay_waiting self l :
  _attachments self = Some l ->
  exists s,
    replay_waiting E self = (Return tt, s)
    /\ _attachments s
       = Some (match __waitingProperties self with
               | Some props =>
                   if __attachmentsDelayed E
                   then map (register_all props) l
                   else l
               | None => l
               end)
    /\ __attachmentsReady s = __attachmentsReady self.
Proof.
  intros Hl. unfold replay_waiting, try_except.
  rewrite run_bind_getattr.
  destruct (__waitingProperties self) as [props|].
  - destruct (__attachmentsDelayed E).
    + rewrite run_bind_getattr, Hl. eexists. split; [reflexivity|].
      split; reflexivity.
    + exists self. split; [reflexivity|]. split; [exact Hl | reflexivity].
  - exists self. split; [reflexivity|]. split; [exact Hl | reflexivity].
Qed.

End Attachments.




Example attachments_three_tolerant :
  fst (attachments (env_three false ATTACHMENT_ERROR_BROKEN) fresh)
  = Return
      [new_attachment ClsAttachment "__attach_version1.0_#00000000" plain_data;
       new_attachment ClsUnsupportedAttachment "__attach_version1.0_#00000001"
         placeholder_data;
       new_attachment ClsBrokenAttachment "__attach_version1.0_#00000002"
         placeholder_data].
Proof. reflexivity. Qed.

Example attachments_three_strict :
  fst (attachments (env_three false ATTACHMENT_ERROR_THROW) fresh)
  = Raise NotImplementedError
  /\ fst (attachments (env_three false ATTACHMENT_ERROR_NOT_IMPLEMENTED) fresh)
     = Raise (OtherError "ValueError").
Proof. split; reflexivity. Qed.

(** ** Deferred registrations *)

Section Registrations.

Variable E : Env.

Lemma turn_named (attachmentDir : string) (a : Attachment) :
  turn E attachmentDir = inr a -> a_named a = [].
Proof.
  unfold turn, placeholder.
  destruct (attachmentClass E attachmentDir) as [e|data];
    [|now intros [= <-]].
  destruct e;
    destruct (ATTACHMENT_ERROR_THROW <? attachmentErrorBehavior E);
    destruct (attachmentErrorBehavior E =? ATTACHMENT_ERROR_BROKEN);
    destruct (newUnsupportedAttachment E attachmentDir);
    destruct (newBrokenAttachment E attachmentDir);
    try discriminate; now intros [= <-].
Qed.

Lemma build_attachment_returns (attachmentDir : string) self l s :
  _attachments self = Some l ->
  build_attachment E attachmentDir self = (Return tt, s) ->
  exists a, s = with_attachments (l ++ [a]) self /\ a_named a = [].
Proof.
  intros Hl. rewrite (run_build E attachmentDir self l Hl).
  destruct (turn E attachmentDir) as [e|a] eqn:Ht; [discriminate|].
  intros [= <-]. exists a. split; [reflexivity|].
  now apply turn_named with (attachmentDir := attachmentDir).
Qed.

Lemma build_loop_returns (dirs : list string) :
  forall self l s,
    _attachments self = Some l ->
    for_each dirs (build_attachment E) self = (Return tt, s) ->
    exists l',
      _attachments s = Some (l ++ l')%list
      /\ Forall (fun a => a_named a = []) l'
      /\ __waitingProperties s = __waitingProperties self.
Proof.
  induction dirs as [|d dirs IH]; intros self l s Hl; simpl.
  - intros [= <-]. exists []. rewrite app_nil_r. auto.
  - unfold bind.
    destruct (build_attachment E d self) as [[[]| e |] s1] eqn:Hb;
      try discriminate.
    destruct (build_attachment_returns d self l s1 Hl Hb) as [a [-> Ha]].
    intros Hrest.
    destruct (IH (with_attachments (l ++ [a]) self) (l ++ [a])%list s
                eq_refl Hrest) as [l' [Hs [Hf Hw]]].
    exists (a :: l'). split; [|split].
    + rewrite Hs. now rewrite <- app_assoc.
    + constructor; assumption.
    + exact Hw.
Qed.

(** The first resolution of a deferred list, with [q] queued. *)
Lemma attachments_replay self q l s :
  __attachmentsDelayed E = true ->
  _attachments self = None ->
  __waitingProperties self = Some q ->
  attachments E self = (Return l, s) ->
  Forall (fun a => a_named a = q) l /\ __attachmentsReady s = true.
Proof.
  intros Hdelayed Hunset Hq. unfold attachments.
  rewrite run_try_return, Hunset.
  destruct (scan_dirs "__attach" (prefixLen E) (listDir E false true) [])
    as [dirs| e |] eqn:Hscan; [|discriminate|discriminate].
  rewrite (run_lift_outcome _ _ _ _ eq_refl). msteps.
  destruct (for_each dirs (build_attachment E) (with_attachments [] self))
    as [[[]| e |] s1] eqn:Hloop;
    [| unfold bind; rewrite Hloop; discriminate
     | unfold bind; rewrite Hloop; discriminate].
  rewrite (run_bind_of _ _ _ _ _ Hloop). msteps.
  destruct (build_loop_returns dirs (with_attachments [] self) [] s1
              eq_refl Hloop)
    as [l' [Hs1 [Hnamed Hw]]].
  simpl in Hs1, Hw.
  destruct (run_replay_waiting E (with_attachmentsReady true s1) l' Hs1)
    as [s2 [Hreplay [Hs2 Hready]]].
  rewrite (run_bind_of _ _ _ _ _ Hreplay). unfold getattr. rewrite Hs2.
  simpl __waitingProperties. rewrite Hw, Hq, Hdelayed.
  intros [= <- <-]. split; [|exact Hready].
  clear - Hnamed. induction Hnamed as [|a l' Ha _ IH]; simpl; constructor; auto.
  destruct (register_all_keeps q a) as [_ [_ [_ Hn]]].
  rewrite Hn, Ha. reflexivity.
Qed.

(** A registration that finds the list ready. *)
Lemma register_when_ready self l (entry _type : string)
    (name : option string) :
  __attachmentsReady self = true ->
  _attachments self = Some l ->
  exists s,
    _registerNamedProperty E entry _type name self = (Return tt, s)
    /\ _attachments s = Some (map (register_on (entry, _type, name)) l)
    /\ __waitingProperties s = __waitingProperties self
    /\ named_table s = (named_table self ++ [(entry, _type, name)])%list.
Proof.
  intros Hready Hl.
  unfold _registerNamedProperty, attachmentsDelayed, attachmentsReady,
    super_registerNamedProperty.
  assert (Hatt : attachments E self = (Return l, self))
    by (unfold attachments; rewrite run_try_return, Hl; reflexivity).
  eexists. split; [|split; [|split]].
  - msteps.
    destruct (__attachmentsDelayed E); msteps.
    + unfold bind at 1. rewrite Hready. msteps.
      rewrite (run_bind_of _ _ _ _ _ Hatt). msteps. reflexivity.
    + rewrite (run_bind_of _ _ _ _ _ Hatt). msteps. reflexivity.
  - reflexivity.
  - reflexivity.
  - reflexivity.
Qed.

(** A registration that finds a deferred list not ready yet. *)
Lemma register_when_pending self (entry _type : string)
    (name : option string) :
  __attachmentsDelayed E = true ->
  __attachmentsReady self = false ->
  exists s,
    _registerNamedProperty E entry _type name self = (Return tt, s)
    /\ __waitingProperties s
       = Some (match __waitingProperties self with
               | Some q => q
               | None => []
               end ++ [(entry, _type, name)])%list
    /\ _attachments s = _attachments self
    /\ named_table s = (named_table self ++ [(entry, _type, name)])%list.
Proof.
  intros Hdelayed Hready.
  unfold _registerNamedProperty, attachmentsDelayed, attachmentsReady,
    super_registerNamedProperty.
  destruct (__waitingProperties self) as [q|] eqn:Hq;
    eexists; (split; [|split; [|split]]).
  - msteps. rewrite Hdelayed. msteps.
    unfold bind at 1. rewrite Hready. msteps.
    unfold try_except, bind, getattr, ret, modify. cbv beta.
    rewrite Hq. cbv beta iota. cbn [__waitingProperties with_waitingProperties].
    rewrite Hq. reflexivity.
  - reflexivity.
  - reflexivity.
  - reflexivity.
  - msteps. rewrite Hdelayed. msteps.
    unfold bind at 1. rewrite Hready. msteps.
    unfold try_except, bind, getattr, ret, modify. cbv beta.
    rewrite Hq. cbv beta iota. cbn [is_AttributeError].
    cbn [__waitingProperties with_waitingProperties]. reflexivity.
  - reflexivity.
  - reflexivity.
  - reflexivity.
Qed.

End Registrations.

(** C6 (amended).  With deferred construction: when the attachment list
    is first resolved with registrations queued, every element of the
    returned list, the placeholders included, has received every
    queued registration, once and in queue order, and the list is
    marked ready; a registration that finds the list ready is applied
    at once to every element and leaves the queue as it is; a
    registration that finds it not ready is appended to the queue and
    touches no attachment.  In both cases the message's own table gets
    the registration. *)
Theorem queued_registrations_replayed (E : Env) :
  __attachmentsDelayed E = true ->
  (forall self q l s,
      _attachments self = None ->
      __waitingProperties self = Some q ->
      attachments E self = (Return l, s) ->
      Forall (fun a => a_named a = q) l /\ __attachmentsReady s = true)
  /\ (forall self l entry _type name,
         __attachmentsReady self = true ->
         _attachments self = Some l ->
         exists s,
           _registerNamedProperty E entry _type name self = (Return tt, s)
           /\ _attachments s = Some (map (register_on (entry, _type, name)) l)
           /\ __waitingProperties s = __waitingProperties self
           /\ named_table s = (named_table self ++ [(entry, _type, name)])%list)
  /\ (forall self entry _type name,
         __attachmentsReady self = false ->
         exists s,
           _registerNamedProperty E entry _type name self = (Return tt, s)
           /\ __waitingProperties s
              = Some (match __waitingProperties self with
                      | Some q => q
                      | None => []
                      end ++ [(entry, _type, name)])%list
           /\ _attachments s = _attachments self
           /\ named_table s = (named_table self ++ [(entry, _type, name)])%list).
Proof.
  intros Hdelayed. split; [|split].
  - intros self q l s. now apply attachments_replay.
  - intros self l entry _type name. apply register_when_ready.
  - intros self entry _type name. now apply register_when_pending.
Qed.

Lemma queued_registrations_replayed_witness :
  __attachmentsDelayed (env_three true ATTACHMENT_ERROR_BROKEN) = true
  /\ (Forall (fun a => a_named a = [queued_prop])
        [register_on queued_prop
           (new_attachment ClsAttachment "__attach_version1.0_#00000000"
              plain_data);
         register_on queued_prop
           (new_attachment ClsUnsupportedAttachment
              "__attach_version1.0_#00000001"
              placeholder_data);
         register_on queued_prop
           (new_attachment ClsBrokenAttachment "__attach_version1.0_#00000002"
              placeholder_data)]
      /\ __attachmentsReady
           (snd (attachments (env_three true ATTACHMENT_ERROR_BROKEN)
                   self_queued))
         = true)
  /\ (exists s,
        _registerNamedProperty (env_three true ATTACHMENT_ERROR_BROKEN)
          "later" "type" None
          (snd (attachments (env_three true ATTACHMENT_ERROR_BROKEN)
                  self_queued))
        = (Return tt, s)
        /\ option_map (map a_named) (_attachments s)
           = Some [[queued_prop; ("later", "type", None)];
                   [queued_prop; ("later", "type", None)];
                   [queued_prop; ("later", "type", None)]]
        /\ __waitingProperties s = Some [queued_prop])
  /\ (exists s,
        _registerNamedProperty (env_three true ATTACHMENT_ERROR_BROKEN)
          "entry" "type" (Some "name") fresh
        = (Return tt, s)
        /\ __waitingProperties s = Some [queued_prop]
        /\ _attachments s = None).
Proof.
  pose proof (queued_registrations_replayed
                (env_three true ATTACHMENT_ERROR_BROKEN) eq_refl)
    as [Hreplay [Hready Hpending]].
  split; [reflexivity|].
  assert (H : attachments (env_three true ATTACHMENT_ERROR_BROKEN) self_queued
              = (Return
                   [register_on queued_prop
                      (new_attachment ClsAttachment
                         "__attach_version1.0_#00000000" plain_data);
                    register_on queued_prop
                      (new_attachment ClsUnsupportedAttachment
                         "__attach_version1.0_#00000001"
                         placeholder_data);
                    register_on queued_prop
                      (new_attachment ClsBrokenAttachment
                         "__attach_version1.0_#00000002"
                         placeholder_data)],
                 snd (attachments (env_three true ATTACHMENT_ERROR_BROKEN)
                        self_queued)))
    by (vm_compute; reflexivity).
  split; [exact (Hreplay self_queued [queued_prop] _ _ eq_refl eq_refl H)|].
  split.
  - destruct (Hready
                (snd (attachments (env_three true ATTACHMENT_ERROR_BROKEN)
                        self_queued))
                _ "later" "type" None eq_refl eq_refl)
      as [s [Hrun [Hatt [Hq _]]]].
    exists s. split; [exact Hrun|]. split.
    + rewrite Hatt. reflexivity.
    + rewrite Hq. reflexivity.
  - destruct (Hpending fresh "entry" "type" (Some "name") eq_refl)
      as [s [Hrun [Hq [Hatt _]]]].
    exists s. split; [exact Hrun|]. split.
    + rewrite Hq. reflexivity.
    + rewrite Hatt. reflexivity.
Defined.

(** C6 as stated fails: the second entry could not be constructed, its
    place is taken by an [UnsupportedAttachment], and the queued
    registration has been replayed onto that placeholder too. *)
Lemma replay_claim_fails :
  attachmentClass (env_three true ATTACHMENT_ERROR_BROKEN)
    "__attach_version1.0_#00000001"
  = inl NotImplementedError
  /\ __waitingProperties self_queued = Some [queued_prop]
  /\ option_map (fun a => (a_class a, a_dir a, a_named a))
       (match fst (attachments (env_three true ATTACHMENT_ERROR_BROKEN)
                     self_queued) with
        | Return l => nth_error l 1
        | _ => None
        end)
     = Some (ClsUnsupportedAttachment, "__attach_version1.0_#00000001",
             [queued_prop]).
Proof. repeat split. Qed.

(** ** Closing *)

Section Closing.

Variable E : Env.

Lemma close_failure_none (a : Attachment) :
  has_type a -> closes_cleanly a -> close_failure a = None.
Proof.
  unfold has_type, closes_cleanly, is_msg, close_failure.
  destruct (att_type (a_data a)) as [t|]; [|intros H; now destruct H].
  intros _ Hc. destruct (String.eqb t "msg"); [now apply Hc | reflexivity].
Qed.

Lemma run_close_one (a : Attachment) self :
  close_one a self
  = match close_failure a with
    | Some e => (Raise e, self)
    | None =>
        (Return tt,
         if is_msg a
         then with_close_log (close_log self ++ [a_dir a]) self
         else self)
    end.
Proof.
  unfold close_one, close_failure, is_msg, data_close.
  destruct (att_type (a_data a)) as [t|]; [|reflexivity].
  destruct (String.eqb t "msg"); [|reflexivity].
  destruct (att_close (a_data a)); reflexivity.
Qed.

Lemma close_loop_clean (l : list Attachment) :
  Forall (fun a => close_failure a = None) l ->
  forall self,
    exists s,
      for_each l close_one self = (Return tt, s)
      /\ close_log s = (close_log self ++ map a_dir (filter is_msg l))%list
      /\ closed s = closed self.
Proof.
  induction 1 as [|a l Ha _ IH]; intros self.
  - exists self. simpl. rewrite app_nil_r. auto.
  - simpl for_each. pose proof (run_close_one a self) as Hone.
    rewrite Ha in Hone. rewrite (run_bind_of _ _ _ _ _ Hone).
    simpl filter. destruct (is_msg a).
    + destruct (IH (with_close_log (close_log self ++ [a_dir a]) self))
        as [s [Hrun [Hlog Hc]]].
      exists s. split; [exact Hrun|]. split; [|exact Hc].
      rewrite Hlog. simpl. now rewrite <- app_assoc.
    + destruct (IH self) as [s [Hrun [Hlog Hc]]]. exists s. auto.
Qed.

Lemma close_loop_failure (before : list Attachment) :
  Forall (fun a => close_failure a = None) before ->
  forall a after e self,
    close_failure a = Some e ->
    exists s,
      for_each (before ++ a :: after) close_one self = (Raise e, s)
      /\ close_log s
         = (close_log self ++ map a_dir (filter is_msg before))%list
      /\ closed s = closed self.
Proof.
  induction 1 as [|b before Hb _ IH]; intros a after e self He.
  - exists self. simpl for_each. pose proof (run_close_one a self) as Hone.
    rewrite He in Hone. rewrite (run_bind_raises _ _ _ _ _ Hone).
    simpl. rewrite app_nil_r. auto.
  - simpl for_each. pose proof (run_close_one b self) as Hone.
    rewrite Hb in Hone. rewrite (run_bind_of _ _ _ _ _ Hone).
    simpl filter. destruct (is_msg b).
    + destruct (IH a after e
                  (with_close_log (close_log self ++ [a_dir b]) self) He)
        as [s [Hrun [Hlog Hc]]].
      exists s. split; [exact Hrun|]. split; [|exact Hc].
      rewrite Hlog. simpl. now rewrite <- app_assoc.
    + destruct (IH a after e self He) as [s [Hrun [Hlog Hc]]].
      exists s. auto.
Qed.

Lemma Forall_close_failure_none (l : list Attachment) :
  Forall has_type l -> Forall closes_cleanly l ->
  Forall (fun a => close_failure a = None) l.
Proof.
  intros Ht Hc. induction l as [|a l IH]; constructor.
  - apply close_failure_none; [now inversion Ht | now inversion Hc].
  - apply IH; [now inversion Ht | now inversion Hc].
Qed.

Lemma close_failure_msg (a : Attachment) (e : exn) :
  is_msg a = true -> att_close (a_data a) = Some e ->
  close_failure a = Some e.
Proof.
  unfold is_msg, close_failure.
  destruct (att_type (a_data a)) as [t|]; [|discriminate].
  now intros -> ->.
Qed.

(** [close] on loaded attachments, from what the loop does. *)
Lemma run_close self l o s :
  _attachments self = Some l ->
  for_each l close_one self = (o, s) ->
  close E self
  = match o with
    | Return _ => (Return tt, with_closed true s)
    | Raise e =>
        if is_AttributeError e then (Return tt, with_closed true s)
        else (Raise e, s)
    | OutOfFuel => (OutOfFuel, s)
    end.
Proof.
  intros Hl Hloop.
  assert (Hatt : attachments E self = (Return l, self))
    by (unfold attachments; rewrite run_try_return, Hl; reflexivity).
  unfold close, super_close, try_except, bind at 1.
  rewrite run_bind_getattr, Hl, (run_bind_of _ _ _ _ _ Hatt), Hloop.
  destruct o as [[]| e |]; [reflexivity | | reflexivity].
  destruct (is_AttributeError e); reflexivity.
Qed.

End Closing.

(** C8 (amended).  Closing a message whose attachments are loaded, all
    of them objects with a [type], closes the attachments of type msg
    in list order up to the first one whose close raises, and stops
    there: no later attachment is closed, the exception (other than
    [AttributeError]) is propagated at once and the container is left
    open.  When none raises, all of them are closed and then the
    container is closed. *)
Theorem close_stops_at_first_failure (E : Env) (self : MessageBase)
    (l : list Attachment) :
  _attachments self = Some l ->
  (Forall has_type l ->
   Forall closes_cleanly l ->
   exists s,
     close E self = (Return tt, s)
     /\ close_log s = (close_log self ++ map a_dir (filter is_msg l))%list
     /\ closed s = true)
  /\ (forall before a after e,
         l = (before ++ a :: after)%list ->
         Forall has_type before ->
         Forall closes_cleanly before ->
         is_msg a = true ->
         att_close (a_data a) = Some e ->
         is_AttributeError e = false ->
         exists s,
           close E self = (Raise e, s)
           /\ close_log s
              = (close_log self ++ map a_dir (filter is_msg before))%list
           /\ closed s = closed self).
Proof.
  intros Hl. split.
  - intros Htyped Hclean.
    destruct (close_loop_clean l (Forall_close_failure_none l Htyped Hclean)
                self) as [s [Hrun [Hlog Hc]]].
    exists (with_closed true s).
    split; [exact (run_close E self l _ s Hl Hrun)|].
    split; [exact Hlog | reflexivity].
  - intros before a after e -> Htyped Hclean Hmsg He Hattr.
    destruct (close_loop_failure before
                (Forall_close_failure_none before Htyped Hclean)
                a after e self (close_failure_msg a e Hmsg He))
      as [s [Hrun [Hlog Hc]]].
    exists s. split; [|split; [exact Hlog | exact Hc]].
    rewrite (run_close E self _ _ s Hl Hrun), Hattr. reflexivity.
Qed.

Lemma close_stops_at_first_failure_witness :
  _attachments self_two_msgs = Some [msg_failing; msg_fine]
  /\ (exists s,
        close env_two_msgs self_two_msgs = (Raise (OtherError "OSError"), s)
        /\ close_log s = []
        /\ closed s = false)
  /\ _attachments (with_attachments [msg_fine; msg_fine] fresh)
     = Some [msg_fine; msg_fine]
  /\ (exists s,
        close env_two_msgs (with_attachments [msg_fine; msg_fine] fresh)
        = (Return tt, s)
        /\ close_log s = [a_dir msg_fine; a_dir msg_fine]
        /\ closed s = true).
Proof.
  split; [reflexivity|]. split; [|split; [reflexivity|]].
  - exact (proj2 (close_stops_at_first_failure env_two_msgs self_two_msgs
                    [msg_failing; msg_fine] eq_refl)
             [] msg_failing [msg_fine] (OtherError "OSError")
             eq_refl (Forall_nil _) (Forall_nil _) eq_refl eq_refl eq_refl).
  - apply (proj1 (close_stops_at_first_failure env_two_msgs
                    (with_attachments [msg_fine; msg_fine] fresh)
                    [msg_fine; msg_fine] eq_refl)).
    + repeat constructor; discriminate.
    + repeat constructor.
Defined.

(** C8 as stated fails: the first nested message raises on close, the
    second would close without trouble, and it is never closed. *)
Lemma close_claim_fails :
  _attachments self_two_msgs = Some [msg_failing; msg_fine]
  /\ is_msg msg_fine = true
  /\ att_close (a_data msg_fine) = None
  /\ fst (close env_two_msgs self_two_msgs) = Raise (OtherError "OSError")
  /\ existsb (String.eqb (a_dir msg_fine))
       (close_log (snd (close env_two_msgs self_two_msgs))) = false.
Proof. repeat split. Qed.

(** With the attachments never loaded, [close] closes the container
    only. *)
Lemma close_without_attachments (E : Env) (self : MessageBase) :
  _attachments self = None ->
  close E self = (Return tt, with_closed true self).
Proof.
  intros Hl. unfold close, super_close, try_except, bind at 1.
  rewrite run_bind_getattr, Hl. reflexivity.
Qed.

(** * Further properties *)

(** ** Sender and message id *)

Lemma run_sender (E : Env) (self : MessageBase) :
  str_attrs self "_sender" = None ->
  exists s,
    sender E self
    = (Return (match header_field self "from" with
               | Some v => Some v
               | None => sender_from_streams E
               end), s).
Proof.
  intros Hunset. unfold sender, header_field, sender_from_streams.
  rewrite run_try_return, Hunset, run_bind_headerInit. unfold logger_info.
  destruct (_header self) as [h|] eqn:Hh.
  - rewrite run_bind_bind, run_bind_getattr, Hh.
    destruct (header_getitem h "from") as [from|]; msteps.
    + eexists; reflexivity.
    + destruct (getStringStream E "__substg1.0_0C1A");
        [destruct (getStringStream E "__substg1.0_5D01")|];
        eexists; reflexivity.
  - msteps.
    destruct (getStringStream E "__substg1.0_0C1A");
      [destruct (getStringStream E "__substg1.0_5D01")|];
      eexists; reflexivity.
Qed.

(** X1.  On first resolution the sender is the [From] field of the
    header when the header exists and has one, an empty one included;
    otherwise the display name followed by the address in angle
    brackets, the name alone when there is no address, the bare address
    when there is no name, and [None] when there is neither. *)
Theorem sender_resolution (E : Env) (self : MessageBase) :
  str_attrs self "_sender" = None ->
  fst (sender E self)
  = Return
      match header_field self "from" with
      | Some v => Some v
      | None =>
          match getStringStream E "__substg1.0_0C1A",
                getStringStream E "__substg1.0_5D01" with
          | Some name, Some address => Some (name ++ " <" ++ address ++ ">")
          | Some name, None => Some name
          | None, address => address
          end
      end.
Proof.
  intros Hunset. destruct (run_sender E self Hunset) as [s ->].
  unfold sender_from_streams. simpl fst.
  destruct (header_field self "from"); [reflexivity|].
  destruct (getStringStream E "__substg1.0_0C1A");
    destruct (getStringStream E "__substg1.0_5D01"); reflexivity.
Qed.

Lemma sender_resolution_witness :
  str_attrs fresh "_sender" = None
  /\ fst (sender env_alice fresh) = Return (Some "Alice <alice@example.com>")
  /\ str_attrs self_parsed "_sender" = None
  /\ fst (sender env_parsed self_parsed)
     = Return (Some "Carol <carol@example.com>").
Proof.
  split; [reflexivity|].
  split; [exact (sender_resolution env_alice fresh eq_refl)|].
  split; [reflexivity|].
  exact (sender_resolution env_parsed self_parsed eq_refl).
Defined.

Lemma run_messageId (E : Env) (self : MessageBase) :
  str_attrs self "_messageId" = None ->
  exists s,
    messageId E self
    = (Return (match header_field self "message-id" with
               | Some v => Some v
               | None => getStringStream E "__substg1.0_1035"
               end), s).
Proof.
  intros Hunset. unfold messageId, header_field.
  rewrite run_try_return, Hunset, run_bind_headerInit. unfold logger_info.
  destruct (_header self) as [h|] eqn:Hh.
  - rewrite run_bind_bind, run_bind_getattr, Hh.
    destruct (header_getitem h "message-id") as [v|]; msteps.
    + unfold getattr. rewrite str_attrs_with_str. eexists; reflexivity.
    + rewrite Hh. msteps. unfold getattr. rewrite str_attrs_with_str.
      eexists; reflexivity.
  - msteps. rewrite Hh. msteps. unfold getattr. rewrite str_attrs_with_str.
    eexists; reflexivity.
Qed.

(** X2.  On first resolution the message id is the [Message-Id] field
    of the header when the header exists and has one, and the
    identifier stream of the container otherwise. *)
Theorem messageId_resolution (E : Env) (self : MessageBase) :
  str_attrs self "_messageId" = None ->
  fst (messageId E self)
  = Return match header_field self "message-id" with
           | Some v => Some v
           | None => getStringStream E "__substg1.0_1035"
           end.
Proof.
  intros Hunset. destruct (run_messageId E self Hunset) as [s ->].
  reflexivity.
Qed.

Lemma messageId_resolution_witness :
  str_attrs self_parsed "_messageId" = None
  /\ fst (messageId env_parsed self_parsed) = Return (Some "<1@example.com>")
  /\ str_attrs fresh "_messageId" = None
  /\ fst (messageId env_parsed fresh) = Return (Some "<2@example.com>").
Proof.
  split; [reflexivity|].
  split; [exact (messageId_resolution env_parsed self_parsed eq_refl)|].
  split; [reflexivity|].
  exact (messageId_resolution env_parsed fresh eq_refl).
Defined.

(** ** Accessors that return *)

Lemma returns_try_return {A : Type} (attr : MessageBase -> option A)
    (h : M A) :
  (forall self, attr self = None -> exists v s, h self = (Return v, s)) ->
  always_returns (try_return attr h).
Proof.
  intros Hh self. unfold try_return.
  destruct (attr self) as [v|] eqn:Ha; [exists v, self; reflexivity|].
  now apply Hh.
Qed.

Lemma returns_date (E : Env) : always_returns (date E).
Proof. intros self. rewrite run_date. eauto. Qed.

Lemma returns_sender (E : Env) : always_returns (sender E).
Proof.
  intros self. destruct (str_attrs self "_sender") as [v|] eqn:Hs.
  - exists v, self. unfold sender. now rewrite run_try_return, Hs.
  - destruct (run_sender E self Hs) as [s Hrun]. eauto.
Qed.

Lemma returns_messageId (E : Env) : always_returns (messageId E).
Proof.
  intros self. destruct (str_attrs self "_messageId") as [v|] eqn:Hs.
  - exists v, self. unfold messageId. now rewrite run_try_return, Hs.
  - destruct (run_messageId E self Hs) as [s Hrun]. eauto.
Qed.

(** ** Plain-text body and line ending *)

Lemma find_of_prefix (s sub : string) :
  String.prefix sub s = true -> PyStr.find s sub = 0.
Proof.
  intros H. destruct s as [|c s].
  - change (PyStr.find "" sub) with (if String.prefix sub "" then 0 else -1).
    now rewrite H.
  - now rewrite find_cons, H.
Qed.

Lemma find_cons_found (c : ascii) (rest sub : string) :
  PyStr.find rest sub <> -1 -> PyStr.find (String c rest) sub <> -1.
Proof.
  intros H. rewrite find_cons.
  destruct (String.prefix sub (String c rest)); [discriminate|].
  cbv zeta. pose proof (find_lower_bound rest sub).
  destruct (PyStr.find rest sub =? -1) eqn:Hr; [|lia].
  apply Z.eqb_eq in Hr. contradiction.
Qed.

(** A text that holds CR LF holds LF. *)
Lemma find_crlf_lf (s : string) :
  PyStr.find s CRLF <> -1 -> PyStr.find s LF <> -1.
Proof.
  induction s as [|c s IH]; [intros H; exfalso; apply H; reflexivity|].
  intros H. rewrite find_cons in H.
  destruct (String.prefix CRLF (String c s)) eqn:Hp.
  - apply find_cons_found.
    change CRLF with (String (ascii_of_nat 13) LF) in Hp.
    rewrite prefix_cons in Hp. apply andb_true_iff in Hp as [_ Hp].
    rewrite (find_of_prefix _ _ Hp). discriminate.
  - apply find_cons_found, IH. cbv zeta in H.
    destruct (PyStr.find s CRLF =? -1) eqn:Hr; [congruence|].
    now apply Z.eqb_neq.
Qed.

Lemma le_str_attr (a b : MessageBase) (name : string) (v : option string) :
  le nowhere a b -> str_attrs a name = Some v -> str_attrs b name = Some v.
Proof.
  intros [Hle _] Ha. specialize (Hle (SStr name) (fun F => F) (VStr v)).
  simpl in Hle. rewrite Ha in Hle. specialize (Hle eq_refl).
  destruct (str_attrs b name); [now injection Hle as -> | discriminate].
Qed.

(** The body read from a non-empty stream. *)
Lemma run_body_stream (E : Env) (self : MessageBase) (c : ascii)
    (raw : string) :
  str_attrs self "_body" = None ->
  getStringStream E "__substg1.0_1000" = Some (String c raw) ->
  exists s,
    body E self = (Return (Some (inputToString E (String c raw) "utf-8")), s)
    /\ __crlf s
       = if PyStr.find (inputToString E (String c raw) "utf-8") CRLF =? -1
         then __crlf self
         else Some CRLF.
Proof.
  intros Hunset Hraw. unfold body.
  rewrite run_try_return, Hunset, Hraw. msteps.
  rewrite str_attrs_with_str. msteps. rewrite str_attrs_with_str. msteps.
  set (decoded := inputToString E (String c raw) "utf-8").
  destruct (PyStr.find decoded CRLF =? -1) eqn:Hcrlf.
  - destruct (PyStr.find decoded LF =? -1); msteps;
      unfold getattr; rewrite str_attrs_with_str; eexists;
      (split; [reflexivity|]); reflexivity.
  - assert (Hlf : (PyStr.find decoded LF =? -1) = false).
    { apply Z.eqb_neq, find_crlf_lf. now apply Z.eqb_neq. }
    rewrite Hlf. msteps. unfold getattr.
    eexists. split; [reflexivity|]. reflexivity.
Qed.

(** The body when the stream is absent or empty: decided by the RTF
    body. *)
Lemma run_body_rtf (E : Env) (self s1 : MessageBase)
    (d : option DeEncapsulator) :
  str_attrs self "_body" = None ->
  truthy_str (getStringStream E "__substg1.0_1000") = false ->
  deencapsulatedRtf E
    (with_str "_body" (getStringStream E "__substg1.0_1000") self)
  = (Return d, s1) ->
  exists s,
    body E self
    = (Return match d with
              | Some x =>
                  if String.eqb (content_type x) "text"
                  then Some (text x)
                  else getStringStream E "__substg1.0_1000"
              | None => getStringStream E "__substg1.0_1000"
              end, s)
    /\ __crlf s = __crlf self.
Proof.
  intros Hunset Hraw Hde.
  pose proof (stable_deencapsulatedRtf E _ _ _ _ Hde (le_refl _ s1))
    as Hagain.
  assert (Hle : le nowhere
                  (with_str "_body" (getStringStream E "__substg1.0_1000")
                     self) s1) by (eapply frame_deencapsulatedRtf, Hde).
  assert (Hslot : str_attrs s1 "_body"
                  = Some (getStringStream E "__substg1.0_1000"))
    by (apply (le_str_attr _ _ _ _ Hle), str_attrs_with_str).
  assert (Hcrlf : __crlf s1 = __crlf self).
  { destruct Hle as [_ Hc]. rewrite Hc; [reflexivity | intros [] |].
    rewrite str_attrs_with_str. discriminate. }
  unfold body. rewrite run_try_return, Hunset. msteps.
  rewrite str_attrs_with_str, Hraw. msteps.
  unfold deencapsulated_as. msteps.
  rewrite (run_bind_of _ _ _ _ _ Hde).
  destruct d as [x|]; msteps.
  - rewrite (run_bind_of _ _ _ _ _ Hagain). msteps.
    destruct (String.eqb (content_type x) "text"); msteps.
    + rewrite (run_bind_of _ _ _ _ _ Hagain). msteps.
      unfold getattr. rewrite str_attrs_with_str.
      eexists. split; [reflexivity | exact Hcrlf].
    + unfold getattr. rewrite Hslot.
      eexists. split; [reflexivity | exact Hcrlf].
  - unfold getattr. rewrite Hslot.
    eexists. split; [reflexivity | exact Hcrlf].
Qed.



(** X5.  The first read of [body] records CR LF as the line ending
    exactly when the text read from the plain-text stream holds a CR LF
    pair, and leaves the recorded line ending alone otherwise; the
    separate test for a bare LF makes no difference.  A body taken
    from the RTF never changes it, whatever line ends its text has. *)
Theorem body_line_ending (E : Env) (self s : MessageBase)
    (v : option string) :
  str_attrs self "_body" = None ->
  body E self = (Return v, s) ->
  __crlf s
  = match getStringStream E "__substg1.0_1000" with
    | Some (String c raw) =>
        if PyStr.find (inputToString E (String c raw) "utf-8") CRLF =? -1
        then __crlf self
        else Some CRLF
    | _ => __crlf self
    end.
Proof.
  intros Hunset Hrun.
  destruct (getStringStream E "__substg1.0_1000") as [[|c raw]|] eqn:Hraw.
  - destruct (deencapsulatedRtf E (with_str "_body" (Some "") self))
      as [[d| e |] s1] eqn:Hde.
    + assert (Hraw' : truthy_str (getStringStream E "__substg1.0_1000")
                      = false) by (rewrite Hraw; reflexivity).
      rewrite <- Hraw in Hde.
      destruct (run_body_rtf E self s1 d Hunset Hraw' Hde) as [s' [H Hc]].
      rewrite H in Hrun. injection Hrun as _ <-. exact Hc.
    + exfalso. revert Hrun. unfold body.
      rewrite run_try_return, Hunset, Hraw. msteps.
      rewrite str_attrs_with_str. msteps. unfold deencapsulated_as.
      msteps. unfold bind. rewrite Hde. discriminate.
    + exfalso. revert Hrun. unfold body.
      rewrite run_try_return, Hunset, Hraw. msteps.
      rewrite str_attrs_with_str. msteps. unfold deencapsulated_as.
      msteps. unfold bind. rewrite Hde. discriminate.
  - destruct (run_body_stream E self c raw Hunset Hraw) as [s' [H Hc]].
    rewrite H in Hrun. injection Hrun as _ <-. exact Hc.
  - destruct (deencapsulatedRtf E (with_str "_body" None self))
      as [[d| e |] s1] eqn:Hde.
    + assert (Hraw' : truthy_str (getStringStream E "__substg1.0_1000")
                      = false) by (rewrite Hraw; reflexivity).
      rewrite <- Hraw in Hde.
      destruct (run_body_rtf E self s1 d Hunset Hraw' Hde) as [s' [H Hc]].
      rewrite H in Hrun. injection Hrun as _ <-. exact Hc.
    + exfalso. revert Hrun. unfold body.
      rewrite run_try_return, Hunset, Hraw. msteps.
      rewrite str_attrs_with_str. msteps. unfold deencapsulated_as.
      msteps. unfold bind. rewrite Hde. discriminate.
    + exfalso. revert Hrun. unfold body.
      rewrite run_try_return, Hunset, Hraw. msteps.
      rewrite str_attrs_with_str. msteps. unfold deencapsulated_as.
      msteps. unfold bind. rewrite Hde. discriminate.
Qed.

Lemma body_line_ending_witness :
  str_attrs self_lf "_body" = None
  /\ __crlf (snd (body (env_body (Some two_lines_crlf)
                          (inl NotEncapsulatedRtf)) self_lf))
     = Some CRLF
  /\ __crlf (snd (body (env_body (Some two_lines_lf)
                          (inl NotEncapsulatedRtf)) self_lf))
     = Some LF
  /\ __crlf (snd (body (env_body None (inr rtf_two_lines)) self_lf))
     = Some LF.
Proof.
  split; [reflexivity|]. split; [|split].
  - assert (H : body (env_body (Some two_lines_crlf)
                        (inl NotEncapsulatedRtf)) self_lf
                = (Return (Some two_lines_crlf),
                   snd (body (env_body (Some two_lines_crlf)
                                (inl NotEncapsulatedRtf)) self_lf)))
      by (vm_compute; reflexivity).
    exact (body_line_ending _ self_lf _ _ eq_refl H).
  - assert (H : body (env_body (Some two_lines_lf)
                        (inl NotEncapsulatedRtf)) self_lf
                = (Return (Some two_lines_lf),
                   snd (body (env_body (Some two_lines_lf)
                                (inl NotEncapsulatedRtf)) self_lf)))
      by (vm_compute; reflexivity).
    exact (body_line_ending _ self_lf _ _ eq_refl H).
  - assert (H : body (env_body None (inr rtf_two_lines)) self_lf
                = (Return (Some two_lines_crlf),
                   snd (body (env_body None (inr rtf_two_lines)) self_lf)))
      by (vm_compute; reflexivity).
    exact (body_line_ending _ self_lf _ _ eq_refl H).
Defined.

(** ** RTF body *)

(** X6.  Without a compressed RTF stream, or with an empty one, the
    first reads of [rtfBody] and of [deencapsulatedRtf] return [None],
    whatever the decompression and deencapsulation libraries would do:
    they are not consulted. *)
Theorem rtf_absent (E : Env) (self : MessageBase) :
  bytes_attrs self "_compressedRtf" = None ->
  bytes_attrs self "_rtfBody" = None ->
  _deencapsultor self = None ->
  truthy_bytes (getStream E "__substg1.0_10090102") = false ->
  fst (rtfBody E self) = Return None
  /\ fst (deencapsulatedRtf E self) = Return None.
Proof.
  intros Hc Hr Hd Hfalsy.
  assert (Hrtf : rtfBody E self
                 = (Return None,
                    with_bytes "_rtfBody" None
                      (with_bytes "_compressedRtf"
                         (getStream E "__substg1.0_10090102") self))).
  { unfold rtfBody, compressedRtf. rewrite run_try_return, Hr.
    rewrite (run_bind_of _ _ _ _ _ (run_ensureSet_bytes E _ _ self)).
    rewrite Hc, Hfalsy. msteps. reflexivity. }
  split; [now rewrite Hrtf|].
  unfold deencapsulatedRtf. rewrite run_try_return, Hd.
  rewrite (run_bind_of _ _ _ _ _ Hrtf). msteps. reflexivity.
Qed.

Lemma rtf_absent_witness :
  bytes_attrs fresh "_compressedRtf" = None
  /\ bytes_attrs fresh "_rtfBody" = None
  /\ _deencapsultor fresh = None
  /\ truthy_bytes (getStream (env_no_rtf (Some [])) "__substg1.0_10090102")
     = false
  /\ fst (rtfBody (env_no_rtf (Some [])) fresh) = Return None
  /\ fst (deencapsulatedRtf (env_no_rtf (Some [])) fresh) = Return None.
Proof.
  do 4 (split; [reflexivity|]).
  exact (rtf_absent (env_no_rtf (Some [])) fresh
           eq_refl eq_refl eq_refl eq_refl).
Defined.

(** X7.  With an RTF body, the first read of [deencapsulatedRtf]
    returns the deencapsulated object when the library succeeds,
    returns [None] when the library signals that the RTF is not
    encapsulated or is malformed, and lets any other exception of the
    library through to the caller. *)
Theorem deencapsulation_outcome (E : Env) (self s1 : MessageBase)
    (c : byte) (rtf : bytes) :
  _deencapsultor self = None ->
  rtfBody E self = (Return (Some (c :: rtf)), s1) ->
  fst (deencapsulatedRtf E self)
  = match RTFDE_DeEncapsulator E (c :: rtf) with
    | inl e => absorbed e
    | inr d =>
        match RTFDE_deencapsulate E d with
        | inl e => absorbed e
        | inr d' => Return (Some d')
        end
    end.
Proof.
  intros Hd Hrtf.
  pose proof (stable_rtfBody E _ _ _ _ Hrtf (le_refl _ s1)) as Hagain.
  unfold deencapsulatedRtf. rewrite run_try_return, Hd.
  rewrite (run_bind_of _ _ _ _ _ Hrtf). msteps.
  unfold try_except, logger_debug, logger_info.
  unfold bind at 1.
  rewrite (run_bind_of _ _ _ _ _ Hagain).
  destruct (RTFDE_DeEncapsulator E (c :: rtf)) as [e|d].
  - unfold lift. rewrite run_bind_raise.
    destruct e; cbn [absorbed]; msteps; reflexivity.
  - unfold lift at 1. msteps.
    destruct (RTFDE_deencapsulate E d) as [e|d'].
    + unfold lift. rewrite run_bind_raise.
      destruct e; cbn [absorbed]; msteps; reflexivity.
    + unfold lift. msteps. reflexivity.
Qed.

Lemma deencapsulation_outcome_witness :
  _deencapsultor fresh = None
  /\ fst (deencapsulatedRtf (env_body None (inr text_rtf)) fresh)
     = Return (Some text_rtf)
  /\ fst (deencapsulatedRtf (env_body None (inl NotEncapsulatedRtf)) fresh)
     = Return None
  /\ fst (deencapsulatedRtf (env_body None (inl (OtherError "ValueError")))
            fresh)
     = Raise (OtherError "ValueError").
Proof.
  split; [reflexivity|].
  assert (H : forall deenc,
             rtfBody (env_body None deenc) fresh
             = (Return (Some [x7b; x5c; x72; x74; x66]%byte),
                snd (rtfBody (env_body None deenc) fresh)))
    by (intros deenc; reflexivity).
  split; [|split].
  - exact (deencapsulation_outcome _ fresh _ _ _ eq_refl (H (inr text_rtf))).
  - exact (deencapsulation_outcome _ fresh _ _ _ eq_refl
             (H (inl NotEncapsulatedRtf))).
  - exact (deencapsulation_outcome _ fresh _ _ _ eq_refl
             (H (inl (OtherError "ValueError")))).
Defined.

(** ** Recipients *)

Lemma unseen_ext (names : list string) :
  forall s1 s2,
    (forall y, existsb (String.eqb y) s1 = existsb (String.eqb y) s2) ->
    unseen s1 names = unseen s2 names.
Proof.
  induction names as [|x names IH]; intros s1 s2 Hext; [reflexivity|].
  simpl. rewrite (Hext x). destruct (existsb (String.eqb x) s2).
  - now apply IH.
  - f_equal. apply IH. intros y. simpl. now rewrite Hext.
Qed.

(** The scan of the listing, against [unseen]. *)
Lemma scan_dirs_unseen (marker : string) (n : nat) listing :
  forall names found,
    map (fun path => nth_error path n) listing = map Some names ->
    scan_dirs marker n listing found
    = Return (found ++ unseen found
                (filter (fun name => PyStr.startswith name marker) names))%list.
Proof.
  induction listing as [|path listing IH]; intros names found Hnames.
  - destruct names; [|discriminate]. simpl. now rewrite app_nil_r.
  - destruct names as [|name names]; [discriminate|].
    simpl in Hnames. injection Hnames as Hpath Hrest.
    simpl. rewrite Hpath.
    destruct (PyStr.startswith name marker); simpl.
    + destruct (existsb (String.eqb name) found) eqn:Hseen; simpl.
      * now apply IH.
      * rewrite (IH names (found ++ [name])%list Hrest), <- app_assoc. simpl.
        do 3 f_equal. apply unseen_ext. intros y.
        rewrite existsb_app. simpl. now rewrite orb_false_r, orb_comm.
    + now apply IH.
Qed.

Lemma scan_dirs_short_path (marker : string) (n : nat) listing :
  forall found,
    existsb (fun path => match nth_error path n with
                         | None => true
                         | Some _ => false
                         end) listing = true ->
    scan_dirs marker n listing found = Raise IndexError.
Proof.
  induction listing as [|path listing IH]; intros found; [discriminate|].
  simpl. destruct (nth_error path n) as [name|]; [|reflexivity].
  simpl. intros H. destruct (_ && _); now apply IH.
Qed.

Lemma run_recipient_loop (E : Env) (dirs : list string) :
  forall self l,
    _recipients self = Some l ->
    exists s,
      for_each dirs
        (fun recipientDir =>
           bind (getattr _recipients)
             (fun l => modify
                (with_recipients (l ++ [newRecipient E recipientDir]))))
        self
      = (Return tt, s)
      /\ _recipients s = Some (l ++ map (newRecipient E) dirs)%list.
Proof.
  induction dirs as [|d dirs IH]; intros self l Hl.
  - exists self. simpl. now rewrite app_nil_r.
  - destruct (IH (with_recipients (l ++ [newRecipient E d]) self)
                (l ++ [newRecipient E d])%list eq_refl) as [s [Hrun Hs]].
    exists s. split.
    + simpl. rewrite run_bind_bind, run_bind_getattr, Hl. msteps.
      exact Hrun.
    + rewrite Hs. simpl. now rewrite <- app_assoc.
Qed.

Lemma run_recipients (E : Env) (self : MessageBase) (dirs : list string) :
  _recipients self = None ->
  scan_dirs "__recip" (prefixLen E) (listDir E true false) [] = Return dirs ->
  exists s,
    recipients E self = (Return (map (newRecipient E) dirs), s).
Proof.
  intros Hunset Hscan.
  destruct (run_recipient_loop E dirs (with_recipients [] self) [] eq_refl)
    as [s [Hloop Hs]].
  exists s. unfold recipients. rewrite run_try_return, Hunset.
  rewrite (run_lift_outcome _ _ _ _ Hscan). msteps.
  rewrite (run_bind_of _ _ _ _ _ Hloop). unfold getattr. now rewrite Hs.
Qed.

(** X8.  The recipient list holds one recipient per directory of the
    listing whose name at the prefix length starts with ["__recip"],
    each name taken once at its first occurrence and in listing order;
    when a listed path has no component at the prefix length the read
    raises [IndexError]. *)
Theorem recipients_enumeration (E : Env) (self : MessageBase) :
  _recipients self = None ->
  (forall names,
      map (fun path => nth_error path (prefixLen E)) (listDir E true false)
      = map Some names ->
      fst (recipients E self)
      = Return
          (map (newRecipient E)
             (unseen []
                (filter (fun name => PyStr.startswith name "__recip") names)))
      /\ NoDup (unseen []
                  (filter (fun name => PyStr.startswith name "__recip")
                     names)))
  /\ (existsb (fun path => match nth_error path (prefixLen E) with
                           | None => true
                           | Some _ => false
                           end) (listDir E true false) = true ->
      fst (recipients E self) = Raise IndexError).
Proof.
  intros Hunset. split.
  - intros names Hnames.
    pose proof (scan_dirs_unseen "__recip" _ _ names [] Hnames) as Hscan.
    simpl app in Hscan.
    destruct (run_recipients E self _ Hunset Hscan) as [s ->].
    split; [reflexivity|].
    eapply scan_dirs_NoDup; [constructor | exact Hscan].
  - intros Hshort. unfold recipients. rewrite run_try_return, Hunset.
    rewrite (scan_dirs_short_path _ _ _ [] Hshort). reflexivity.
Qed.

Lemma recipients_enumeration_witness :
  _recipients fresh = None
  /\ fst (recipients env_bob_carol fresh)
     = Return [{| r_type := 1; r_formatted := "Bob" |};
               {| r_type := 2; r_formatted := "Dave" |};
               {| r_type := 1; r_formatted := "Carol" |}]
  /\ fst (recipients env_short_path fresh) = Raise IndexError.
Proof.
  split; [reflexivity|]. split.
  - exact (proj1 (proj1 (recipients_enumeration env_bob_carol fresh eq_refl)
                    ["__recip_version1.0_#00000000";
                     "__recip_version1.0_#00000001";
                     "__recip_version1.0_#00000002"] eq_refl)).
  - exact (proj2 (recipients_enumeration env_short_path fresh eq_refl)
             eq_refl).
Defined.

(** ** Header *)

Lemma scan_dirs_returns (marker : string) (n : nat) listing :
  forall found,
    existsb (fun path => match nth_error path n with
                         | None => true
                         | Some _ => false
                         end) listing = false ->
    exists dirs, scan_dirs marker n listing found = Return dirs.
Proof.
  induction listing as [|path listing IH]; intros found; [simpl; eauto|].
  simpl. destruct (nth_error path n) as [name|]; [|discriminate].
  simpl. intros H. destruct (_ && _); now apply IH.
Qed.

Lemma returns_recipients (E : Env) :
  existsb (fun path => match nth_error path (prefixLen E) with
                       | None => true
                       | Some _ => false
                       end) (listDir E true false) = false ->
  always_returns (recipients E).
Proof.
  intros Hlist self. destruct (_recipients self) as [rs|] eqn:Hr.
  - exists rs, self. unfold recipients. now rewrite run_try_return, Hr.
  - destruct (scan_dirs_returns "__recip" _ _ [] Hlist) as [dirs Hscan].
    destruct (run_recipients E self dirs Hr Hscan) as [s Hrun]. eauto.
Qed.

Lemma returns_genRecipient (E : Env) (recipientType : string)
    (recipientInt : Z) :
  always_returns (recipients E) ->
  always_returns (_genRecipient E recipientType recipientInt).
Proof.
  intros Hrec self.
  destruct (str_attrs self ("_" ++ recipientType)) as [v|] eqn:Hs.
  - exists v, self. unfold _genRecipient. cbv zeta.
    now rewrite run_try_return, Hs.
  - destruct (Hrec self) as [rs [s1 Hrs]].
    pose proof (genRecipient_resolves E recipientType recipientInt
                  self s1 rs Hs Hrs) as Hrun.
    destruct (_genRecipient E recipientType recipientInt self) as [o s].
    simpl in Hrun. subst o. eauto.
Qed.

(** A value held by an attribute is what its accessor returns. *)
Lemma read_cached {A : Type} (attr : MessageBase -> option A) (h : M A)
    (v : A) self :
  attr self = Some v -> try_return attr h self = (Return v, self).
Proof. intros Ha. now rewrite run_try_return, Ha. Qed.

(** X9.  When the message has no header text and every listed path
    reaches the prefix length, [header] returns the parsed empty header
    followed by the fields Date, From, To, Cc, Bcc, Message-Id and
    Authentication-Results, in this order; each of the first six holds
    what the accessor of that name returns from then on, with the empty
    string for [None], and the last one is empty. *)
Theorem header_synthesised (E : Env) (self : MessageBase) :
  _header self = None ->
  truthy_str (getStringStream E "__substg1.0_007D") = false ->
  existsb (fun path => match nth_error path (prefixLen E) with
                       | None => true
                       | Some _ => false
                       end) (listDir E true false) = false ->
  exists vd vf vt vc vb vm s,
    header E self
    = (Return (parsestr E ""
               ++ [("Date", Some (or_empty vd));
                   ("From", Some (or_empty vf));
                   ("To", Some (or_empty vt));
                   ("Cc", Some (or_empty vc));
                   ("Bcc", Some (or_empty vb));
                   ("Message-Id", Some (or_empty vm));
                   ("Authentication-Results", Some "")])%list, s)
    /\ date E s = (Return vd, s)
    /\ sender E s = (Return vf, s)
    /\ to E s = (Return vt, s)
    /\ cc E s = (Return vc, s)
    /\ bcc E s = (Return vb, s)
    /\ messageId E s = (Return vm, s).
Proof.
  intros Hunset Htext Hlist.
  pose proof (returns_recipients E Hlist) as Hrec.
  destruct (returns_date E self) as [vd [s1 H1]].
  destruct (returns_sender E s1) as [vf [s2 H2]].
  destruct (returns_genRecipient E "to" 1 Hrec s2) as [vt [s3 H3]].
  destruct (returns_genRecipient E "cc" 2 Hrec s3) as [vc [s4 H4]].
  destruct (returns_genRecipient E "bcc" 3 Hrec s4) as [vb [s5 H5]].
  destruct (returns_messageId E s5) as [vm [s6 H6]].
  pose proof (frame_sender E _ _ _ H2) as L2.
  pose proof (frame_genRecipient E _ _ _ _ _ H3) as L3.
  pose proof (frame_genRecipient E _ _ _ _ _ H4) as L4.
  pose proof (frame_genRecipient E _ _ _ _ _ H5) as L5.
  pose proof (frame_messageId E _ _ _ H6) as L6.
  pose proof (le_str_attr _ _ _ _
                (le_trans _ _ _ _ L2
                   (le_trans _ _ _ _ L3
                      (le_trans _ _ _ _ L4 (le_trans _ _ _ _ L5 L6))))
                (caches_date E _ _ _ H1)) as C1.
  pose proof (le_str_attr _ _ _ _
                (le_trans _ _ _ _ L3
                   (le_trans _ _ _ _ L4 (le_trans _ _ _ _ L5 L6)))
                (caches_sender E _ _ _ H2)) as C2.
  pose proof (le_str_attr _ _ _ _
                (le_trans _ _ _ _ L4 (le_trans _ _ _ _ L5 L6))
                (caches_genRecipient E _ _ _ _ _ H3)) as C3.
  pose proof (le_str_attr _ _ _ _ (le_trans _ _ _ _ L5 L6)
                (caches_genRecipient E _ _ _ _ _ H4)) as C4.
  pose proof (le_str_attr _ _ _ _ L6
                (caches_genRecipient E _ _ _ _ _ H5)) as C5.
  pose proof (caches_messageId E _ _ _ H6) as C6.
  exists vd, vf, vt, vc, vb, vm.
  eexists. split.
  - unfold header. rewrite run_try_return, Hunset.
    destruct (getStringStream E "__substg1.0_007D") as [[|c t]|] eqn:Hg;
      [ | discriminate Htext | ];
      cbv zeta; unfold logger_info, to, cc, bcc;
      msteps; rewrite (run_bind_of _ _ _ _ _ H1);
      msteps; rewrite (run_bind_of _ _ _ _ _ H2);
      msteps; rewrite (run_bind_of _ _ _ _ _ H3);
      msteps; rewrite (run_bind_of _ _ _ _ _ H4);
      msteps; rewrite (run_bind_of _ _ _ _ _ H5);
      msteps; rewrite (run_bind_of _ _ _ _ _ H6);
      msteps; unfold getattr; cbn [_header with_header];
      unfold add_header; rewrite <- !app_assoc; reflexivity.
  - unfold date, sender, messageId, to, cc, bcc, _genRecipient. cbv zeta.
    repeat split; apply read_cached; assumption.
Qed.

Lemma header_synthesised_witness :
  exists vd vf vt vc vb vm s,
    header env_bob_carol fresh
    = (Return [("Date", Some (or_empty vd));
               ("From", Some (or_empty vf));
               ("To", Some (or_empty vt));
               ("Cc", Some (or_empty vc));
               ("Bcc", Some (or_empty vb));
               ("Message-Id", Some (or_empty vm));
               ("Authentication-Results", Some "")], s)
    /\ date env_bob_carol s = (Return vd, s)
    /\ sender env_bob_carol s = (Return vf, s)
    /\ to env_bob_carol s = (Return vt, s)
    /\ cc env_bob_carol s = (Return vc, s)
    /\ bcc env_bob_carol s = (Return vb, s)
    /\ messageId env_bob_carol s = (Return vm, s).
Proof.
  exact (header_synthesised env_bob_carol fresh eq_refl eq_refl eq_refl).
Defined.

Lemma find_app {A : Type} (f : A -> bool) (l1 l2 : list A) :
  List.find f (l1 ++ l2)
  = match List.find f l1 with
    | Some x => Some x
    | None => List.find f l2
    end.
Proof.
  induction l1 as [|x l1 IH]; [reflexivity|].
  simpl. destruct (f x); [reflexivity | exact IH].
Qed.

Lemma find_none_existsb {A : Type} (f : A -> bool) (l : list A) :
  List.find f l = None <-> existsb f l = false.
Proof.
  induction l as [|x l IH]; [tauto|].
  simpl. destruct (f x); [split; discriminate | exact IH].
Qed.

(** X10.  When the message has header text, [header] returns the parsed
    text with one more field, [date], appended, holding the resolved
    send date.  A lookup of the date in the result, in any letter case,
    finds the Date field of the header text when it has one, and the
    send date of the container only when it has none. *)
Theorem header_parsed (E : Env) (self : MessageBase) (c : ascii)
    (t name : string) :
  _header self = None ->
  getStringStream E "__substg1.0_007D" = Some (String c t) ->
  PyStr.lower name = "date" ->
  exists h,
    fst (header E self) = Return h
    /\ h = (parsestr E (String c t) ++ [("date", date_of E self)])%list
    /\ header_getitem h name
       = (if has_field (parsestr E (String c t)) "date"
          then header_getitem (parsestr E (String c t)) "date"
          else date_of E self).
Proof.
  intros Hunset Htext Hname.
  exists (parsestr E (String c t) ++ [("date", date_of E self)])%list.
  split; [|split; [reflexivity|]].
  - unfold header. rewrite run_try_return, Hunset, Htext. cbv zeta.
    msteps. rewrite (run_bind_of _ _ _ _ _ (run_date E _)).
    msteps. unfold date_of, getattr, header_setitem.
    cbn [str_attrs with_header].
    destruct (str_attrs self "_date"); reflexivity.
  - unfold header_getitem, has_field. rewrite find_app, Hname.
    destruct (List.find _ (parsestr E (String c t))) as [[k v]|] eqn:Hf.
    + assert (Hex : existsb
                      (fun kv => String.eqb (PyStr.lower (fst kv))
                                   (PyStr.lower "date"))
                      (parsestr E (String c t)) = true).
      { destruct (existsb _ (parsestr E (String c t))) eqn:Hex;
          [reflexivity|].
        apply find_none_existsb in Hex.
        change (PyStr.lower "date") with "date" in Hex.
        rewrite Hex in Hf. discriminate. }
      rewrite Hex. reflexivity.
    + apply find_none_existsb in Hf.
      change (PyStr.lower "date") with "date". rewrite Hf. reflexivity.
Qed.

Lemma header_parsed_witness :
  exists h,
    fst (header env_parsed fresh) = Return h
    /\ h = (parsed_fields
            ++ [("date", Some "Mon, 16 Nov 2009 13:32:02 +0100")])%list
    /\ header_getitem h "Date" = Some "Sun, 15 Nov 2009 08:00:00 +0000".
Proof.
  exact (header_parsed env_parsed fresh "F" "rom: ..." "Date"
           eq_refl eq_refl eq_refl).
Defined.

(** ** Header dictionary *)

Lemma dict_get_set (d : Header) (k k' : string) (v : option string) :
  dict_get (dict_set d k v) k'
  = if String.eqb k k' then Some v else dict_get d k'.
Proof.
  unfold dict_get. induction d as [|[k0 v0] d IH]; simpl.
  - destruct (String.eqb k k'); reflexivity.
  - destruct (String.eqb k0 k) eqn:H0; simpl.
    + apply String.eqb_eq in H0. subst k0.
      destruct (String.eqb k k'); reflexivity.
    + destruct (String.eqb k0 k') eqn:H1; simpl.
      * apply String.eqb_eq in H1. subst k0.
        rewrite String.eqb_sym, H0. reflexivity.
      * exact IH.
Qed.

Lemma dict_set_keys (d : Header) (k : string) (v : option string) :
  NoDup (map fst d) ->
  NoDup (map fst (dict_set d k v))
  /\ (forall x, In x (map fst (dict_set d k v)) -> x = k \/ In x (map fst d)).
Proof.
  induction d as [|[k0 v0] d IH]; simpl; intros Hnd.
  - split; [repeat constructor; intros [] | intros x [->|[]]; now left].
  - inversion Hnd as [|? ? Hnotin Hnd']; subst.
    destruct (String.eqb k0 k) eqn:H0; simpl.
    + split; [exact Hnd | intros x Hx; now right].
    + destruct (IH Hnd') as [IH1 IH2]. split.
      * constructor; [|exact IH1]. intros Hin.
        destruct (IH2 _ Hin) as [->|Hin']; [|contradiction].
        rewrite String.eqb_refl in H0. discriminate.
      * intros x [->|Hx]; [right; now left|].
        destruct (IH2 _ Hx) as [->|Hin']; [now left | right; now right].
Qed.

Lemma dict_fold_get (pairs : Header) :
  forall acc k,
    dict_get
      (fold_left (fun d kv => dict_set d (fst kv) (snd kv)) pairs acc) k
    = match last_field pairs k with
      | Some v => Some v
      | None => dict_get acc k
      end.
Proof.
  unfold last_field.
  induction pairs as [|[k0 v0] pairs IH]; intros acc k; [reflexivity|].
  simpl fold_left. rewrite IH. unfold dict_get at 1 3. simpl rev.
  rewrite find_app.
  destruct (List.find _ (rev pairs)) as [[k1 v1]|]; [reflexivity|].
  rewrite dict_get_set. simpl.
  destruct (String.eqb k0 k); reflexivity.
Qed.

Lemma dict_fold_NoDup (pairs : Header) :
  forall acc,
    NoDup (map fst acc) ->
    NoDup (map fst
             (fold_left (fun d kv => dict_set d (fst kv) (snd kv)) pairs acc)).
Proof.
  induction pairs as [|[k0 v0] pairs IH]; intros acc Hnd; [exact Hnd|].
  simpl. apply IH. now apply dict_set_keys.
Qed.

Lemma dict_get_filter (d : Header) (k0 k : string) :
  dict_get (filter (fun kv => negb (String.eqb (fst kv) k0)) d) k
  = if String.eqb k k0 then None else dict_get d k.
Proof.
  unfold dict_get. induction d as [|[k1 v1] d IH]; simpl.
  - destruct (String.eqb k k0); reflexivity.
  - destruct (String.eqb k1 k0) eqn:H0; simpl.
    + apply String.eqb_eq in H0. subst k1. rewrite IH.
      rewrite (String.eqb_sym k0 k).
      destruct (String.eqb k k0); reflexivity.
    + destruct (String.eqb k1 k) eqn:H1; simpl.
      * apply String.eqb_eq in H1. subst k1. now rewrite H0.
      * exact IH.
Qed.

Lemma filter_keys_NoDup (d : Header) (f : string * option string -> bool) :
  NoDup (map fst d) -> NoDup (map fst (filter f d)).
Proof.
  induction d as [|kv d IH]; simpl; intros Hnd; [constructor|].
  inversion Hnd as [|? ? Hnotin Hnd']; subst.
  destruct (f kv); simpl; [|now apply IH].
  constructor; [|now apply IH].
  intros Hin. apply Hnotin. apply in_map_iff in Hin.
  destruct Hin as [x [Hx Hin]]. apply filter_In in Hin.
  apply in_map_iff. exists x. tauto.
Qed.

Lemma dict_get_absent (d : Header) (k : string) :
  existsb (fun kv => String.eqb (fst kv) k) d = false -> dict_get d k = None.
Proof.
  intros H. apply find_none_existsb in H. unfold dict_get. now rewrite H.
Qed.

(** X11.  Once [header] has returned, [headerDict] returns a dictionary
    with each key once that has no key [Received] and, under every
    other key, the value of the last header field of exactly that
    name. *)
Theorem headerDict_contents (E : Env) (self s1 : MessageBase) (h : Header) :
  _headerDict self = None ->
  header E self = (Return h, s1) ->
  exists d s,
    headerDict E self = (Return d, s)
    /\ NoDup (map fst d)
    /\ forall k,
         dict_get d k
         = if String.eqb k "Received" then None else last_field h k.
Proof.
  intros Hunset Hh.
  assert (Hget : forall k, dict_get (dict h) k = last_field h k).
  { intros k. unfold dict. rewrite dict_fold_get.
    destruct (last_field h k); reflexivity. }
  assert (Hnd : NoDup (map fst (dict h))).
  { unfold dict. apply dict_fold_NoDup. constructor. }
  unfold headerDict. rewrite run_try_return, Hunset.
  rewrite (run_bind_of _ _ _ _ _ Hh). msteps.
  cbn [_headerDict with_headerDict]. msteps. unfold dict_pop.
  destruct (existsb (fun kv => String.eqb (fst kv) "Received") (dict h))
    eqn:Hex; msteps; unfold getattr; cbn [_headerDict with_headerDict].
  - eexists. eexists. split; [reflexivity|]. split.
    + now apply filter_keys_NoDup.
    + intros k. rewrite dict_get_filter, Hget. reflexivity.
  - eexists. eexists. split; [reflexivity|]. split; [exact Hnd|].
    intros k. destruct (String.eqb k "Received") eqn:Hk.
    + apply String.eqb_eq in Hk. subst k. now apply dict_get_absent.
    + apply Hget.
Qed.

Lemma headerDict_contents_witness :
  exists d s,
    headerDict env_parsed fresh = (Return d, s)
    /\ NoDup (map fst d)
    /\ forall k,
         dict_get d k
         = if String.eqb k "Received" then None
           else last_field
                  (parsed_fields
                   ++ [("date", Some "Mon, 16 Nov 2009 13:32:02 +0100")])%list
                  k.
Proof.
  exact (headerDict_contents env_parsed fresh _ _ eq_refl eq_refl).
Defined.

(** ** Attachment policy *)

Lemma turn_at_level (E : Env) (p : policy) (dir_ : string) :
  attachmentErrorBehavior E = policy_value p ->
  turn E dir_ = entry_at p E dir_.
Proof.
  intros Hpol. unfold turn, entry_at. rewrite Hpol.
  destruct (attachmentClass E dir_) as [e|data]; [|reflexivity].
  destruct e; destruct p; reflexivity.
Qed.

(** X12.  At each of the three policy levels, when every enumerated
    directory either builds or fails in a way the level tolerates (an
    unsupported type from tolerateUnsupportedType on, any other failure
    under tolerateAnyError only) and the placeholder then called for
    can be constructed, the attachment list resolves to one element per
    directory, in order, with the queued registrations replayed on it
    when construction was deferred, and the list is marked ready. *)
Theorem attachments_under_policy (E : Env) (self : MessageBase)
    (dirs : list string) (p : policy) :
  attachmentErrorBehavior E = policy_value p ->
  _attachments self = None ->
  scan_dirs "__attach" (prefixLen E) (listDir E false true) [] = Return dirs ->
  (forall dir_, In dir_ dirs -> exists a, entry_at p E dir_ = inr a) ->
  exists s,
    attachments E self = (Return (replayed E self (entries_at p E dirs)), s)
    /\ length (entries_at p E dirs) = length dirs
    /\ __attachmentsReady s = true.
Proof.
  intros Hpol Hunset Hscan Hok.
  assert (Hsame : appended E dirs = entries_at p E dirs).
  { unfold appended, entries_at. apply flat_map_ext.
    intros d. now rewrite (turn_at_level E p d Hpol). }
  assert (Hbuilt : forallb (built E) dirs = true).
  { apply forallb_forall. intros d Hd. unfold built.
    rewrite (turn_at_level E p d Hpol).
    destruct (Hok d Hd) as [a ->]. reflexivity. }
  destruct (run_loop_built E dirs Hbuilt (with_attachments [] self) []
              eq_refl) as [s1 [Hloop [Hs1 [Hw1 _]]]].
  simpl in Hs1.
  destruct (run_replay_waiting E (with_attachmentsReady true s1) _ Hs1)
    as [s2 [Hreplay [Hs2 Hr2]]].
  exists s2. split; [|split; [|exact Hr2]].
  - unfold attachments. rewrite run_try_return, Hunset.
    rewrite (run_lift_outcome _ _ _ _ Hscan). msteps.
    rewrite (run_bind_of _ _ _ _ _ Hloop). msteps.
    rewrite (run_bind_of _ _ _ _ _ Hreplay).
    unfold getattr. rewrite Hs2. unfold replayed.
    change (__waitingProperties (with_attachmentsReady true s1))
      with (__waitingProperties s1).
    rewrite Hw1, Hsame. reflexivity.
  - clear - Hok. unfold entries_at.
    induction dirs as [|d dirs IH]; [reflexivity|].
    simpl. destruct (Hok d (or_introl eq_refl)) as [a ->].
    simpl. f_equal. apply IH. intros d' Hd'. apply Hok. now right.
Qed.

Lemma attachments_under_policy_witness :
  exists s,
    attachments env_two_kinds fresh
    = (Return
         [new_attachment ClsAttachment "__attach_version1.0_#00000000"
            plain_data;
          new_attachment ClsUnsupportedAttachment
            "__attach_version1.0_#00000001" placeholder_data], s)
    /\ length
         [new_attachment ClsAttachment "__attach_version1.0_#00000000"
            plain_data;
          new_attachment ClsUnsupportedAttachment
            "__attach_version1.0_#00000001" placeholder_data]
       = 2%nat
    /\ __attachmentsReady s = true.
Proof.
  apply (attachments_under_policy env_two_kinds fresh
           ["__attach_version1.0_#00000000"; "__attach_version1.0_#00000001"]
           tolerateUnsupportedType eq_refl eq_refl eq_refl).
  intros d [<-|[<-|[]]]; eexists; reflexivity.
Defined.

(** X13.  When a directory fails in a way the policy does not tolerate,
    or its placeholder cannot be constructed, after directories that
    all came to an element, the read of [attachments] raises that
    failure; the elements built so far stay in [_attachments] and the
    list is not marked ready, so that a second read returns the
    shortened list without raising. *)
Theorem attachments_abort (E : Env) (self : MessageBase)
    (pre : list string) (d : string) (post : list string) (e : exn) :
  _attachments self = None ->
  scan_dirs "__attach" (prefixLen E) (listDir E false true) []
  = Return (pre ++ d :: post)%list ->
  forallb (built E) pre = true ->
  turn E d = inl e ->
  exists s,
    attachments E self = (Raise e, s)
    /\ __attachmentsReady s = __attachmentsReady self
    /\ attachments E s = (Return (appended E pre), s).
Proof.
  intros Hunset Hscan Hok Hd.
  destruct (run_loop_refused E pre d post e Hok Hd
              (with_attachments [] self) [] eq_refl)
    as [s [Hloop [Hs Hr]]].
  simpl in Hs. exists s. split; [|split].
  - unfold attachments. rewrite run_try_return, Hunset.
    rewrite (run_lift_outcome _ _ _ _ Hscan). msteps.
    rewrite (run_bind_raises _ _ _ _ _ Hloop). reflexivity.
  - exact Hr.
  - unfold attachments. now apply read_cached.
Qed.

Lemma attachments_abort_witness :
  (exists s,
      attachments (env_three false ATTACHMENT_ERROR_NOT_IMPLEMENTED) fresh
      = (Raise (OtherError "ValueError"), s)
      /\ __attachmentsReady s = false
      /\ attachments (env_three false ATTACHMENT_ERROR_NOT_IMPLEMENTED) s
         = (Return
              [new_attachment ClsAttachment "__attach_version1.0_#00000000"
                 plain_data;
               new_attachment ClsUnsupportedAttachment
                 "__attach_version1.0_#00000001" placeholder_data], s))
  /\ (exists s,
         attachments env_bad_placeholder fresh = (Raise TypeError, s)
         /\ __attachmentsReady s = false
         /\ attachments env_bad_placeholder s
            = (Return
                 [new_attachment ClsAttachment
                    "__attach_version1.0_#00000000" plain_data;
                  new_attachment ClsUnsupportedAttachment
                    "__attach_version1.0_#00000001" placeholder_data], s)).
Proof.
  split.
  - exact (attachments_abort
             (env_three false ATTACHMENT_ERROR_NOT_IMPLEMENTED) fresh
             ["__attach_version1.0_#00000000";
              "__attach_version1.0_#00000001"]
             "__attach_version1.0_#00000002" [] (OtherError "ValueError")
             eq_refl eq_refl eq_refl eq_refl).
  - exact (attachments_abort env_bad_placeholder fresh
             ["__attach_version1.0_#00000000";
              "__attach_version1.0_#00000001"]
             "__attach_version1.0_#00000002" [] TypeError
             eq_refl eq_refl eq_refl eq_refl).
Defined.

(** ** Registrations with immediate construction *)

Lemma keeps_build_attachment {X : Type} (f : MessageBase -> X) (E : Env)
    (attachmentDir : string) :
  (forall l self, f (with_attachments l self) = f self) ->
  keeps f (build_attachment E attachmentDir).
Proof.
  intros Hf.
  assert (Happ : forall a, keeps f (append_attachment a)).
  { intros a. unfold append_attachment.
    apply keeps_bind; [apply keeps_getattr|].
    intros l. apply keeps_modify. intros self. apply Hf. }
  unfold build_attachment, logger_error, logger_exception.
  destruct (attachmentClass E attachmentDir) as [e|data]; [|apply Happ].
  destruct (is_unsupported_error e).
  - destruct (ATTACHMENT_ERROR_THROW <? attachmentErrorBehavior E);
      [|apply keeps_raise].
    repeat (apply keeps_bind; [apply keeps_ret | intros _]).
    apply keeps_bind; [apply keeps_lift | intros data; apply Happ].
  - destruct (attachmentErrorBehavior E =? ATTACHMENT_ERROR_BROKEN);
      [|apply keeps_raise].
    repeat (apply keeps_bind; [apply keeps_ret | intros _]).
    apply keeps_bind; [apply keeps_lift | intros data; apply Happ].
Qed.

(** Resolving the attachment list leaves the message's own table of
    named properties alone. *)
Lemma attachments_keep_named_table (E : Env) :
  keeps named_table (attachments E).
Proof.
  unfold attachments. apply keeps_try_return.
  apply keeps_bind; [apply keeps_lift_outcome | intros dirs].
  apply keeps_bind; [apply keeps_modify; reflexivity | intros _].
  apply keeps_bind.
  { apply keeps_for_each. intros d. apply keeps_build_attachment.
    reflexivity. }
  intros _.
  apply keeps_bind; [apply keeps_modify; reflexivity | intros _].
  apply keeps_bind; [|intros _; apply keeps_getattr].
  unfold replay_waiting. apply keeps_try_except; [|intros e; apply keeps_ret].
  apply keeps_bind; [apply keeps_getattr | intros props].
  destruct (__attachmentsDelayed E); [|apply keeps_ret].
  apply keeps_bind; [apply keeps_getattr | intros l].
  apply keeps_modify. reflexivity.
Qed.

(** X14.  With immediate construction a registration resolves the
    attachment list first.  When the list resolves, every attachment
    and the message's own table receive the registration; when its
    resolution raises, the registration raises the same exception and
    the message's own table is left without the entry. *)
Theorem register_resolves_attachments (E : Env) (self : MessageBase)
    (entry _type : string) (name : option string) :
  __attachmentsDelayed E = false ->
  (forall l s1,
      attachments E self = (Return l, s1) ->
      exists s,
        _registerNamedProperty E entry _type name self = (Return tt, s)
        /\ _attachments s
           = Some (map (register_on (entry, _type, name)) l)
        /\ named_table s
           = (named_table self ++ [(entry, _type, name)])%list)
  /\ (forall e s1,
         attachments E self = (Raise e, s1) ->
         _registerNamedProperty E entry _type name self = (Raise e, s1)
         /\ named_table s1 = named_table self).
Proof.
  intros Himmediate.
  assert (Hrun :
             _registerNamedProperty E entry _type name self
             = bind
                 (bind (attachments E)
                    (fun l =>
                       modify
                         (with_attachments
                            (map (register_on (entry, _type, name)) l))))
                 (fun _ => super_registerNamedProperty (entry, _type, name))
                 self).
  { unfold _registerNamedProperty, attachmentsDelayed.
    msteps. rewrite Himmediate. msteps. reflexivity. }
  pose proof (attachments_keep_named_table E self) as Hkeep.
  split.
  - intros l s1 Hl. rewrite Hl in Hkeep. simpl in Hkeep.
    eexists. split; [|split].
    + rewrite Hrun, run_bind_bind, (run_bind_of _ _ _ _ _ Hl).
      msteps. unfold super_registerNamedProperty. reflexivity.
    + reflexivity.
    + simpl. now rewrite Hkeep.
  - intros e s1 He. rewrite He in Hkeep. simpl in Hkeep.
    split; [|exact Hkeep].
    rewrite Hrun, run_bind_bind.
    apply (run_bind_raises _ _ _ _ _ He).
Qed.

Lemma register_resolves_attachments_witness :
  (exists s,
      _registerNamedProperty env_two_msgs "entry" "type" (Some "name") fresh
      = (Return tt, s)
      /\ _attachments s
         = Some (map (register_on queued_prop) [msg_failing; msg_fine])
      /\ named_table s = [queued_prop])
  /\ _registerNamedProperty (env_three false ATTACHMENT_ERROR_THROW)
       "entry" "type" (Some "name") fresh
     = (Raise NotImplementedError,
        snd (attachments (env_three false ATTACHMENT_ERROR_THROW) fresh))
  /\ named_table
       (snd (attachments (env_three false ATTACHMENT_ERROR_THROW) fresh))
     = [].
Proof.
  split.
  - exact (proj1 (register_resolves_attachments env_two_msgs fresh
                    "entry" "type" (Some "name") eq_refl)
             [msg_failing; msg_fine] _ eq_refl).
  - exact (proj2 (register_resolves_attachments
                    (env_three false ATTACHMENT_ERROR_THROW) fresh
                    "entry" "type" (Some "name") eq_refl)
             NotImplementedError _ eq_refl).
Defined.

(** ** Closing and the cached fields *)

Lemma keeps_close_one {X : Type} (f : MessageBase -> X) (a : Attachment) :
  (forall l self, f (with_close_log l self) = f self) ->
  keeps f (close_one a).
Proof.
  intros Hf. unfold close_one, data_close.
  destruct (att_type (a_data a)) as [t|]; [|apply keeps_raise].
  destruct (String.eqb t "msg"); [|apply keeps_ret].
  destruct (att_close (a_data a)); [apply keeps_raise|].
  intros self. apply Hf.
Qed.

Lemma close_keeps {X : Type} (f : MessageBase -> X) (E : Env) :
  (forall l self, f (with_close_log l self) = f self) ->
  (forall b self, f (with_closed b self) = f self) ->
  keeps f (close E).
Proof.
  intros Hlog Hclosed self.
  destruct (_attachments self) as [l|] eqn:Hl.
  - assert (Hatt : attachments E self = (Return l, self))
      by (unfold attachments; now apply read_cached).
    pose proof (keeps_for_each f l close_one
                  (fun a => keeps_close_one f a Hlog) self) as Hloop.
    unfold close, super_close, try_except, bind at 1.
    rewrite run_bind_getattr, Hl, (run_bind_of _ _ _ _ _ Hatt).
    destruct (for_each l close_one self) as [[[]| e |] s]; simpl in *.
    + now rewrite Hclosed.
    + destruct (is_AttributeError e); simpl; [now rewrite Hclosed|].
      exact Hloop.
    + exact Hloop.
  - unfold close, super_close, try_except, bind at 1.
    rewrite run_bind_getattr, Hl. simpl. apply Hclosed.
Qed.

(** X15.  Closing a message, whether it returns or raises, resolves no
    field and changes none: every cached attribute, the line ending,
    the queue of registrations and the table of named properties are
    afterwards what they were before. *)
Theorem close_keeps_fields (E : Env) (self : MessageBase) :
  (forall k, read k (snd (close E self)) = read k self)
  /\ __crlf (snd (close E self)) = __crlf self
  /\ __waitingProperties (snd (close E self)) = __waitingProperties self
  /\ named_table (snd (close E self)) = named_table self.
Proof.
  split; [|split; [|split]].
  - intros k. apply (close_keeps (read k)); intros; destruct k; reflexivity.
  - apply (close_keeps __crlf); reflexivity.
  - apply (close_keeps __waitingProperties); reflexivity.
  - apply (close_keeps named_table); reflexivity.
Qed.

(** ** HTML body without an RTF body *)

(** X16.  When the raw HTML stream is absent or empty and there is no
    RTF body, the first read of [htmlBody] never returns: with a
    plain-text body it raises [TypeError] from the [bytes.replace] call
    of line 382, without one it raises [AttributeError] from the
    [logger.into] call of line 385.  The attribute [_htmlBody] has been
    assigned by then, so a second read returns what the raw stream
    lookup gave and does not raise. *)
Theorem htmlBody_without_rtf_raises (E : Env) (self s1 s2 : MessageBase)
    (r : option bytes) (b : option string) :
  bytes_attrs self "_htmlBody" = None ->
  truthy_bytes (getStream E "__substg1.0_10130102") = false ->
  rtfBody E
    (with_bytes "_htmlBody" (getStream E "__substg1.0_10130102") self)
  = (Return r, s1) ->
  truthy_bytes r = false ->
  body E s1 = (Return b, s2) ->
  htmlBody E self
  = (Raise (if truthy_str b then TypeError else AttributeError), s2)
  /\ htmlBody E s2 = (Return (getStream E "__substg1.0_10130102"), s2).
Proof.
  intros Hunset Hraw Hrtf Hr Hbody.
  pose proof (stable_body E _ _ _ _ Hbody (le_refl _ s2)) as Hagain.
  split.
  - unfold htmlBody. rewrite run_try_return, Hunset.
    rewrite (run_bind_of _ _ _ _ _ (run_ensureSet_bytes E _ _ self)).
    rewrite Hunset, Hraw. msteps.
    rewrite (run_bind_of _ _ _ _ _ Hrtf), Hr. msteps.
    rewrite (run_bind_of _ _ _ _ _ Hbody).
    unfold logger_info, logger_into, bytes_replace_with_str.
    destruct b as [[|c t]|]; msteps; try reflexivity.
    rewrite (run_bind_of _ _ _ _ _ Hagain). msteps. reflexivity.
  - unfold htmlBody. apply read_cached.
    apply (le_bytes_attr s1); [exact (frame_body E _ _ _ Hbody)|].
    apply (le_bytes_attr
             (with_bytes "_htmlBody" (getStream E "__substg1.0_10130102")
                self));
      [exact (frame_rtfBody E _ _ _ Hrtf)|].
    apply bytes_attrs_with_bytes.
Qed.

Lemma htmlBody_without_rtf_raises_witness :
  (htmlBody env_text_only fresh
   = (Raise TypeError, snd (htmlBody env_text_only fresh))
   /\ htmlBody env_text_only (snd (htmlBody env_text_only fresh))
      = (Return None, snd (htmlBody env_text_only fresh)))
  /\ (htmlBody env_plain fresh
      = (Raise AttributeError, snd (htmlBody env_plain fresh))
      /\ htmlBody env_plain (snd (htmlBody env_plain fresh))
         = (Return None, snd (htmlBody env_plain fresh))).
Proof.
  split.
  - exact (htmlBody_without_rtf_raises env_text_only fresh _ _ None
             (Some "hi") eq_refl eq_refl eq_refl eq_refl eq_refl).
  - exact (htmlBody_without_rtf_raises env_plain fresh _ _ None None
             eq_refl eq_refl eq_refl eq_refl eq_refl).
Defined.

(** ** The white space normalisation settles *)

Lemma prefix_has_char (c : ascii) (a : string) :
  forall b,
    String.prefix a b = true ->
    PyStr.has_char c a = true ->
    PyStr.has_char c b = true.
Proof.
  induction a as [|x a IH]; intros b Hp Hc; [discriminate|].
  destruct b as [|y b]; [discriminate|].
  simpl in Hp. destruct (Ascii.ascii_dec x y) as [->|]; [|discriminate].
  simpl in *. destruct (Ascii.eqb c y); [reflexivity|]. simpl in *.
  now apply IH.
Qed.

(** A pass leaves a string alone that lacks a character of the
    pattern. *)
Lemma replace_scan_absent (c : ascii) (old new : string) :
  PyStr.has_char c old = true ->
  forall s,
    PyStr.has_char c s = false ->
    PyStr.replace_scan 0 s old new = s.
Proof.
  intros Hold. induction s as [|d s IH]; intros Hs; [reflexivity|].
  rewrite replace_scan_cons0.
  destruct (String.prefix old (String d s)) eqn:Hp.
  - rewrite (prefix_has_char c old _ Hp Hold) in Hs. discriminate.
  - f_equal. apply IH. simpl in Hs. now apply orb_false_iff in Hs.
Qed.

Lemma unfold_lines_one_line (s : string) :
  PyStr.has_char (ascii_of_nat 13) s = false ->
  PyStr.has_char (ascii_of_nat 10) s = false ->
  unfold_lines s = s.
Proof.
  intros Hcr Hlf. unfold unfold_lines. cbv zeta.
  change (PyStr.replace s (SP ++ CRLF ++ TAB) SP)
    with (PyStr.replace_scan 0 s (SP ++ CRLF ++ TAB) SP).
  rewrite (replace_scan_absent (ascii_of_nat 13) (SP ++ CRLF ++ TAB) SP eq_refl s Hcr).
  change (PyStr.replace s (CRLF ++ TAB ++ SP) SP)
    with (PyStr.replace_scan 0 s (CRLF ++ TAB ++ SP) SP).
  rewrite (replace_scan_absent (ascii_of_nat 13) (CRLF ++ TAB ++ SP) SP eq_refl s Hcr).
  change (PyStr.replace s (CRLF ++ TAB) SP)
    with (PyStr.replace_scan 0 s (CRLF ++ TAB) SP).
  rewrite (replace_scan_absent (ascii_of_nat 13) (CRLF ++ TAB) SP eq_refl s Hcr).
  change (PyStr.replace s CRLF SP) with (PyStr.replace_scan 0 s CRLF SP).
  rewrite (replace_scan_absent (ascii_of_nat 13) CRLF SP eq_refl s Hcr).
  change (PyStr.replace s CR SP) with (PyStr.replace_scan 0 s CR SP).
  rewrite (replace_scan_absent (ascii_of_nat 13) CR SP eq_refl s Hcr).
  change (PyStr.replace s LF SP) with (PyStr.replace_scan 0 s LF SP).
  apply (replace_scan_absent (ascii_of_nat 10) LF SP eq_refl s Hlf).
Qed.

Lemma unfold_lines_length (s : string) :
  (String.length (unfold_lines s) <= String.length s)%nat.
Proof.
  assert (Hpass : forall t old new,
             (String.length new <= String.length old)%nat ->
             (String.length (PyStr.replace_scan 0 t old new)
              <= String.length t)%nat).
  { intros t old new Hlen.
    pose proof (replace_scan_length_le old new Hlen t 0). lia. }
  unfold unfold_lines. cbv zeta.
  repeat match goal with
         | |- context [PyStr.replace ?t ?old SP] =>
             change (PyStr.replace t old SP)
               with (PyStr.replace_scan 0 t old SP)
         end.
  repeat (etransitivity; [apply Hpass; simpl; lia|]).
  reflexivity.
Qed.

Lemma collapse_spaces_length_le (n : nat) :
  forall value v',
    collapse_spaces n value = Some v' ->
    (String.length v' <= String.length value)%nat.
Proof.
  induction n as [|n IH]; intros value v'.
  - change (collapse_spaces 0 value)
      with (if PyStr.find value SP2 =? -1 then Some value else None).
    destruct (PyStr.find value SP2 =? -1); [|discriminate].
    intros [= <-]. lia.
  - change (collapse_spaces (S n) value)
      with (if PyStr.find value SP2 =? -1 then Some value
            else collapse_spaces n (PyStr.replace value SP2 SP)).
    destruct (PyStr.find value SP2 =? -1); [intros [= <-]; lia|].
    intros H. apply IH in H.
    pose proof (replace_scan_length_le SP2 SP ltac:(simpl; lia) value 0).
    change (PyStr.replace value SP2 SP)
      with (PyStr.replace_scan 0 value SP2 SP) in H.
    lia.
Qed.

Lemma collapse_spaces_settled (n : nat) (value : string) :
  PyStr.find value SP2 = -1 -> collapse_spaces n value = Some value.
Proof.
  intros H.
  destruct n;
    [change (collapse_spaces 0 value)
       with (if PyStr.find value SP2 =? -1 then Some value else None)
    |change (collapse_spaces (S n) value)
       with (if PyStr.find value SP2 =? -1 then Some value
             else collapse_spaces n (PyStr.replace value SP2 SP))];
    rewrite H; reflexivity.
Qed.

(** X17.  The white space normalisation of lines 105-108 always comes
    to an end, never makes the value longer, and settles: run on its
    own result it gives that result back. *)
Theorem normalisation_settles (value : string) :
  exists v',
    collapse_spaces (String.length (unfold_lines value)) (unfold_lines value)
    = Some v'
    /\ (String.length v' <= String.length value)%nat
    /\ collapse_spaces (String.length (unfold_lines v')) (unfold_lines v')
       = Some v'.
Proof.
  exists (single_line value).
  pose proof (single_line_spec value) as Hrun.
  destruct (single_line_shape value) as [Hsp [Hcr Hlf]].
  split; [exact Hrun|]. split.
  - apply collapse_spaces_length_le in Hrun.
    pose proof (unfold_lines_length value). lia.
  - rewrite (unfold_lines_one_line _ Hcr Hlf).
    now apply collapse_spaces_settled.
Qed.

(** ** A failed deencapsulation *)

(** X18.  When the RTF library builds its object and then fails to
    deencapsulate it with an exception that is not one of its two
    signals, the first read of [deencapsulatedRtf] raises that
    exception; the object has been stored by then, so a second read
    returns an object, not [None], and does not raise. *)
Theorem deencapsulation_failure_is_kept (E : Env) (self s1 : MessageBase)
    (c : byte) (rtf : bytes) (d : DeEncapsulator) (e : exn) :
  _deencapsultor self = None ->
  rtfBody E self = (Return (Some (c :: rtf)), s1) ->
  RTFDE_DeEncapsulator E (c :: rtf) = inr d ->
  RTFDE_deencapsulate E d = inl e ->
  absorbed e = Raise e ->
  exists s,
    deencapsulatedRtf E self = (Raise e, s)
    /\ exists d', deencapsulatedRtf E s = (Return (Some d'), s).
Proof.
  intros Hd Hrtf Hnew Hdeenc Hnot.
  pose proof (stable_rtfBody E _ _ _ _ Hrtf (le_refl _ s1)) as Hagain.
  exists (with_deencapsultor (Some d) s1). split.
  - unfold deencapsulatedRtf. rewrite run_try_return, Hd.
    rewrite (run_bind_of _ _ _ _ _ Hrtf). msteps.
    unfold try_except, logger_debug, logger_info.
    unfold bind at 1.
    rewrite (run_bind_of _ _ _ _ _ Hagain), Hnew.
    unfold lift at 1. msteps. rewrite Hdeenc.
    unfold lift. rewrite run_bind_raise.
    destruct e; try discriminate Hnot; reflexivity.
  - exists d. unfold deencapsulatedRtf. now apply read_cached.
Qed.

Lemma deencapsulation_failure_is_kept_witness :
  exists s,
    deencapsulatedRtf (env_body None (inl (OtherError "ValueError"))) fresh
    = (Raise (OtherError "ValueError"), s)
    /\ exists d',
         deencapsulatedRtf (env_body None (inl (OtherError "ValueError"))) s
         = (Return (Some d'), s).
Proof.
  exact (deencapsulation_failure_is_kept
           (env_body None (inl (OtherError "ValueError"))) fresh _
           x7b [x5c; x72; x74; x66]%byte
           {| content_type := ""; html := ""; text := "" |}
           (OtherError "ValueError")
           eq_refl eq_refl eq_refl eq_refl eq_refl).
Defined.

(** ** Decompression *)

(** X19.  With a non-empty compressed RTF stream, the first read of
    [rtfBody] returns what the decompression returns and raises what it
    raises.  A failed decompression stores nothing in [_rtfBody], so
    the next read decompresses again. *)
Theorem rtfBody_outcome (E : Env) (self : MessageBase) (c : byte)
    (raw : bytes) :
  bytes_attrs self "_compressedRtf" = None ->
  bytes_attrs self "_rtfBody" = None ->
  getStream E "__substg1.0_10090102" = Some (c :: raw) ->
  fst (rtfBody E self)
  = match decompress E (c :: raw) with
    | inr r => Return (Some r)
    | inl e => Raise e
    end
  /\ (forall e,
         decompress E (c :: raw) = inl e ->
         bytes_attrs (snd (rtfBody E self)) "_rtfBody" = None
         /\ fst (rtfBody E (snd (rtfBody E self))) = Raise e).
Proof.
  intros Hc Hr Hstream.
  assert (Hrun :
    rtfBody E self
    = match decompress E (c :: raw) with
      | inr r =>
          (Return (Some r),
           with_bytes "_rtfBody" (Some r)
             (with_bytes "_compressedRtf" (Some (c :: raw)) self))
      | inl e =>
          (Raise e, with_bytes "_compressedRtf" (Some (c :: raw)) self)
      end).
  { unfold rtfBody, compressedRtf. rewrite run_try_return, Hr.
    rewrite (run_bind_of _ _ _ _ _ (run_ensureSet_bytes E _ _ self)).
    rewrite Hc, Hstream. msteps.
    rewrite (run_bind_of _ _ _ _ _ (run_ensureSet_bytes E _ _ _)).
    rewrite bytes_attrs_with_bytes. msteps.
    destruct (decompress E (c :: raw)) as [e|r]; unfold lift; msteps;
      reflexivity. }
  rewrite Hrun. split.
  - destruct (decompress E (c :: raw)); reflexivity.
  - intros e He. rewrite He. cbn [fst snd]. split; [exact Hr|].
    unfold rtfBody, compressedRtf.
    rewrite run_try_return.
    change (bytes_attrs
              (with_bytes "_compressedRtf" (Some (c :: raw)) self) "_rtfBody")
      with (bytes_attrs self "_rtfBody").
    rewrite Hr.
    rewrite (run_bind_of _ _ _ _ _ (run_ensureSet_bytes E _ _ _)).
    rewrite bytes_attrs_with_bytes. msteps.
    rewrite (run_bind_of _ _ _ _ _ (run_ensureSet_bytes E _ _ _)).
    rewrite bytes_attrs_with_bytes. msteps.
    rewrite He. reflexivity.
Qed.

Lemma rtfBody_outcome_witness :
  (fst (rtfBody (env_body None (inr text_rtf)) fresh)
   = Return (Some [x7b; x5c; x72; x74; x66]%byte))
  /\ bytes_attrs (snd (rtfBody env_bad_rtf fresh)) "_rtfBody" = None
  /\ fst (rtfBody env_bad_rtf (snd (rtfBody env_bad_rtf fresh)))
     = Raise (OtherError "decompress called").
Proof.
  split.
  - exact (proj1 (rtfBody_outcome (env_body None (inr text_rtf)) fresh
                    x7b [x5c; x72; x74; x66]%byte eq_refl eq_refl eq_refl)).
  - exact (proj2 (rtfBody_outcome env_bad_rtf fresh x7b [] eq_refl eq_refl
                    eq_refl) (OtherError "decompress called") eq_refl).
Defined.

(** ** An AttributeError inside the loop of [close] *)

(** X20.  An [AttributeError] raised inside the loop of [close], by an
    attachment that has no [type] or by the close of a nested message,
    ends the loop and is swallowed by the [except] clause that is there
    for attachments never loaded: [close] returns normally and closes
    the container, and the nested messages after that attachment are
    not closed. *)
Theorem close_swallows_attribute_error (E : Env) (self : MessageBase)
    (before : list Attachment) (a : Attachment) (after : list Attachment) :
  _attachments self = Some (before ++ a :: after)%list ->
  Forall has_type before ->
  Forall closes_cleanly before ->
  att_type (a_data a) = None
  \/ (is_msg a = true /\ att_close (a_data a) = Some AttributeError) ->
  exists s,
    close E self = (Return tt, s)
    /\ close_log s = (close_log self ++ map a_dir (filter is_msg before))%list
    /\ closed s = true.
Proof.
  intros Hl Htyped Hclean Ha.
  assert (Hfail : close_failure a = Some AttributeError).
  { destruct Ha as [Hnone|[Hmsg Hclose]].
    - unfold close_failure. now rewrite Hnone.
    - now apply close_failure_msg. }
  destruct (close_loop_failure before
              (Forall_close_failure_none before Htyped Hclean)
              a after AttributeError self Hfail) as [s [Hrun [Hlog Hc]]].
  exists (with_closed true s). split; [|split; [exact Hlog | reflexivity]].
  now rewrite (run_close E self _ _ s Hl Hrun).
Qed.

Lemma close_swallows_attribute_error_witness :
  exists s,
    close env_two_msgs
      (with_attachments
         [msg_fine;
          new_attachment ClsBrokenAttachment "__attach_version1.0_#00000002"
            placeholder_data;
          msg_fine] fresh)
    = (Return tt, s)
    /\ close_log s = [a_dir msg_fine]
    /\ closed s = true.
Proof.
  apply (close_swallows_attribute_error env_two_msgs
           (with_attachments
              [msg_fine;
               new_attachment ClsBrokenAttachment
                 "__attach_version1.0_#00000002" placeholder_data;
               msg_fine] fresh)
           [msg_fine]
           (new_attachment ClsBrokenAttachment "__attach_version1.0_#00000002"
              placeholder_data)
           [msg_fine] eq_refl).
  - repeat constructor; discriminate.
  - repeat constructor.
  - left. reflexivity.
Defined.
